(** * Streaming orchestration of plandex proposals

    A shallow embedding of the two sources of the repository:

    - [cli/lib/proposal.go]: the client's [Propose], whose stream handler
      [handleStream] is a closure over the local variables of [Propose];
    - the server's [confirmProposal], which starts one goroutine per file of
      a finished proposal and merges their output on one stream callback.

    The definitions come first: the values of Go ([Go]), the types of the
    [shared] package, the wire form of a chunk ([Json]), the client
    ([Client]), the server ([Plan], [Server]), what sessions, the key
    watcher and the goroutines are measured by ([Session], [Keys],
    [Outcome]), and example environments and runs ([Examples],
    [Scenarios]). The theorems follow, in modules named after what they are
    about. Effects are explicit: a call of the client's handler is a function
    on the variables of [Propose] that returns, panics or blocks; the
    goroutines of the server, and the key watcher and the loop of the
    client, take steps on a shared state, and a run is a list of such steps
    in any interleaving. *)

From Stdlib Require Import Ascii.
From stdpp Require Import gmap strings list fin_maps.

Set Default Proof Using "Type".
Open Scope string_scope.

(** ** Go values *)

Module Go.

(** A Go [error] is modelled by its message; [fmt.Errorf] with one [%v] or
    [%s] verb is concatenation. *)
Definition error : Type := string.

(** What a call leaves behind: it returns, it panics (the process dies), or
    it blocks forever on a channel operation. *)
Inductive Run (A : Type) : Type :=
| Ret (a : A)
| Panic (why : string)
| Blocked.

Arguments Ret {A} a.
Arguments Panic {A} why.
Arguments Blocked {A}.

Definition bind {A B} (r : Run A) (k : A → Run B) : Run B :=
  match r with
  | Ret a => k a
  | Panic why => Panic why
  | Blocked => Blocked
  end.

End Go.

Notation "'let*' x := r 'in' k" := (Go.bind r (fun x => k))
  (at level 10, x name, r at level 100, k at level 200, only parsing).

(** ** The [shared] package *)

Module PlanDescription.

(** [shared.PlanDescription], wire form [{madePlan: bool, files: [string]}]. *)
Record t : Type := { MadePlan : bool; Files : list string }.

End PlanDescription.

Module PlanChunk.

(** [shared.PlanChunk], wire form [{path: string, content: string}]. *)
Record t : Type := { Path : string; Content : string }.

End PlanChunk.

(** The states of the proposal's state machine, as [state.Current()] reports
    them to the client. *)
Inductive Phase : Type :=
| STATE_REPLYING
| STATE_REVISING
| STATE_DESCRIBING
| STATE_BUILDING
| STATE_FINISHED.

(** ** The wire form of a build-phase chunk *)

Module Json.

(** The build-phase chunk travels as the JSON object
    [{path: string, content: string}] (spec 4.5, 6). The server encodes it
    with [json.Marshal] of encoding/json; the decoder is in the client's
    [receiveFileChunk]. Neither is under the sources. Strings are the
    strings of Go: sequences of bytes, which hold UTF-8 text when they are
    valid. *)

Definition byte_of (n : N) : ascii := ascii_of_N n.
Definition code (c : ascii) : N := N_of_ascii c.
Definition is_byte (c : ascii) (n : N) : bool := (code c =? n)%N.

Definition quote : ascii := byte_of 34.
Definition backslash : ascii := byte_of 92.

Definition hex_digit (n : N) : ascii :=
  if (n <? 10)%N then byte_of (48 + n) else byte_of (87 + n).

(** *** UTF-8 *)

(** [utf8.RuneError], the replacement character U+FFFD. *)
Definition replacement : N := 65533.

(** The number of bytes of the sequence a first byte announces, 0 for a byte
    that starts none (the table [first] of unicode/utf8). *)
Definition first (b : N) : nat :=
  if (b <? 128)%N then 1
  else if (b <? 194)%N then 0
  else if (b <? 224)%N then 2
  else if (b <? 240)%N then 3
  else if (b <? 245)%N then 4
  else 0.

(** The range of the second byte after the first byte [b] (the table
    [acceptRanges]): it excludes the overlong forms, the surrogates and the
    code points above U+10FFFF. *)
Definition accept (b : N) : N * N :=
  if (b =? 224)%N then (160, 191)%N
  else if (b =? 237)%N then (128, 159)%N
  else if (b =? 240)%N then (144, 191)%N
  else if (b =? 244)%N then (128, 143)%N
  else (128, 191)%N.

Definition within (range : N * N) (c : ascii) : bool :=
  (range.1 <=? code c)%N && (code c <=? range.2)%N.

(** A continuation byte. *)
Definition continuation (c : ascii) : bool := within (128, 191)%N c.

(** [utf8.DecodeRuneInString]: the code point at the head of the string and
    the number of its bytes; the replacement character and 1 when the head
    is not the UTF-8 form of a code point. The code point is the number the
    payload bits of the bytes make. *)
Definition DecodeRune (s : string) : N * nat :=
  match s with
  | EmptyString => (replacement, 0)
  | String c0 rest =>
      let b0 := code c0 in
      match first b0, rest with
      | 1, _ => (b0, 1)
      | 2, String c1 _ =>
          if within (accept b0) c1
          then ((64 * (b0 - 192) + (code c1 - 128))%N, 2)
          else (replacement, 1)
      | 3, String c1 (String c2 _) =>
          if within (accept b0) c1 && continuation c2
          then ((4096 * (b0 - 224) + 64 * (code c1 - 128) + (code c2 - 128))%N, 3)
          else (replacement, 1)
      | 4, String c1 (String c2 (String c3 _)) =>
          if within (accept b0) c1 && continuation c2 && continuation c3
          then ((262144 * (b0 - 240) + 4096 * (code c1 - 128)
                 + 64 * (code c2 - 128) + (code c3 - 128))%N, 4)
          else (replacement, 1)
      | _, _ => (replacement, 1)
      end
  end.

(** [utf8.ValidString]: the string is a sequence of UTF-8 forms of code
    points. *)
Fixpoint ValidString (s : string) : bool :=
  match s with
  | EmptyString => true
  | String c rest =>
      match DecodeRune (String c rest), rest with
      | (_, 1), _ => (code c <? 128)%N && ValidString rest
      | (_, 2), String _ rest2 => ValidString rest2
      | (_, 3), String _ (String _ rest3) => ValidString rest3
      | (_, 4), String _ (String _ (String _ rest4)) => ValidString rest4
      | _, _ => false
      end
  end.

(** UTF-8 of a code point that is no surrogate and not above U+10FFFF
    ([utf8.EncodeRune] on the code points it is given here). *)
Definition utf8 (r : N) : string :=
  if (r <? 128)%N then String (byte_of r) ""
  else if (r <? 2048)%N then
    String (byte_of (192 + N.shiftr r 6)) (String (byte_of (128 + N.land r 63)) "")
  else if (r <? 65536)%N then
    String (byte_of (224 + N.shiftr r 12))
      (String (byte_of (128 + N.land (N.shiftr r 6) 63))
        (String (byte_of (128 + N.land r 63)) ""))
  else
    String (byte_of (240 + N.shiftr r 18))
      (String (byte_of (128 + N.land (N.shiftr r 12) 63))
        (String (byte_of (128 + N.land (N.shiftr r 6) 63))
          (String (byte_of (128 + N.land r 63)) ""))).

(** *** Encoding *)

(** The escape sequence of one ASCII byte, or the byte itself: the quote,
    the backslash and the control characters, as JSON requires, and the
    characters <, > and &, which [json.Marshal] escapes in addition; every
    other byte is copied. (Before Go 1.22 the backspace and the form feed
    were written with the six-character escape, which decodes to the same
    byte.) *)
Definition escape_byte (c : ascii) : string :=
  let n := code c in
  if (n =? 34)%N || (n =? 92)%N then String backslash (String c "")
  else if (n =? 8)%N then String backslash "b"
  else if (n =? 12)%N then String backslash "f"
  else if (n =? 10)%N then String backslash "n"
  else if (n =? 13)%N then String backslash "r"
  else if (n =? 9)%N then String backslash "t"
  else if (n <? 32)%N || (n =? 60)%N || (n =? 62)%N || (n =? 38)%N then
    String backslash
      (String "u" (String "0" (String "0"
        (String (hex_digit (N.shiftr n 4)) (String (hex_digit (N.land n 15)) "")))))
  else String c "".

(** The six-character escape of a code point below U+10000. *)
Definition escape_u (r : N) : string :=
  String backslash
    (String "u"
      (String (hex_digit (N.shiftr r 12))
        (String (hex_digit (N.land (N.shiftr r 8) 15))
          (String (hex_digit (N.land (N.shiftr r 4) 15))
            (String (hex_digit (N.land r 15)) ""))))).

(** The code points [json.Marshal] escapes although JSON allows them: the
    line and paragraph separators U+2028 and U+2029. *)
Definition is_separator (r : N) : bool := (r =? 8232)%N || (r =? 8233)%N.

(** The body of a string literal as [json.Marshal] writes it, code point by
    code point: an ASCII byte by [escape_byte]; the bytes of a code point
    copied, unless it is a separator; and the escape of the replacement
    character for a byte that is not the head of valid UTF-8. *)
Fixpoint escape (s : string) : string :=
  match s with
  | EmptyString => ""
  | String c rest =>
      match DecodeRune (String c rest), rest with
      | (_, 1), _ =>
          if (code c <? 128)%N then escape_byte c ++ escape rest
          else escape_u replacement ++ escape rest
      | (r, 2), String c1 rest2 =>
          if is_separator r then escape_u r ++ escape rest2
          else String c (String c1 (escape rest2))
      | (r, 3), String c1 (String c2 rest3) =>
          if is_separator r then escape_u r ++ escape rest3
          else String c (String c1 (String c2 (escape rest3)))
      | (r, 4), String c1 (String c2 (String c3 rest4)) =>
          if is_separator r then escape_u r ++ escape rest4
          else String c (String c1 (String c2 (String c3 (escape rest4))))
      | _, _ => escape_u replacement ++ escape rest
      end
  end.

(** A JSON string literal. *)
Definition quoted (s : string) : string :=
  String quote (escape s ++ String quote "").

(** Modelled from the spec: [json.Marshal] at [*shared.PlanChunk] is not
    under the sources. The wire form of a build-phase chunk is the JSON
    object [{path: string, content: string}] in a compact encoding (spec
    4.5, 6). *)
Definition Marshal (c : PlanChunk.t) : string :=
  "{" ++ quoted "path" ++ ":" ++ quoted (PlanChunk.Path c) ++ ","
      ++ quoted "content" ++ ":" ++ quoted (PlanChunk.Content c) ++ "}".

(** *** Decoding *)

Definition hex_value (c : ascii) : option N :=
  let n := code c in
  if (48 <=? n)%N && (n <=? 57)%N then Some (n - 48)%N
  else if (97 <=? n)%N && (n <=? 102)%N then Some (n - 87)%N
  else if (65 <=? n)%N && (n <=? 70)%N then Some (n - 55)%N
  else None.

(** The four hexadecimal digits after a backslash and u. *)
Definition getu4 (a b c d : ascii) : option N :=
  match hex_value a, hex_value b, hex_value c, hex_value d with
  | Some x, Some y, Some z, Some w => Some (4096 * x + 256 * y + 16 * z + w)%N
  | _, _, _, _ => None
  end.

Definition is_surrogate (r : N) : bool := (55296 <=? r)%N && (r <? 57344)%N.

(** The code point of a pair of UTF-16 surrogates, or the replacement
    character. *)
Definition decode_pair (r1 r2 : N) : N :=
  if (55296 <=? r1)%N && (r1 <? 56320)%N && (56320 <=? r2)%N && (r2 <? 57344)%N
  then ((r1 - 55296) * 1024 + (r2 - 56320) + 65536)%N
  else replacement.

(** The character of a one-letter escape. *)
Definition simple_escape (c : ascii) : option ascii :=
  let n := code c in
  if (n =? 34)%N || (n =? 92)%N || (n =? 47)%N then Some c
  else if (n =? 98)%N then Some (byte_of 8)
  else if (n =? 102)%N then Some (byte_of 12)
  else if (n =? 110)%N then Some (byte_of 10)
  else if (n =? 114)%N then Some (byte_of 13)
  else if (n =? 116)%N then Some (byte_of 9)
  else None.

Definition prepend (p : string) (r : option (string * string)) : option (string * string) :=
  match r with
  | Some (s, rest) => Some (p ++ s, rest)
  | None => None
  end.

(** Reads a string literal after its opening quote; returns the string and
    the input after the closing quote. Bytes outside escapes are read code
    point by code point and written back as UTF-8, which puts the
    replacement character in the place of a byte that is not the head of
    valid UTF-8. *)
Fixpoint unquote (s : string) : option (string * string) :=
  match s with
  | EmptyString => None
  | String c rest =>
      if is_byte c 34 then Some ("", rest)
      else if is_byte c 92 then
        match rest with
        | EmptyString => None
        | String e rest1 =>
            match simple_escape e with
            | Some b => prepend (String b "") (unquote rest1)
            | None =>
                if is_byte e 117 then
                  match rest1 with
                  | String h1 (String h2 (String h3 (String h4 rest2))) =>
                      match getu4 h1 h2 h3 h4 with
                      | None => None
                      | Some r =>
                          if is_surrogate r then
                            match rest2 with
                            | String b1 (String u1 (String k1 (String k2 (String k3 (String k4 rest3))))) =>
                                match (if is_byte b1 92 && is_byte u1 117 then getu4 k1 k2 k3 k4 else None) with
                                | Some r2 =>
                                    if (decode_pair r r2 =? replacement)%N
                                    then prepend (utf8 replacement) (unquote rest2)
                                    else prepend (utf8 (decode_pair r r2)) (unquote rest3)
                                | None => prepend (utf8 replacement) (unquote rest2)
                                end
                            | _ => prepend (utf8 replacement) (unquote rest2)
                            end
                          else prepend (utf8 r) (unquote rest2)
                      end
                  | _ => None
                  end
                else None
            end
        end
      else if (code c <? 32)%N then None
      else
        match DecodeRune (String c rest), rest with
        | (r, 2), String _ rest2 => prepend (utf8 r) (unquote rest2)
        | (r, 3), String _ (String _ rest3) => prepend (utf8 r) (unquote rest3)
        | (r, 4), String _ (String _ (String _ rest4)) => prepend (utf8 r) (unquote rest4)
        | (r, _), _ => prepend (utf8 r) (unquote rest)
        end
  end.

Definition is_space (c : ascii) : bool :=
  is_byte c 32 || is_byte c 9 || is_byte c 10 || is_byte c 13.

Fixpoint skip_space (s : string) : string :=
  match s with
  | EmptyString => ""
  | String c rest => if is_space c then skip_space rest else s
  end.

(** Assignment to the field a key names; other keys are ignored. *)
Definition set_field (key val : string) (c : PlanChunk.t) : PlanChunk.t :=
  if decide (key = "path") then
    {| PlanChunk.Path := val; PlanChunk.Content := PlanChunk.Content c |}
  else if decide (key = "content") then
    {| PlanChunk.Path := PlanChunk.Path c; PlanChunk.Content := val |}
  else c.

(** The members of an object whose values are strings, from the first key to
    the end of the input. *)
Fixpoint members (fuel : nat) (s : string) (c : PlanChunk.t) : option PlanChunk.t :=
  match fuel with
  | O => None
  | S fuel' =>
      match s with
      | String q rest =>
          if is_byte q 34 then
            '(key, r1) ← unquote rest;
            match skip_space r1 with
            | String colon r2 =>
                if is_byte colon 58 then
                  match skip_space r2 with
                  | String q2 r3 =>
                      if is_byte q2 34 then
                        '(val, r4) ← unquote r3;
                        let c' := set_field key val c in
                        match skip_space r4 with
                        | String d r5 =>
                            if is_byte d 44 then members fuel' (skip_space r5) c'
                            else if is_byte d 125 then
                              if decide (skip_space r5 = "") then Some c' else None
                            else None
                        | EmptyString => None
                        end
                      else None
                  | EmptyString => None
                  end
                else None
            | EmptyString => None
            end
          else None
      | EmptyString => None
      end
  end.

(** Modelled from the spec: the decoder of the chunk is not under the
    sources. It reads a JSON object whose members are strings into the zero
    value of [PlanChunk], and fails ([None]) on a structurally invalid
    payload (spec 4.5). *)
Definition Unmarshal (s : string) : option PlanChunk.t :=
  let zero := {| PlanChunk.Path := ""; PlanChunk.Content := "" |} in
  match skip_space s with
  | String open r =>
      if is_byte open 123 then
        match skip_space r with
        | String c r' =>
            if is_byte c 125 then (if decide (skip_space r' = "") then Some zero else None)
            else members (String.length s) (String c r') zero
        | EmptyString => None
        end
      else None
  | EmptyString => None
  end.

End Json.

(** ** The client: [Propose] and its stream handler (cli/lib/proposal.go) *)

Module Client.

Import Go.

Definition nl : string := String "010"%char EmptyString.

(** [types.OnStreamPlanParams]. [State] is what [state.Current()] returns
    when the handler reads it. *)
Record OnStreamPlanParams : Type :=
  { State : Phase; Err : option error; Content : string }.

(** The three maps [receiveFileChunk] is handed and mutates. *)
Record FileChunkState : Type :=
  { JsonBuffers : gmap string string;
    NumStreamedTokensByPath : gmap string Z;
    FinishedByPath : gmap string bool }.

(** Saving the proposal id to [plan.json]: [json.Marshal] then
    [os.WriteFile], each of which may fail. *)
Inductive SaveResult : Type :=
| SaveOk
| MarshalFailed (e : error)
| WriteFailed (e : error).

(** The collaborators of [handleStream] that are declared outside the two
    sources: the marker constants of [shared], [json.Unmarshal] at
    [*shared.PlanDescription] (given the previous value of [desc], it returns
    the error and the value [desc] holds afterwards), the write of
    [plan.json], [receiveFileChunk] and [writeFilesFromSections]. *)
Record Env : Type :=
  { STREAM_DESCRIPTION_PHASE : string;
    STREAM_BUILD_PHASE : string;
    json_Unmarshal :
      string → option PlanDescription.t → option error * option PlanDescription.t;
    savePlanState : string → SaveResult;
    receiveFileChunk : string → FileChunkState → bool * option error * FileChunkState;
    writeFilesFromSections : gmap string bool → option error }.

(** The local variables of [Propose] that [handleStream] closes over.
    [done] is true once the channel [done] is closed, [keywatchCancelled]
    once [cancelKeywatch] was called, [stderr] holds the lines written to
    the standard error. Rendering to the terminal, the spinner and the token
    counters are left out: they do not feed back into the handler. *)
Record Propose : Type :=
  { running : bool;
    queue : list OnStreamPlanParams;
    state : option Phase;
    proposalId : string;
    replyStarted : bool;
    terminalHasPendingUpdate : bool;
    endedReply : bool;
    reply : string;
    descJson : string;
    desc : option PlanDescription.t;
    streamFinished : bool;
    filesFinished : bool;
    chunks : FileChunkState;
    done : bool;
    keywatchCancelled : bool;
    stderr : list string }.

Definition set_running (v : bool) (s : Propose) : Propose :=
  {| running := v; queue := queue s; state := state s; proposalId := proposalId s;
     replyStarted := replyStarted s; terminalHasPendingUpdate := terminalHasPendingUpdate s; endedReply := endedReply s; reply := reply s;
     descJson := descJson s; desc := desc s; streamFinished := streamFinished s; filesFinished := filesFinished s;
     chunks := chunks s; done := done s; keywatchCancelled := keywatchCancelled s; stderr := stderr s |}.

Definition set_queue (v : list OnStreamPlanParams) (s : Propose) : Propose :=
  {| running := running s; queue := v; state := state s; proposalId := proposalId s;
     replyStarted := replyStarted s; terminalHasPendingUpdate := terminalHasPendingUpdate s; endedReply := endedReply s; reply := reply s;
     descJson := descJson s; desc := desc s; streamFinished := streamFinished s; filesFinished := filesFinished s;
     chunks := chunks s; done := done s; keywatchCancelled := keywatchCancelled s; stderr := stderr s |}.

Definition set_state (v : option Phase) (s : Propose) : Propose :=
  {| running := running s; queue := queue s; state := v; proposalId := proposalId s;
     replyStarted := replyStarted s; terminalHasPendingUpdate := terminalHasPendingUpdate s; endedReply := endedReply s; reply := reply s;
     descJson := descJson s; desc := desc s; streamFinished := streamFinished s; filesFinished := filesFinished s;
     chunks := chunks s; done := done s; keywatchCancelled := keywatchCancelled s; stderr := stderr s |}.

Definition set_proposalId (v : string) (s : Propose) : Propose :=
  {| running := running s; queue := queue s; state := state s; proposalId := v;
     replyStarted := replyStarted s; terminalHasPendingUpdate := terminalHasPendingUpdate s; endedReply := endedReply s; reply := reply s;
     descJson := descJson s; desc := desc s; streamFinished := streamFinished s; filesFinished := filesFinished s;
     chunks := chunks s; done := done s; keywatchCancelled := keywatchCancelled s; stderr := stderr s |}.

Definition set_replyStarted (v : bool) (s : Propose) : Propose :=
  {| running := running s; queue := queue s; state := state s; proposalId := proposalId s;
     replyStarted := v; terminalHasPendingUpdate := terminalHasPendingUpdate s; endedReply := endedReply s; reply := reply s;
     descJson := descJson s; desc := desc s; streamFinished := streamFinished s; filesFinished := filesFinished s;
     chunks := chunks s; done := done s; keywatchCancelled := keywatchCancelled s; stderr := stderr s |}.

Definition set_terminalHasPendingUpdate (v : bool) (s : Propose) : Propose :=
  {| running := running s; queue := queue s; state := state s; proposalId := proposalId s;
     replyStarted := replyStarted s; terminalHasPendingUpdate := v; endedReply := endedReply s; reply := reply s;
     descJson := descJson s; desc := desc s; streamFinished := streamFinished s; filesFinished := filesFinished s;
     chunks := chunks s; done := done s; keywatchCancelled := keywatchCancelled s; stderr := stderr s |}.

Definition set_endedReply (v : bool) (s : Propose) : Propose :=
  {| running := running s; queue := queue s; state := state s; proposalId := proposalId s;
     replyStarted := replyStarted s; terminalHasPendingUpdate := terminalHasPendingUpdate s; endedReply := v; reply := reply s;
     descJson := descJson s; desc := desc s; streamFinished := streamFinished s; filesFinished := filesFinished s;
     chunks := chunks s; done := done s; keywatchCancelled := keywatchCancelled s; stderr := stderr s |}.

Definition set_reply (v : string) (s : Propose) : Propose :=
  {| running := running s; queue := queue s; state := state s; proposalId := proposalId s;
     replyStarted := replyStarted s; terminalHasPendingUpdate := terminalHasPendingUpdate s; endedReply := endedReply s; reply := v;
     descJson := descJson s; desc := desc s; streamFinished := streamFinished s; filesFinished := filesFinished s;
     chunks := chunks s; done := done s; keywatchCancelled := keywatchCancelled s; stderr := stderr s |}.

Definition set_descJson (v : string) (s : Propose) : Propose :=
  {| running := running s; queue := queue s; state := state s; proposalId := proposalId s;
     replyStarted := replyStarted s; terminalHasPendingUpdate := terminalHasPendingUpdate s; endedReply := endedReply s; reply := reply s;
     descJson := v; desc := desc s; streamFinished := streamFinished s; filesFinished := filesFinished s;
     chunks := chunks s; done := done s; keywatchCancelled := keywatchCancelled s; stderr := stderr s |}.

Definition set_desc (v : option PlanDescription.t) (s : Propose) : Propose :=
  {| running := running s; queue := queue s; state := state s; proposalId := proposalId s;
     replyStarted := replyStarted s; terminalHasPendingUpdate := terminalHasPendingUpdate s; endedReply := endedReply s; reply := reply s;
     descJson := descJson s; desc := v; streamFinished := streamFinished s; filesFinished := filesFinished s;
     chunks := chunks s; done := done s; keywatchCancelled := keywatchCancelled s; stderr := stderr s |}.

Definition set_streamFinished (v : bool) (s : Propose) : Propose :=
  {| running := running s; queue := queue s; state := state s; proposalId := proposalId s;
     replyStarted := replyStarted s; terminalHasPendingUpdate := terminalHasPendingUpdate s; endedReply := endedReply s; reply := reply s;
     descJson := descJson s; desc := desc s; streamFinished := v; filesFinished := filesFinished s;
     chunks := chunks s; done := done s; keywatchCancelled := keywatchCancelled s; stderr := stderr s |}.

Definition set_filesFinished (v : bool) (s : Propose) : Propose :=
  {| running := running s; queue := queue s; state := state s; proposalId := proposalId s;
     replyStarted := replyStarted s; terminalHasPendingUpdate := terminalHasPendingUpdate s; endedReply := endedReply s; reply := reply s;
     descJson := descJson s; desc := desc s; streamFinished := streamFinished s; filesFinished := v;
     chunks := chunks s; done := done s; keywatchCancelled := keywatchCancelled s; stderr := stderr s |}.

Definition set_chunks (v : FileChunkState) (s : Propose) : Propose :=
  {| running := running s; queue := queue s; state := state s; proposalId := proposalId s;
     replyStarted := replyStarted s; terminalHasPendingUpdate := terminalHasPendingUpdate s; endedReply := endedReply s; reply := reply s;
     descJson := descJson s; desc := desc s; streamFinished := streamFinished s; filesFinished := filesFinished s;
     chunks := v; done := done s; keywatchCancelled := keywatchCancelled s; stderr := stderr s |}.

Definition set_done (v : bool) (s : Propose) : Propose :=
  {| running := running s; queue := queue s; state := state s; proposalId := proposalId s;
     replyStarted := replyStarted s; terminalHasPendingUpdate := terminalHasPendingUpdate s; endedReply := endedReply s; reply := reply s;
     descJson := descJson s; desc := desc s; streamFinished := streamFinished s; filesFinished := filesFinished s;
     chunks := chunks s; done := v; keywatchCancelled := keywatchCancelled s; stderr := stderr s |}.

Definition set_keywatchCancelled (v : bool) (s : Propose) : Propose :=
  {| running := running s; queue := queue s; state := state s; proposalId := proposalId s;
     replyStarted := replyStarted s; terminalHasPendingUpdate := terminalHasPendingUpdate s; endedReply := endedReply s; reply := reply s;
     descJson := descJson s; desc := desc s; streamFinished := streamFinished s; filesFinished := filesFinished s;
     chunks := chunks s; done := done s; keywatchCancelled := v; stderr := stderr s |}.

Definition set_stderr (v : list string) (s : Propose) : Propose :=
  {| running := running s; queue := queue s; state := state s; proposalId := proposalId s;
     replyStarted := replyStarted s; terminalHasPendingUpdate := terminalHasPendingUpdate s; endedReply := endedReply s; reply := reply s;
     descJson := descJson s; desc := desc s; streamFinished := streamFinished s; filesFinished := filesFinished s;
     chunks := chunks s; done := done s; keywatchCancelled := keywatchCancelled s; stderr := v |}.

(** The variables as [Propose] declares them before the stream starts. *)
Definition initial : Propose :=
  {| running := false; queue := []; state := None; proposalId := "";
     replyStarted := false; terminalHasPendingUpdate := false;
     endedReply := false; reply := ""; descJson := ""; desc := None;
     streamFinished := false; filesFinished := false;
     chunks := {| JsonBuffers := ∅; NumStreamedTokensByPath := ∅;
                  FinishedByPath := ∅ |};
     done := false; keywatchCancelled := false; stderr := [] |}.

(** [close(done)]: closing a closed channel panics. *)
Definition close_done (s : Propose) : Run Propose :=
  if done s then Panic "close of closed channel" else Ret (set_done true s).

(** The closure [onError] of [handleStream]. *)
Definition onError (err : error) (s : Propose) : Run Propose :=
  close_done
    (set_keywatchCancelled true (set_stderr (stderr s ++ ["Error: " ++ err]) s)).

(** The closure [endReply], as far as the handler observes it. *)
Definition endReply (s : Propose) : Propose := set_endedReply true s.

(** [case shared.STATE_FINISHED]. *)
Definition finished (s : Propose) : Run Propose :=
  let s1 := if endedReply s then s else endReply s in
  let s2 := set_streamFinished true s1 in
  if filesFinished s2 then close_done s2 else Ret s2.

(** [case shared.STATE_DESCRIBING]. *)
Definition describing (E : Env) (content : string) (s : Propose) : Run Propose :=
  if decide (content = STREAM_DESCRIPTION_PHASE E) then Ret (endReply s)
  else
    let s1 := set_descJson content s in
    let '(err, d) := json_Unmarshal E content (desc s1) in
    let s2 := set_desc d s1 in
    match err with
    | Some e => onError ("error parsing plan description: " ++ e) s2
    | None =>
        match d with
        | None => Panic "nil pointer dereference"
        | Some d =>
            if PlanDescription.MadePlan d && (0 <? length (PlanDescription.Files d))%nat
            then Ret s2
            else Ret (set_filesFinished true s2)
        end
    end.

(** [case shared.STATE_BUILDING]. The loop that redraws one line per file
    only prints. *)
Definition building (E : Env) (content : string) (s : Propose) : Run Propose :=
  if decide (content = STREAM_BUILD_PHASE E) then Ret s
  else
    let '(wroteFile, err, cs) := receiveFileChunk E content (chunks s) in
    let s1 := set_chunks cs s in
    match err with
    | Some e => onError e s1
    | None =>
        match desc s1 with
        | None => Panic "nil pointer dereference"
        | Some d =>
            let files := PlanDescription.Files d in
            if wroteFile then
              if decide (size (FinishedByPath cs) = length files) then
                match writeFilesFromSections E (FinishedByPath cs) with
                | Some e => onError e s1
                | None =>
                    let s2 := set_filesFinished true s1 in
                    if streamFinished s2 then close_done s2 else Ret s2
                end
              else Ret s1
            else Ret s1
        end
    end.

(** The body of [handleStream] after the [running] test, without the
    deferred function. *)
Definition handler (E : Env) (params : OnStreamPlanParams) (s : Propose) : Run Propose :=
  let s := set_state (Some (State params)) s in
  let content := Content params in
  match Err params with
  | Some err => onError err s
  | None =>
      if decide (proposalId s = "") then
        if decide (content = "") then
          onError "proposal id not sent in first chunk" s
        else
          let s := set_proposalId content s in
          match savePlanState E content with
          | MarshalFailed e => onError ("failed to marshal plan state: " ++ e ++ nl) s
          | WriteFailed e => onError ("failed to write plan state: " ++ e ++ nl) s
          | SaveOk => Ret s
          end
      else
        let s := if replyStarted s then s else set_replyStarted true s in
        match State params with
        | STATE_REPLYING | STATE_REVISING =>
            Ret (set_terminalHasPendingUpdate true (set_reply (reply s ++ content) s))
        | STATE_FINISHED => finished s
        | STATE_DESCRIBING => describing E content s
        | STATE_BUILDING => building E content s
        end
  end.

(** The handler followed by the deferred function, for a call that passed
    the [running] test. [q] is the content of the channel [queue]; the
    handler does not touch the channel, so the deferred function finds it as
    it was. A pending item is taken out and handed to a nested
    [handleStream], which passes the [running] test again since nothing has
    set the flag. *)
Fixpoint handle_and_drain (E : Env) (q : list OnStreamPlanParams)
    (params : OnStreamPlanParams) (s : Propose) : Run Propose :=
  let* s' := handler E params s in
  match q with
  | [] => Ret (set_running false s')
  | next :: q' => handle_and_drain E q' next (set_queue q' s')
  end.

(** [handleStream], called while no other call of it is in progress. The
    channel [queue] has capacity 1: a send to the full channel blocks. *)
Definition handleStream (E : Env) (params : OnStreamPlanParams) (s : Propose) : Run Propose :=
  if running s then
    if decide (length (queue s) < 1) then Ret (set_queue (queue s ++ [params]) s)
    else Blocked
  else handle_and_drain E (queue s) params s.

(** A sequence of calls, one after the other. *)
Fixpoint handleStream_all (E : Env) (ps : list OnStreamPlanParams) (s : Propose) : Run Propose :=
  match ps with
  | [] => Ret s
  | p :: ps' => let* s' := handleStream E p s in handleStream_all E ps' s'
  end.

(** One round of the [select] loop at the end of [Propose]. The argument is
    the case that [select] takes; [SelDone] is ready only when [done] is
    closed. The result is [None] when the case is not ready, else the
    variables and, when [Propose] returns, its result. *)
Inductive Select : Type :=
| SelKey (handled : option error)
| SelDone
| SelErr (err : error).

Definition select_loop (c : Select) (s : Propose) : option (Propose * option (option error)) :=
  match c with
  | SelKey None => Some (s, None)
  | SelKey (Some err) => Some (set_keywatchCancelled true s, Some (Some err))
  | SelDone =>
      if done s then Some (set_keywatchCancelled true s, Some None) else None
  | SelErr err => Some (set_keywatchCancelled true s, Some (Some err))
  end.


(** *** The two signals of completion *)



(** [Propose] returns an error after the chunk [p] arrived at [s]: the
    handler closes [done] and the loop, leaving at its [done] case, returns
    an error. *)
Definition returns_error (E : Env) (p : OnStreamPlanParams) (s : Propose) : Prop :=
  ∃ s' s'' err,
    handleStream E p s = Ret s' ∧
    select_loop SelDone s' = Some (s'', Some (Some err)).

(** *** Overlapping calls of [handleStream]

    The handler never reads or writes [running] and [queue]; what several
    goroutines calling [handleStream] do to these two variables is therefore
    the following machine. [executing] lists the calls that are inside the
    handler, [senders] the calls blocked in [queue <- params]. *)
Record Mailbox : Type :=
  { mb_running : bool;
    mb_queue : list OnStreamPlanParams;
    executing : list OnStreamPlanParams;
    senders : list OnStreamPlanParams }.

Definition mailbox0 : Mailbox :=
  {| mb_running := false; mb_queue := []; executing := []; senders := [] |}.

(** Entry of [handleStream]: the [running] test. *)
Definition enter (params : OnStreamPlanParams) (m : Mailbox) : Mailbox :=
  if mb_running m then
    if decide (length (mb_queue m) < 1) then
      {| mb_running := mb_running m; mb_queue := mb_queue m ++ [params];
         executing := executing m; senders := senders m |}
    else
      {| mb_running := mb_running m; mb_queue := mb_queue m;
         executing := executing m; senders := senders m ++ [params] |}
  else
    {| mb_running := mb_running m; mb_queue := mb_queue m;
       executing := executing m ++ [params]; senders := senders m |}.

(** The deferred function of the [i]-th executing call. *)
Definition leave (i : nat) (m : Mailbox) : option Mailbox :=
  match executing m !! i with
  | None => None
  | Some _ =>
      match mb_queue m with
      | [] =>
          Some {| mb_running := false; mb_queue := [];
                  executing := delete i (executing m); senders := senders m |}
      | next :: q =>
          Some (enter next
                  {| mb_running := mb_running m; mb_queue := q;
                     executing := delete i (executing m); senders := senders m |})
      end
  end.

(** A blocked sender completes its send once the channel has room. *)
Definition resume (i : nat) (m : Mailbox) : option Mailbox :=
  match senders m !! i with
  | None => None
  | Some params =>
      if decide (length (mb_queue m) < 1) then
        Some {| mb_running := mb_running m; mb_queue := mb_queue m ++ [params];
                executing := executing m; senders := delete i (senders m) |}
      else None
  end.

Inductive Move : Type :=
| Call (params : OnStreamPlanParams)
| Exit (i : nat)
| Resume (i : nat).

Definition move (mv : Move) (m : Mailbox) : option Mailbox :=
  match mv with
  | Call params => Some (enter params m)
  | Exit i => leave i m
  | Resume i => resume i m
  end.

Definition is_call (mv : Move) : bool :=
  match mv with Call _ => true | _ => false end.

Definition is_exit (mv : Move) : bool :=
  match mv with Exit _ => true | _ => false end.

Fixpoint moves (mvs : list Move) (m : Mailbox) : option Mailbox :=
  match mvs with
  | [] => Some m
  | mv :: rest =>
      match move mv m with
      | Some m' => moves rest m'
      | None => None
      end
  end.

End Client.

(** ** The server: [confirmProposal] *)

Module ModelContextPart.

(** [shared.ModelContextPart], the fields [confirmProposal] reads. *)
Record t : Type := { FilePath : string; Body : string }.

End ModelContextPart.

Module PromptRequest.

(** [shared.PromptRequest]; [CurrentPlanFiles] is [CurrentPlan.Files]. *)
Record t : Type :=
  { ModelContext : list ModelContextPart.t;
    CurrentPlanFiles : gmap string string }.

End PromptRequest.

Module Proposal.

(** [types.Proposal], the fields [confirmProposal] reads; [Description] is
    the field [PlanDescription]. *)
Record t : Type :=
  { Content : string;
    Request : PromptRequest.t;
    Description : PlanDescription.t;
    Finished : bool }.

(** Modelled from the spec: [IsFinished] is declared outside the sources;
    it reads the completion flag of the proposal (spec 3). *)
Definition IsFinished (p : t) : bool := Finished p.

End Proposal.

Module Plan.

Import Go.

(** [types.Plan] as [confirmProposal] builds it. [CancelFn] names the
    context whose cancel function the plan holds. [Finished] and [Err] are
    the status of the embedded [ProposalStage]. *)
Record t : Type :=
  { ProposalId : string;
    NumFiles : nat;
    Files : gmap string string;
    FileErrs : gmap string error;
    FilesFinished : gmap string bool;
    CancelFn : nat;
    Finished : bool;
    Err : option error }.

Definition set_Files (v : gmap string string) (p : t) : t :=
  {| ProposalId := ProposalId p; NumFiles := NumFiles p; Files := v;
     FileErrs := FileErrs p; FilesFinished := FilesFinished p;
     CancelFn := CancelFn p; Finished := Finished p; Err := Err p |}.

Definition set_FileErrs (v : gmap string error) (p : t) : t :=
  {| ProposalId := ProposalId p; NumFiles := NumFiles p; Files := Files p;
     FileErrs := v; FilesFinished := FilesFinished p;
     CancelFn := CancelFn p; Finished := Finished p; Err := Err p |}.

Definition set_FilesFinished (v : gmap string bool) (p : t) : t :=
  {| ProposalId := ProposalId p; NumFiles := NumFiles p; Files := Files p;
     FileErrs := FileErrs p; FilesFinished := v;
     CancelFn := CancelFn p; Finished := Finished p; Err := Err p |}.

(** Modelled from the spec: [Finish] is declared outside the sources; it
    marks the terminal status (spec 4.4). *)
Definition Finish (p : t) : t :=
  {| ProposalId := ProposalId p; NumFiles := NumFiles p; Files := Files p;
     FileErrs := FileErrs p; FilesFinished := FilesFinished p;
     CancelFn := CancelFn p; Finished := true; Err := Err p |}.

(** Modelled from the spec: [SetErr] is declared outside the sources; it
    marks the terminal status with the error (spec 4.4). *)
Definition SetErr (err : error) (p : t) : t :=
  {| ProposalId := ProposalId p; NumFiles := NumFiles p; Files := Files p;
     FileErrs := FileErrs p; FilesFinished := FilesFinished p;
     CancelFn := CancelFn p; Finished := Finished p; Err := Some err |}.

(** Modelled from the spec: the plan is terminal once [Finish] or [SetErr]
    has marked it (spec 4.4). *)
Definition IsTerminal (p : t) : bool :=
  Finished p || match Err p with Some _ => true | None => false end.

(** Modelled from the spec: [DidFinish] is declared outside the sources.
    Spec 4.4: true iff every path in the expected file list has an entry in
    the finished-map. The plan holds the expected list by its length
    [NumFiles] only, and entries are made at paths of that list only, so the
    test is that the finished-map has [NumFiles] entries; on a list without
    duplicates the two agree ([DidFinish_expected] below). *)
Definition DidFinish (p : t) : bool :=
  bool_decide (size (FilesFinished p) = NumFiles p).

(** The words of the spec for [DidFinish], given the expected file list. *)
Definition all_expected_finished (expected : list string) (p : t) : Prop :=
  ∀ path, path ∈ expected → is_Some (FilesFinished p !! path).

End Plan.

Module Server.

Import Go.

Definition nl : string := String "010"%char EmptyString.
Definition tab : string := String "009"%char EmptyString.
Definition fence : string := "```".

(** *** The request of one file *)

(** [openai.ChatCompletionMessage]; [Text] is its field [Content]. *)
Record ChatCompletionMessage : Type := { Role : string; Text : string }.

Definition ChatMessageRoleSystem : string := "system".
Definition ChatMessageRoleAssistant : string := "assistant".
Definition ChatMessageRoleUser : string := "user".

(** The instruction that ends every request. *)
Definition instruction (filePath : string) : string :=
  nl ++ tab ++ tab ++ tab ++ tab ++ tab ++ tab
  ++ "Based on your previous response, call the 'write' function with "
  ++ "the full content of the file or file section "
  ++ filePath
  ++ " as raw text, including any updates. If the current state of the "
  ++ "file+section within the plan is included above, apply your "
  ++ "changes to the *current file+section*, not the original "
  ++ "file+section. If there is no current file+section, apply your "
  ++ "changes to the original file+section. You must include the entire "
  ++ "file+section and not leave anything out, even if it is already "
  ++ "present the original file+section. Do not include any "
  ++ "placeholders or references to the original file+section. Output "
  ++ "the updated entire file. Only call the 'write' function in your "
  ++ "reponse. Don't call any other function."
  ++ nl ++ tab ++ tab ++ tab ++ tab ++ tab ++ tab ++ tab.

(** The messages of the request for [filePath]: the original file when the
    request carried it, then the state of the file in the current plan, then
    the reply of the proposal and the instruction. *)
Definition fileMessages (proposal : Proposal.t) (filePath : string) : list ChatCompletionMessage :=
  let request := Proposal.Request proposal in
  let fileContext :=
    List.find (fun part => bool_decide (ModelContextPart.FilePath part = filePath))
      (PromptRequest.ModelContext request) in
  let currentState := default "" (PromptRequest.CurrentPlanFiles request !! filePath) in
  let original :=
    match fileContext with
    | Some part =>
        "Original " ++ filePath ++ ":" ++ nl ++ fence ++ nl
        ++ ModelContextPart.Body part ++ nl ++ fence
    | None => ""
    end in
  let current :=
    if decide (currentState = "") then ""
    else nl ++ "Current state of " ++ filePath ++ " in the plan:" ++ nl ++ fence ++ nl
         ++ currentState ++ nl ++ fence in
  (if bool_decide (is_Some fileContext) || bool_decide (currentState ≠ "")
   then [{| Role := ChatMessageRoleSystem; Text := original ++ current |}]
   else [])
  ++ [{| Role := ChatMessageRoleAssistant; Text := Proposal.Content proposal |};
      {| Role := ChatMessageRoleUser; Text := instruction filePath |}].

(** [openai.FunctionDefinition] with its one string parameter. *)
Record FunctionDefinition : Type :=
  { Name : string; Property : string; PropertyDescription : string; Required : list string }.

(** [openai.ChatCompletionRequest]. *)
Record ChatCompletionRequest : Type :=
  { Model : string; Functions : list FunctionDefinition; Messages : list ChatCompletionMessage }.

Definition modelReq (proposal : Proposal.t) (filePath : string) : ChatCompletionRequest :=
  {| Model := "gpt-4";
     Functions :=
       [{| Name := "write"; Property := "content";
           PropertyDescription :=
             "The full content of the file+section, including any updates "
             ++ "from the previous response, as raw text";
           Required := ["content"] |}];
     Messages := fileMessages proposal filePath |}.

(** *** The stream of one file *)

(** [openai.FunctionCall]. *)
Record FunctionCall : Type := { CallName : string; Arguments : string }.

(** [openai.ChatCompletionStreamChoice] with the function call of its
    [Delta]. *)
Record Choice : Type := { FinishReason : string; DeltaFunctionCall : option FunctionCall }.

(** [openai.ChatCompletionStreamResponse]. *)
Record Response : Type := { Choices : list Choice }.

Definition FinishReasonFunctionCall : string := "function_call".

(** What [stream.Recv()] returns. *)
Inductive Received : Type :=
| RecvErr (err : error)
| RecvOk (response : Response).

(** A call of the callback [onStream]. *)
Inductive StreamMsg : Type :=
| MsgChunk (chunk : PlanChunk.t)
| MsgFinished
| MsgErr (err : error).

(** Where the goroutine of a file is: before the stream is open, at the
    [select] of the receive loop, inside [stream.Recv()] (the [default] case
    of the [select]), between an update of the plan and the call of
    [onStream] that follows it ([continue] tells whether the loop goes on
    after the call), or returned. *)
Inductive Status : Type :=
| Starting
| Selecting
| Receiving
| Sending (msg : StreamMsg) (continue : bool)
| Stopped.

(** The goroutine of one file. [wFilePath] is its parameter [filePath];
    [wErrPath] is the value the closure [onError] finds in the variable
    [filePath] of the [for] statement, which the closure captures; [wTimer]
    is true when the timer has fired and its channel [timer.C] holds the
    time. *)
Record Worker : Type :=
  { wProposalId : string;
    wProposal : Proposal.t;
    wFilePath : string;
    wErrPath : string;
    wCtx : nat;
    wStatus : Status;
    wTimer : bool }.

Definition set_wStatus (st : Status) (w : Worker) : Worker :=
  {| wProposalId := wProposalId w; wProposal := wProposal w;
     wFilePath := wFilePath w; wErrPath := wErrPath w; wCtx := wCtx w;
     wStatus := st; wTimer := wTimer w |}.

Definition set_wTimer (fired : bool) (w : Worker) : Worker :=
  {| wProposalId := wProposalId w; wProposal := wProposal w;
     wFilePath := wFilePath w; wErrPath := wErrPath w; wCtx := wCtx w;
     wStatus := wStatus w; wTimer := fired |}.

(** The process: the two registries, the contexts made so far (true once
    cancelled), the goroutines, the calls of [onStream] in order, and the
    standard output. *)
Record Server : Type :=
  { proposals : gmap string Proposal.t;
    plans : gmap string Plan.t;
    contexts : list bool;
    workers : list Worker;
    stream : list StreamMsg;
    stdout : list string }.

Definition set_plans (v : gmap string Plan.t) (sv : Server) : Server :=
  {| proposals := proposals sv; plans := v; contexts := contexts sv;
     workers := workers sv; stream := stream sv; stdout := stdout sv |}.

Definition set_contexts (v : list bool) (sv : Server) : Server :=
  {| proposals := proposals sv; plans := plans sv; contexts := v;
     workers := workers sv; stream := stream sv; stdout := stdout sv |}.

Definition set_workers (v : list Worker) (sv : Server) : Server :=
  {| proposals := proposals sv; plans := plans sv; contexts := contexts sv;
     workers := v; stream := stream sv; stdout := stdout sv |}.

Definition set_stream (v : list StreamMsg) (sv : Server) : Server :=
  {| proposals := proposals sv; plans := plans sv; contexts := contexts sv;
     workers := workers sv; stream := v; stdout := stdout sv |}.

Definition set_stdout (v : list string) (sv : Server) : Server :=
  {| proposals := proposals sv; plans := plans sv; contexts := contexts sv;
     workers := workers sv; stream := stream sv; stdout := v |}.

Definition print (line : string) (sv : Server) : Server :=
  set_stdout (stdout sv ++ [line]) sv.

(** How the variable of a [for] ... [range] statement is shared: one
    variable per iteration (Go 1.22 and later), or one variable for the whole
    statement (before), which holds the last element once the statement has
    ended. *)
Inductive LoopVar : Type :=
| PerIteration
| PerLoop.

(** What is declared outside the sources: the environment variable [GOENV],
    the marker [shared.STREAM_FINISHED], the test double
    [streamFilesLoremIpsum], and the language version. *)
Record Env : Type :=
  { GOENV : string;
    STREAM_FINISHED : string;
    streamFilesLoremIpsum : Server → Server;
    loopvar : LoopVar }.

(** The two arguments [onStream] is called with. *)
Definition wire (E : Env) (msg : StreamMsg) : string * option error :=
  match msg with
  | MsgChunk chunk => (Json.Marshal chunk, None)
  | MsgFinished => (STREAM_FINISHED E, None)
  | MsgErr err => ("", Some err)
  end.

(** A mutation as [plans.Update] applies it. Modelled from the spec: once
    the plan is terminal, further mutations are rejected, and the plan stays
    as it is (spec 4.4). *)
Definition guarded (f : Plan.t → Plan.t) (p : Plan.t) : Plan.t :=
  if Plan.IsTerminal p then p else f p.

(** Modelled from the spec: [plans.Update] is declared outside the sources;
    it applies the mutation to the plan of the proposal under an exclusive
    lock and returns, unless the plan is terminal (spec 4.4). The callers in
    the sources take no result from it. *)
Definition Update (proposalId : string) (f : Plan.t → Plan.t) (sv : Server) : Server :=
  set_plans (alter (guarded f) proposalId (plans sv)) sv.

(** The mutation of the closure [onError]:
    [p.FileErrs[filePath] = err; p.SetErr(err)]. *)
Definition record_error (w : Worker) (err : error) (p : Plan.t) : Plan.t :=
  Plan.SetErr err (Plan.set_FileErrs (<[wErrPath w := err]> (Plan.FileErrs p)) p).

(** The closure [onError] up to its call of [onStream], which the goroutine
    makes next. *)
Definition onError (w : Worker) (err : error) (sv : Server) : Server * Status :=
  let sv1 := print ("Error for file " ++ wErrPath w ++ ": " ++ err ++ nl) sv in
  let sv2 := Update (wProposalId w) (record_error w err) sv1 in
  (sv2, Sending (MsgErr err) false).

(** [p.Files[filePath] += content]. *)
Definition append_content (filePath content : string) (p : Plan.t) : Plan.t :=
  Plan.set_Files
    (<[filePath := default "" (Plan.Files p !! filePath) ++ content]> (Plan.Files p)) p.

(** The mutation of a finished file. *)
Definition mark_finished (filePath : string) (p : Plan.t) : Plan.t :=
  let p1 := Plan.set_FilesFinished (<[filePath := true]> (Plan.FilesFinished p)) p in
  if Plan.DidFinish p1 then Plan.Finish p1 else p1.

(** The local variable [finished] after that mutation: whether the plan the
    mutation found has finished with this file. [plans.Update] on a missing
    plan, or on a terminal plan, does not run the mutation, and [finished]
    stays false. *)
Definition did_finish_with (filePath : string) (plans : gmap string Plan.t)
    (proposalId : string) : bool :=
  match plans !! proposalId with
  | Some p =>
      negb (Plan.IsTerminal p)
      && Plan.DidFinish
           (Plan.set_FilesFinished (<[filePath := true]> (Plan.FilesFinished p)) p)
  | None => false
  end.

(** One round of the receive loop after [stream.Recv()] returned;
    [json.Marshal] of a chunk does not fail. After a response that is
    skipped the loop is at its [select] again. *)
Definition received (w : Worker) (r : Received) (sv : Server) : Server * Status :=
  match r with
  | RecvErr err => onError w ("Stream error: " ++ err) sv
  | RecvOk response =>
      match Choices response with
      | [] => onError w "Stream error: no choices" sv
      | choice :: _ =>
          if decide (FinishReason choice = "") then
            match DeltaFunctionCall choice with
            | None =>
                (print (nl ++ "Stream received data not for 'write' function call") sv,
                 Selecting)
            | Some call =>
                let content := Arguments call in
                (Update (wProposalId w) (append_content (wFilePath w) content) sv,
                 Sending
                   (MsgChunk {| PlanChunk.Path := wFilePath w;
                                PlanChunk.Content := content |})
                   true)
            end
          else if decide (FinishReason choice = FinishReasonFunctionCall) then
            let finished := did_finish_with (wFilePath w) (plans sv) (wProposalId w) in
            let sv1 := Update (wProposalId w) (mark_finished (wFilePath w)) sv in
            if finished then (print ("Stream finished" ++ nl) sv1, Sending MsgFinished false)
            else (sv1, Stopped)
          else
            onError w
              ("Stream finished without 'write' function call. Reason: "
               ++ FinishReason choice)
              sv
      end
  end.

(** The cases of the [select] of the receive loop. *)
Inductive Case : Type :=
| CaseDone
| CaseTimer
| CaseDefault.

(** What happens to a goroutine. [CreateStream] is the result of
    [CreateChatCompletionStream]; [Expire] is the timer firing; [Select] is
    the [select] of the receive loop taking a case; [Recv] is the return of
    [stream.Recv()], which the [default] case called; [Send] is the pending
    call of [onStream]. *)
Inductive Event : Type :=
| CreateStream (err : option error)
| Expire
| Select (c : Case)
| Recv (r : Received)
| Send.

(** The goroutine from its start to the opening of the stream. *)
Definition starting (w : Worker) (err : option error) (sv : Server) : Server * Status :=
  let filePath := wFilePath w in
  let sv1 := print ("Getting file from model: " ++ filePath ++ nl) sv in
  let sv2 := print ("Calling model for file: " ++ filePath ++ nl) sv1 in
  let sv3 :=
    foldl (fun acc msg => print (Role msg ++ ": " ++ Text msg ++ nl) acc) sv2
      (Messages (modelReq (wProposal w) filePath)) in
  match err with
  | Some e =>
      onError w e
        (print ("Error creating plan file stream for path " ++ filePath ++ ": "
                ++ e ++ nl) sv3)
  | None => (sv3, Selecting)
  end.

(** [ctx.Done()] is ready once the context is cancelled. *)
Definition cancelled (w : Worker) (sv : Server) : bool :=
  bool_decide (contexts sv !! wCtx w = Some true).

(** The step of a goroutine at an event, [None] when the goroutine is not
    at a place where the event can happen. The [select] takes a case that is
    ready: [ctx.Done()] once the context is cancelled, [timer.C] once the
    timer has fired, and [default] when neither is. The timer fires once,
    while the goroutine is in the loop. *)
Definition worker_step (ev : Event) (w : Worker) (sv : Server) : option (Server * Status) :=
  match wStatus w, ev with
  | Starting, CreateStream err => Some (starting w err sv)
  | Selecting, Select CaseDone =>
      if cancelled w sv then Some (sv, Stopped) else None
  | Selecting, Select CaseTimer =>
      if wTimer w then Some (onError w "stream timeout due to inactivity" sv) else None
  | Selecting, Select CaseDefault =>
      if cancelled w sv || wTimer w then None else Some (sv, Receiving)
  | Receiving, Recv r => Some (received w r sv)
  | Sending msg continue, Send =>
      Some (set_stream (stream sv ++ [msg]) sv, if continue then Selecting else Stopped)
  | Selecting, Expire | Receiving, Expire | Sending _ _, Expire =>
      if wTimer w then None else Some (sv, wStatus w)
  | _, _ => None
  end.

(** The channel of the timer after the event: the timer is made when the
    loop starts; firing puts the time in the channel; the [select] that takes
    the timer case takes the time out; and after a [Recv] without error the
    goroutine stops the timer, empties the channel if the timer had fired,
    and resets the timer. *)
Definition timer_after (ev : Event) (w : Worker) : bool :=
  match ev with
  | CreateStream _ => false
  | Expire => true
  | Select CaseTimer => false
  | Recv (RecvOk _) => false
  | _ => wTimer w
  end.

(** A step of the process: an event at the goroutine [w], or the
    cancellation of a context. *)
Inductive Action : Type :=
| At (w : nat) (ev : Event)
| Cancel (ctx : nat).

Definition step (a : Action) (sv : Server) : option Server :=
  match a with
  | At i ev =>
      w ← workers sv !! i;
      '(sv', st) ← worker_step ev w sv;
      Some (set_workers
              (<[i := set_wTimer (timer_after ev w) (set_wStatus st w)]> (workers sv'))
              sv')
  | Cancel ctx =>
      if decide (ctx < length (contexts sv)) then
        Some (set_contexts (<[ctx := true]> (contexts sv)) sv)
      else None
  end.

Fixpoint run (trace : list Action) (sv : Server) : option Server :=
  match trace with
  | [] => Some sv
  | a :: rest => sv' ← step a sv; run rest sv'
  end.

(** *** [confirmProposal] *)

(** The value [onError] finds in the loop variable. *)
Definition captured (lv : LoopVar) (files : list string) (filePath : string) : string :=
  match lv with
  | PerIteration => filePath
  | PerLoop => List.last files filePath
  end.

Definition spawn (E : Env) (proposalId : string) (proposal : Proposal.t) (ctx : nat)
    (filePath : string) : Worker :=
  {| wProposalId := proposalId; wProposal := proposal; wFilePath := filePath;
     wErrPath :=
       captured (loopvar E) (PlanDescription.Files (Proposal.Description proposal)) filePath;
     wCtx := ctx; wStatus := Starting; wTimer := false |}.

(** [confirmProposal]: the error it returns and the process it leaves. The
    registries [proposals] and [plans] are declared outside the sources;
    [Get] is the lookup, [Set] the insertion. *)
Definition confirmProposal (E : Env) (proposalId : string) (sv : Server) : option error * Server :=
  if decide (GOENV E = "test") then (None, streamFilesLoremIpsum E sv)
  else
    match proposals sv !! proposalId with
    | None => (Some "proposal not found", sv)
    | Some proposal =>
        if negb (Proposal.IsFinished proposal) then (Some "proposal not finished", sv)
        else
          let ctx := length (contexts sv) in
          let files := PlanDescription.Files (Proposal.Description proposal) in
          let plan :=
            {| Plan.ProposalId := proposalId;
               Plan.NumFiles := length files;
               Plan.Files := ∅;
               Plan.FileErrs := ∅;
               Plan.FilesFinished := ∅;
               Plan.CancelFn := ctx;
               Plan.Finished := false;
               Plan.Err := None |} in
          (None,
           {| proposals := proposals sv;
              plans := <[proposalId := plan]> (plans sv);
              contexts := contexts sv ++ [false];
              workers := workers sv ++ map (spawn E proposalId proposal ctx) files;
              stream := stream sv;
              stdout := stdout sv |})
    end.

(** *** Contents sent and pending, failures *)

(** The content put on the stream for [path]: the contents of its chunks,
    in the order of the calls of [onStream]. *)
Fixpoint sent (path : string) (msgs : list StreamMsg) : string :=
  match msgs with
  | [] => ""
  | MsgChunk chunk :: rest =>
      if decide (PlanChunk.Path chunk = path)
      then PlanChunk.Content chunk ++ sent path rest
      else sent path rest
  | _ :: rest => sent path rest
  end.

(** The content a goroutine has added to the plan and not yet put on the
    stream. *)
Definition unsent (w : Worker) : string :=
  match wStatus w with
  | Sending (MsgChunk chunk) _ => PlanChunk.Content chunk
  | _ => ""
  end.

(** The same for the goroutine of [path]. *)
Definition pending (path : string) (ws : list Worker) : string :=
  match List.find (fun w => bool_decide (wFilePath w = path)) ws with
  | Some w => unsent w
  | None => ""
  end.

(** The events at which a goroutine calls [onError], with the error. *)
Definition failure (w : Worker) (ev : Event) : option error :=
  match wStatus w, ev with
  | Starting, CreateStream (Some err) => Some err
  | Selecting, Select CaseTimer =>
      if wTimer w then Some "stream timeout due to inactivity" else None
  | Receiving, Recv (RecvErr err) => Some ("Stream error: " ++ err)
  | Receiving, Recv (RecvOk response) =>
      match Choices response with
      | [] => Some "Stream error: no choices"
      | choice :: _ =>
          if decide (FinishReason choice = "") then None
          else if decide (FinishReason choice = FinishReasonFunctionCall) then None
          else Some ("Stream finished without 'write' function call. Reason: "
                     ++ FinishReason choice)
      end
  | _, _ => None
  end.

(** Every expected path has finished or is in error. *)
Definition finished_or_errored (expected : list string) (p : Plan.t) : Prop :=
  ∀ path, path ∈ expected →
    is_Some (Plan.FilesFinished p !! path) ∨ is_Some (Plan.FileErrs p !! path).

(** *** The invariant of the contents *)

(** The ways a step of a goroutine bears on contents and stream. *)
Inductive Bearing (w : Worker) (sv sv' : Server) (st : Status) : Prop :=
| Accepts (content : string) :
    wStatus w = Receiving →
    st = Sending (MsgChunk {| PlanChunk.Path := wFilePath w;
                              PlanChunk.Content := content |}) true →
    stream sv' = stream sv →
    plans sv'
    = alter (guarded (append_content (wFilePath w) content)) (wProposalId w) (plans sv) →
    Bearing w sv sv' st
| Sends (msg : StreamMsg) (continue : bool) :
    wStatus w = Sending msg continue →
    st = (if continue then Selecting else Stopped) →
    stream sv' = (stream sv ++ [msg])%list →
    plans sv' = plans sv →
    Bearing w sv sv' st
| Neither (f : Plan.t → Plan.t) :
    unsent w = "" → (∀ c k, st ≠ Sending (MsgChunk c) k) →
    (∀ p, Plan.Files (f p) = Plan.Files p) →
    (∀ p, Plan.Err (f p) = None → Plan.Err p = None) →
    stream sv' = stream sv →
    plans sv' = alter f (wProposalId w) (plans sv) →
    Bearing w sv sv' st
| Stays :
    st = wStatus w → stream sv' = stream sv → plans sv' = plans sv →
    Bearing w sv sv' st.

(** The invariant of a process that runs the goroutines of one confirmed
    proposal [pid]: its plan is registered, the goroutines are those of
    distinct files of the proposal, a chunk about to be sent bears the path
    of its goroutine, a plan marked finished has its finished map complete,
    and the content of every path is the beginning of what was sent for it
    followed by what its goroutine is about to send, and all of it as long
    as the plan holds no error. *)
Record Coherent (pid : string) (sv : Server) : Prop :=
  { coh_plan : is_Some (plans sv !! pid);
    coh_ids : Forall (fun w => wProposalId w = pid) (workers sv);
    coh_chunks :
      Forall (fun w => ∀ c k, wStatus w = Sending (MsgChunk c) k →
                              PlanChunk.Path c = wFilePath w) (workers sv);
    coh_paths : NoDup (wFilePath <$> workers sv);
    coh_whole : ∀ plan,
      plans sv !! pid = Some plan → Plan.Finished plan = true →
      size (Plan.FilesFinished plan) = Plan.NumFiles plan;
    coh_content : ∀ plan path,
      plans sv !! pid = Some plan → Plan.Err plan = None →
      default "" (Plan.Files plan !! path)
      = (sent path (stream sv) ++ pending path (workers sv))%string;
    coh_prefix : ∀ plan path,
      plans sv !! pid = Some plan →
      ∃ more, (sent path (stream sv) ++ pending path (workers sv))%string
              = (default "" (Plan.Files plan !! path) ++ more)%string }.

End Server.

(** ** Sessions of the client *)

Module Session.

Import Go Client.

(** A chunk of the reply: no error, and the state machine is replying or
    revising. *)
Definition reply_chunk (p : OnStreamPlanParams) : Prop :=
  Err p = None ∧ (State p = STATE_REPLYING ∨ State p = STATE_REVISING).

(** The contents of a sequence of chunks, in the order of the calls. *)
Fixpoint contents (ps : list OnStreamPlanParams) : string :=
  match ps with
  | [] => ""
  | p :: rest => Content p ++ contents rest
  end.

(** The variables [s'] are those of [s] later in the session: the proposal
    id, once received, is the same; the flags that were set are set; the
    reply and the standard error have grown at their ends. *)
Record Later (s s' : Propose) : Prop :=
  { later_proposalId : proposalId s ≠ "" → proposalId s' = proposalId s;
    later_replyStarted : replyStarted s = true → replyStarted s' = true;
    later_endedReply : endedReply s = true → endedReply s' = true;
    later_streamFinished : streamFinished s = true → streamFinished s' = true;
    later_filesFinished : filesFinished s = true → filesFinished s' = true;
    later_done : done s = true → done s' = true;
    later_keywatchCancelled : keywatchCancelled s = true → keywatchCancelled s' = true;
    later_reply : ∃ more, reply s' = reply s ++ more;
    later_stderr : ∃ more, stderr s' = (stderr s ++ more)%list }.

End Session.

(** ** The client: the key watcher and the loop of [Propose] *)

Module Keys.

Import Go.

(** [Propose] ends with a goroutine that watches the keyboard and a loop
    that waits for a key, for the close of [done], or for an error of the
    watcher. The two talk through [keyChan] and [errChn], both of capacity
    1, and through the context that [cancelKeywatch] cancels. *)

(** Where the watcher is: at the [select] of its loop, inside
    [getUserInput()], at the send [keyChan <- &key{k}], at the send
    [errChn <- err], or returned. *)
Inductive Watcher : Type :=
| AtSelect
| InGetUserInput
| SendingKey (k : Z)
| SendingErr (err : error)
| Returned.

(** The channels, the context, the watcher and the loop. [result] is what
    [Propose] has returned, once it has. [read] lists the keys
    [getUserInput] has returned and [handled] the keys passed to
    [handleKeyPress], both in order. *)
Record t : Type :=
  { keyChan : list Z;
    errChn : list error;
    ctxDone : bool;
    done : bool;
    watcher : Watcher;
    result : option (option error);
    read : list Z;
    handled : list Z }.

Definition set_keyChan (v : list Z) (s : t) : t :=
  {| keyChan := v; errChn := errChn s; ctxDone := ctxDone s; done := done s;
     watcher := watcher s; result := result s; read := read s; handled := handled s |}.

Definition set_errChn (v : list error) (s : t) : t :=
  {| keyChan := keyChan s; errChn := v; ctxDone := ctxDone s; done := done s;
     watcher := watcher s; result := result s; read := read s; handled := handled s |}.

Definition set_ctxDone (v : bool) (s : t) : t :=
  {| keyChan := keyChan s; errChn := errChn s; ctxDone := v; done := done s;
     watcher := watcher s; result := result s; read := read s; handled := handled s |}.

Definition set_done (v : bool) (s : t) : t :=
  {| keyChan := keyChan s; errChn := errChn s; ctxDone := ctxDone s; done := v;
     watcher := watcher s; result := result s; read := read s; handled := handled s |}.

Definition set_watcher (v : Watcher) (s : t) : t :=
  {| keyChan := keyChan s; errChn := errChn s; ctxDone := ctxDone s; done := done s;
     watcher := v; result := result s; read := read s; handled := handled s |}.

Definition set_result (v : option (option error)) (s : t) : t :=
  {| keyChan := keyChan s; errChn := errChn s; ctxDone := ctxDone s; done := done s;
     watcher := watcher s; result := v; read := read s; handled := handled s |}.

Definition set_read (v : list Z) (s : t) : t :=
  {| keyChan := keyChan s; errChn := errChn s; ctxDone := ctxDone s; done := done s;
     watcher := watcher s; result := result s; read := v; handled := handled s |}.

Definition set_handled (v : list Z) (s : t) : t :=
  {| keyChan := keyChan s; errChn := errChn s; ctxDone := ctxDone s; done := done s;
     watcher := watcher s; result := result s; read := read s; handled := v |}.

(** When the watcher starts and the loop is entered: the channels are
    empty. The stream handler may have cancelled the context or closed
    [done] before. *)
Definition start (cancelled closed : bool) : t :=
  {| keyChan := []; errChn := []; ctxDone := cancelled; done := closed;
     watcher := AtSelect; result := None; read := []; handled := [] |}.

(** What happens: the [select] of the watcher takes a case; [getUserInput]
    returns; a send of the watcher completes; the [select] of the loop takes
    the case of a key (with what [handleKey] returns), of [done], or of an
    error; and, from the stream handler, [cancelKeywatch()] and
    [close(done)]. *)
Inductive Event : Type :=
| WatcherSelect
| GetUserInput (k : Z) (err : option error)
| SendKey
| SendErr
| CaseKey (err : option error)
| CaseDone
| CaseErr
| CancelKeywatch
| CloseDone.

(** The step at an event, [None] where the event cannot happen: a send
    needs room in its channel, a receive needs an element, the case of
    [done] needs the channel closed, and the loop takes no case once
    [Propose] has returned. The [select] of the watcher takes the case
    [ctx.Done()] when the context is cancelled, and [default] otherwise. *)
Definition step (ev : Event) (s : t) : option t :=
  match ev with
  | WatcherSelect =>
      match watcher s with
      | AtSelect => Some (set_watcher (if ctxDone s then Returned else InGetUserInput) s)
      | _ => None
      end
  | GetUserInput k err =>
      match watcher s with
      | InGetUserInput =>
          match err with
          | Some e => Some (set_watcher (SendingErr e) s)
          | None => Some (set_read (read s ++ [k]) (set_watcher (SendingKey k) s))
          end
      | _ => None
      end
  | SendKey =>
      match watcher s with
      | SendingKey k =>
          if decide (length (keyChan s) < 1)
          then Some (set_keyChan (keyChan s ++ [k]) (set_watcher AtSelect s))
          else None
      | _ => None
      end
  | SendErr =>
      match watcher s with
      | SendingErr e =>
          if decide (length (errChn s) < 1)
          then Some (set_errChn (errChn s ++ [e]) (set_watcher Returned s))
          else None
      | _ => None
      end
  | CaseKey err =>
      match result s, keyChan s with
      | None, k :: rest =>
          let s1 := set_handled (handled s ++ [k]) (set_keyChan rest s) in
          match err with
          | Some e => Some (set_result (Some (Some e)) (set_ctxDone true s1))
          | None => Some s1
          end
      | _, _ => None
      end
  | CaseDone =>
      match result s with
      | None =>
          if done s then Some (set_result (Some None) (set_ctxDone true s)) else None
      | Some _ => None
      end
  | CaseErr =>
      match result s, errChn s with
      | None, e :: rest =>
          Some (set_result (Some (Some e)) (set_ctxDone true (set_errChn rest s)))
      | _, _ => None
      end
  | CancelKeywatch => Some (set_ctxDone true s)
  | CloseDone => if done s then None else Some (set_done true s)
  end.

Fixpoint run (trace : list Event) (s : t) : option t :=
  match trace with
  | [] => Some s
  | ev :: rest => s' ← step ev s; run rest s'
  end.

(** The key the watcher holds and has not yet put in [keyChan]. *)
Definition in_flight (s : t) : list Z :=
  match watcher s with
  | SendingKey k => [k]
  | _ => []
  end.

(** The error that [getUserInput] or [handleKeyPress] returns at an
    event. *)
Definition raised (ev : Event) : option error :=
  match ev with
  | GetUserInput _ (Some e) => Some e
  | CaseKey (Some e) => Some e
  | _ => None
  end.

(** The keys [getUserInput] may still return to a watcher whose context is
    cancelled: one when the watcher is inside [getUserInput], none
    otherwise. *)
Definition reads_left (s : t) : nat :=
  match watcher s with
  | InGetUserInput => 1
  | _ => 0
  end.

End Keys.

(** ** The server: what the goroutines leave behind *)

Module Outcome.

Import Go Server.

(** The calls of [onStream] after which a goroutine returns: those that
    pass an error or the marker [shared.STREAM_FINISHED]. *)
Definition terminal (msg : StreamMsg) : bool :=
  match msg with
  | MsgChunk _ => false
  | MsgFinished | MsgErr _ => true
  end.

(** The goroutine has returned. *)
Definition returned (w : Worker) : bool :=
  match wStatus w with
  | Stopped => true
  | _ => false
  end.

(** A pending call of [onStream] is followed by another round of the loop
    exactly when it passes a chunk. *)
Definition Orderly (sv : Server) : Prop :=
  Forall (fun w => ∀ msg continue, wStatus w = Sending msg continue →
                                   continue = negb (terminal msg))
    (workers sv).

(** The plan of the proposal [pid] and its goroutines stay within the files
    of the description: the plan is registered with the number of files it
    was made with, its three maps have entries at paths of the description
    only, and every goroutine is one of the proposal, for a file of the
    description, with a closure [onError] that reads a path of the
    description. *)
Record Within (pid : string) (files : list string) (sv : Server) : Prop :=
  { within_plan : ∃ plan, plans sv !! pid = Some plan;
    within_maps : ∀ plan, plans sv !! pid = Some plan →
      Plan.ProposalId plan = pid ∧ Plan.NumFiles plan = length files ∧
      (∀ path, is_Some (Plan.Files plan !! path) → path ∈ files) ∧
      (∀ path, is_Some (Plan.FilesFinished plan !! path) → path ∈ files) ∧
      (∀ path, is_Some (Plan.FileErrs plan !! path) → path ∈ files);
    within_workers :
      Forall (fun w => wProposalId w = pid ∧ wFilePath w ∈ files ∧ wErrPath w ∈ files)
        (workers sv) }.

(** What the goroutine [w] does to the plan through [plans.Update]:
    nothing, the append of a content to its file, the mark of its file as
    finished, and the record of an error by its closure [onError], each as
    [plans.Update] applies it. *)
Inductive Mutation (w : Worker) : (Plan.t → Plan.t) → Prop :=
| MutNone : Mutation w id
| MutAppend (content : string) :
    Mutation w (guarded (append_content (wFilePath w) content))
| MutFinished : Mutation w (guarded (mark_finished (wFilePath w)))
| MutError (err : error) : Mutation w (guarded (record_error w err)).

(** *** The marker [shared.STREAM_FINISHED] *)

Definition is_marker (msg : StreamMsg) : bool :=
  match msg with
  | MsgFinished => true
  | _ => false
  end.

(** The goroutine is about to pass the marker to [onStream]. *)
Definition sends_marker (w : Worker) : bool :=
  match wStatus w with
  | Sending MsgFinished _ => true
  | _ => false
  end.

(** The markers passed to [onStream] and about to be passed. *)
Definition markers (sv : Server) : nat :=
  length (List.filter is_marker (stream sv))
  + length (List.filter sends_marker (workers sv)).

(** The goroutine is in its loop or before it, and no call of [onStream]
    is pending. *)
Definition working (w : Worker) : Prop :=
  wStatus w = Starting ∨ wStatus w = Selecting ∨ wStatus w = Receiving.

(** The turns a goroutine takes, by what they do to the stream and to the
    finished map: the timer fires; the pending call of [onStream] is made;
    the call of the model ends with the function call and the file is marked
    finished; the goroutine fails; or it works on, leaving the finished map
    alone. *)
Inductive Turn (w : Worker) (sv sv' : Server) (st : Status) : Prop :=
| TurnStays :
    st = wStatus w → stream sv' = stream sv → plans sv' = plans sv →
    Turn w sv sv' st
| TurnSends (msg : StreamMsg) (continue : bool) :
    wStatus w = Sending msg continue →
    st = (if continue then Selecting else Stopped) →
    stream sv' = (stream sv ++ [msg])%list → plans sv' = plans sv →
    Turn w sv sv' st
| TurnFinishes :
    wStatus w = Receiving →
    st = (if did_finish_with (wFilePath w) (plans sv) (wProposalId w)
          then Sending MsgFinished false else Stopped) →
    stream sv' = stream sv →
    plans sv' = alter (guarded (mark_finished (wFilePath w))) (wProposalId w) (plans sv) →
    Turn w sv sv' st
| TurnFails (err : error) :
    working w → st = Sending (MsgErr err) false →
    stream sv' = stream sv →
    plans sv' = alter (guarded (record_error w err)) (wProposalId w) (plans sv) →
    Turn w sv sv' st
| TurnWorks (f : Plan.t → Plan.t) :
    working w →
    (∀ p, Plan.FilesFinished (f p) = Plan.FilesFinished p) →
    (st = Selecting ∨ st = Receiving ∨ st = Stopped ∨
     ∃ chunk, st = Sending (MsgChunk chunk) true) →
    stream sv' = stream sv →
    plans sv' = alter f (wProposalId w) (plans sv) →
    Turn w sv sv' st.

(** The invariant of a process that runs the goroutines of one confirmed
    proposal [pid] with the distinct files [files]: the plan stays within
    the files; there is one goroutine per file; the goroutine of a file
    marked finished has returned or is about to pass the marker; while a
    marker is passed or about to be, the finished map has an entry for every
    file; there is one marker at most; a goroutine about to pass an error
    returns after it and its file is not marked finished; and when an error
    has been passed, some goroutine has returned whose file is not marked
    finished. *)
Record Settled (pid : string) (files : list string) (sv : Server) : Prop :=
  { settled_within : Within pid files sv;
    settled_paths : wFilePath <$> workers sv = files;
    settled_finished : ∀ plan i w,
      plans sv !! pid = Some plan → workers sv !! i = Some w →
      is_Some (Plan.FilesFinished plan !! wFilePath w) →
      wStatus w = Stopped ∨ wStatus w = Sending MsgFinished false;
    settled_marker : ∀ plan,
      plans sv !! pid = Some plan → (0 < markers sv)%nat →
      size (Plan.FilesFinished plan) = length files;
    settled_once : (markers sv ≤ 1)%nat;
    settled_failing : ∀ plan i w err continue,
      plans sv !! pid = Some plan → workers sv !! i = Some w →
      wStatus w = Sending (MsgErr err) continue →
      continue = false ∧ Plan.FilesFinished plan !! wFilePath w = None;
    settled_failed : ∀ plan err,
      plans sv !! pid = Some plan → MsgErr err ∈ stream sv →
      ∃ i w, workers sv !! i = Some w ∧ wStatus w = Stopped ∧
             Plan.FilesFinished plan !! wFilePath w = None }.

End Outcome.

(** ** Example environments

    Instances of the collaborators, to run the definitions on. *)

Module Examples.

Import Go.

(** A client whose description payload is one of three words and whose file
    chunks each carry a whole file, named by the chunk. *)
Definition client_env : Client.Env :=
  {| Client.STREAM_DESCRIPTION_PHASE := "@@DESCRIPTION@@";
     Client.STREAM_BUILD_PHASE := "@@BUILD@@";
     Client.json_Unmarshal := fun payload prev =>
       if decide (payload = "truncated") then (Some "unexpected end of JSON input", prev)
       else if decide (payload = "no plan") then
         (None, Some {| PlanDescription.MadePlan := false; PlanDescription.Files := [] |})
       else
         (None, Some {| PlanDescription.MadePlan := true;
                        PlanDescription.Files := ["a.txt"; "b.txt"] |});
     Client.savePlanState := fun _ => Client.SaveOk;
     Client.receiveFileChunk := fun content cs =>
       (true, None,
        {| Client.JsonBuffers := Client.JsonBuffers cs;
           Client.NumStreamedTokensByPath := Client.NumStreamedTokensByPath cs;
           Client.FinishedByPath := <[content := true]> (Client.FinishedByPath cs) |});
     Client.writeFilesFromSections := fun _ => None |}.

Definition chunk (st : Phase) (content : string) : Client.OnStreamPlanParams :=
  {| Client.State := st; Client.Err := None; Client.Content := content |}.

(** The client after the proposal id and a description of one file. *)
Definition client_described : Client.Propose :=
  Client.set_proposalId "p1"
    (Client.set_desc
       (Some {| PlanDescription.MadePlan := true; PlanDescription.Files := ["a.txt"] |})
       Client.initial).

(** A server in production mode, and one in test mode whose test double
    sends one canned chunk and the marker. *)
Definition lorem (sv : Server.Server) : Server.Server :=
  Server.set_stream
    (Server.stream sv
     ++ [Server.MsgChunk {| PlanChunk.Path := "lorem.txt"; PlanChunk.Content := "Lorem ipsum" |};
         Server.MsgFinished])
    sv.

Definition server_env : Server.Env :=
  {| Server.GOENV := "";
     Server.STREAM_FINISHED := "@@FINISHED@@";
     Server.streamFilesLoremIpsum := lorem;
     Server.loopvar := Server.PerIteration |}.

Definition test_env : Server.Env :=
  {| Server.GOENV := "test";
     Server.STREAM_FINISHED := "@@FINISHED@@";
     Server.streamFilesLoremIpsum := lorem;
     Server.loopvar := Server.PerIteration |}.

Definition old_env : Server.Env :=
  {| Server.GOENV := "";
     Server.STREAM_FINISHED := "@@FINISHED@@";
     Server.streamFilesLoremIpsum := lorem;
     Server.loopvar := Server.PerLoop |}.

(** A finished proposal of two files, and one still under way. *)
Definition two_files : Proposal.t :=
  {| Proposal.Content := "I will write a.txt and b.txt.";
     Proposal.Request :=
       {| PromptRequest.ModelContext := []; PromptRequest.CurrentPlanFiles := ∅ |};
     Proposal.Description :=
       {| PlanDescription.MadePlan := true; PlanDescription.Files := ["a.txt"; "b.txt"] |};
     Proposal.Finished := true |}.

Definition under_way : Proposal.t :=
  {| Proposal.Content := "I will";
     Proposal.Request :=
       {| PromptRequest.ModelContext := []; PromptRequest.CurrentPlanFiles := ∅ |};
     Proposal.Description :=
       {| PlanDescription.MadePlan := false; PlanDescription.Files := [] |};
     Proposal.Finished := false |}.

(** A process that holds the two proposals and has confirmed none. *)
Definition server0 : Server.Server :=
  {| Server.proposals := <["p1" := two_files]> (<["p2" := under_way]> ∅);
     Server.plans := ∅;
     Server.contexts := [];
     Server.workers := [];
     Server.stream := [];
     Server.stdout := [] |}.

(** The process after [confirmProposal] of the finished proposal. *)
Definition server1 : Server.Server := (Server.confirmProposal server_env "p1" server0).2.

(** Responses of the model: a delta of the [write] call, a delta without
    function call, and the end of the call. *)
Definition delta (content : string) : Server.Received :=
  Server.RecvOk
    {| Server.Choices :=
         [{| Server.FinishReason := "";
             Server.DeltaFunctionCall :=
               Some {| Server.CallName := "write"; Server.Arguments := content |} |}] |}.


Definition call_ended : Server.Received :=
  Server.RecvOk
    {| Server.Choices :=
         [{| Server.FinishReason := Server.FinishReasonFunctionCall;
             Server.DeltaFunctionCall := None |}] |}.

(** The scenario of the spec (8): [a.txt] receives two chunks and the end of
    its call, [b.txt] times out. *)
Definition partial_trace : list Server.Action :=
  [Server.At 0 (Server.CreateStream None);
   Server.At 1 (Server.CreateStream None);
   Server.At 0 (Server.Select Server.CaseDefault);
   Server.At 0 (Server.Recv (delta "package "));
   Server.At 0 Server.Send;
   Server.At 0 (Server.Select Server.CaseDefault);
   Server.At 0 (Server.Recv (delta "main"));
   Server.At 0 Server.Send;
   Server.At 0 (Server.Select Server.CaseDefault);
   Server.At 0 (Server.Recv call_ended);
   Server.At 1 Server.Expire;
   Server.At 1 (Server.Select Server.CaseTimer);
   Server.At 1 Server.Send].

(** The process once both streams are open and the goroutine of [b.txt]
    waits in [stream.Recv()], that goroutine, and the plan as registered. *)
Definition server2 : Server.Server :=
  default server1
    (Server.run [Server.At 0 (Server.CreateStream None);
                 Server.At 1 (Server.CreateStream None);
                 Server.At 1 (Server.Select Server.CaseDefault)] server1).

Definition worker_b : Server.Worker :=
  Server.set_wStatus Server.Receiving (Server.spawn server_env "p1" two_files 0 "b.txt").

(** The same process when the timer of [b.txt] fired after the goroutine had
    handled a chunk and before its next [select]. *)
Definition server3 : Server.Server :=
  default server1
    (Server.run [Server.At 1 (Server.Recv (delta "x"));
                 Server.At 1 Server.Expire;
                 Server.At 1 Server.Send] server2).

Definition worker_b_late : Server.Worker :=
  Server.set_wTimer true
    (Server.set_wStatus Server.Selecting (Server.spawn server_env "p1" two_files 0 "b.txt")).

Definition plan_x : Plan.t :=
  {| Plan.ProposalId := "p1"; Plan.NumFiles := 2; Plan.Files := <["b.txt" := "x"]> ∅;
     Plan.FileErrs := ∅; Plan.FilesFinished := ∅; Plan.CancelFn := 0;
     Plan.Finished := false; Plan.Err := None |}.

Definition plan_fresh : Plan.t :=
  {| Plan.ProposalId := "p1"; Plan.NumFiles := 2; Plan.Files := ∅;
     Plan.FileErrs := ∅; Plan.FilesFinished := ∅; Plan.CancelFn := 0;
     Plan.Finished := false; Plan.Err := None |}.

(** The chunks a, b, c for [a.txt], with a chunk for [b.txt] in between. *)
Definition abc_trace : list Server.Action :=
  [Server.At 0 (Server.CreateStream None);
   Server.At 1 (Server.CreateStream None);
   Server.At 0 (Server.Select Server.CaseDefault);
   Server.At 1 (Server.Select Server.CaseDefault);
   Server.At 0 (Server.Recv (delta "a"));
   Server.At 1 (Server.Recv (delta "x"));
   Server.At 0 Server.Send;
   Server.At 0 (Server.Select Server.CaseDefault);
   Server.At 0 (Server.Recv (delta "b"));
   Server.At 1 Server.Send;
   Server.At 0 Server.Send;
   Server.At 0 (Server.Select Server.CaseDefault);
   Server.At 0 (Server.Recv (delta "c"));
   Server.At 0 Server.Send].

(** The chunk of the spec (8). *)
Definition chunk_ab : PlanChunk.t :=
  {| PlanChunk.Path := "a/b.go"; PlanChunk.Content := "func f(){}" |}.

End Examples.

(** ** Scenarios

    Further inputs to run the definitions on: sessions of the client, runs
    of the key watcher, and runs of the server. *)

Module Scenarios.

Import Go Examples.

(** *** The client *)

(** A chunk that carries an error. *)
Definition error_chunk (err : error) : Client.OnStreamPlanParams :=
  {| Client.State := STATE_REPLYING; Client.Err := Some err; Client.Content := "" |}.

(** The client after the proposal id only, and the described client once
    [done] is closed. *)
Definition client_started : Client.Propose :=
  Client.set_proposalId "p1" Client.initial.

Definition client_closed : Client.Propose :=
  Client.set_done true client_described.

(** A reply in two chunks. *)
Definition hello_world : list Client.OnStreamPlanParams :=
  [chunk STATE_REPLYING "Hello"; chunk STATE_REVISING ", world"].

(** A session: the reply, the marker of the description, a description of
    two files, and the end of the stream. *)
Definition short_session : list Client.OnStreamPlanParams :=
  [chunk STATE_REPLYING "Hello";
   chunk STATE_DESCRIBING "@@DESCRIPTION@@";
   chunk STATE_DESCRIBING "two files";
   chunk STATE_FINISHED ""].

(** *** The key watcher *)

(** [getUserInput] fails at once. *)
Definition input_fails : list Keys.Event :=
  [Keys.WatcherSelect; Keys.GetUserInput 0 (Some "EOF")].

(** Three keys are typed while the loop handles one. *)
Definition three_keys : list Keys.Event :=
  [Keys.WatcherSelect; Keys.GetUserInput 97 None; Keys.SendKey;
   Keys.WatcherSelect; Keys.GetUserInput 98 None;
   Keys.CaseKey None; Keys.SendKey;
   Keys.WatcherSelect; Keys.GetUserInput 99 None].

(** The context is cancelled while the watcher waits for a key. *)
Definition keys_cancelled : Keys.t :=
  Keys.set_ctxDone true (Keys.set_watcher Keys.InGetUserInput (Keys.start false false)).

Definition late_key : list Keys.Event :=
  [Keys.GetUserInput 97 None; Keys.SendKey; Keys.WatcherSelect].

(** The error of [getUserInput] reaches the loop. *)
Definition input_error_returned : list Keys.Event :=
  [Keys.WatcherSelect; Keys.GetUserInput 0 (Some "EOF"); Keys.SendErr; Keys.CaseErr].

(** Two keys were typed and none handled when [done] was closed and
    [Propose] returned. *)
Definition keys_abandoned : Keys.t :=
  {| Keys.keyChan := [97%Z]; Keys.errChn := []; Keys.ctxDone := true; Keys.done := true;
     Keys.watcher := Keys.SendingKey 98; Keys.result := Some None;
     Keys.read := [97%Z; 98%Z]; Keys.handled := [] |}.

(** *** The server *)

(** A finished proposal that lists no file, and a process that holds it. *)
Definition nothing_to_write : Proposal.t :=
  {| Proposal.Content := "Nothing to change.";
     Proposal.Request :=
       {| PromptRequest.ModelContext := []; PromptRequest.CurrentPlanFiles := ∅ |};
     Proposal.Description :=
       {| PlanDescription.MadePlan := false; PlanDescription.Files := [] |};
     Proposal.Finished := true |}.

Definition server_idle : Server.Server :=
  {| Server.proposals := <["p3" := nothing_to_write]> ∅;
     Server.plans := ∅;
     Server.contexts := [];
     Server.workers := [];
     Server.stream := [];
     Server.stdout := [] |}.

(** Both files are written: the call for [a.txt] ends first, then the call
    for [b.txt], whose goroutine passes the marker. *)
Definition complete_trace : list Server.Action :=
  [Server.At 0 (Server.CreateStream None);
   Server.At 1 (Server.CreateStream None);
   Server.At 0 (Server.Select Server.CaseDefault);
   Server.At 0 (Server.Recv (delta "a"));
   Server.At 0 Server.Send;
   Server.At 0 (Server.Select Server.CaseDefault);
   Server.At 0 (Server.Recv call_ended);
   Server.At 1 (Server.Select Server.CaseDefault);
   Server.At 1 (Server.Recv call_ended);
   Server.At 1 Server.Send].

(** A chunk whose content is the byte 255, which is not UTF-8. *)
Definition chunk_invalid : PlanChunk.t :=
  {| PlanChunk.Path := "a.bin";
     PlanChunk.Content := String (Json.byte_of 255) EmptyString |}.


(** The stream of [b.txt] cannot be opened; afterwards [a.txt] receives a
    chunk. *)
Definition after_error_trace : list Server.Action :=
  [Server.At 1 (Server.CreateStream (Some "connection refused"));
   Server.At 1 Server.Send;
   Server.At 0 (Server.CreateStream None);
   Server.At 0 (Server.Select Server.CaseDefault);
   Server.At 0 (Server.Recv (delta "a"));
   Server.At 0 Server.Send].

(** A finished proposal whose description lists one file twice, a process
    that holds it, and a run in which the two goroutines of the file each
    receive a chunk, in one order, and pass it to [onStream], in the other. *)
Definition listed_twice : Proposal.t :=
  {| Proposal.Content := "I will write a.txt.";
     Proposal.Request :=
       {| PromptRequest.ModelContext := []; PromptRequest.CurrentPlanFiles := ∅ |};
     Proposal.Description :=
       {| PlanDescription.MadePlan := true; PlanDescription.Files := ["a.txt"; "a.txt"] |};
     Proposal.Finished := true |}.

Definition server_twice : Server.Server :=
  {| Server.proposals := <["p4" := listed_twice]> ∅;
     Server.plans := ∅;
     Server.contexts := [];
     Server.workers := [];
     Server.stream := [];
     Server.stdout := [] |}.

Definition crossed_trace : list Server.Action :=
  [Server.At 0 (Server.CreateStream None);
   Server.At 1 (Server.CreateStream None);
   Server.At 0 (Server.Select Server.CaseDefault);
   Server.At 1 (Server.Select Server.CaseDefault);
   Server.At 0 (Server.Recv (delta "a"));
   Server.At 1 (Server.Recv (delta "b"));
   Server.At 1 Server.Send;
   Server.At 0 Server.Send].

(** A finished proposal whose request carries the original of one file and
    the current state of another. *)
Definition with_context : Proposal.t :=
  {| Proposal.Content := "I will change main.go and add util.go.";
     Proposal.Request :=
       {| PromptRequest.ModelContext :=
            [{| ModelContextPart.FilePath := "main.go";
                ModelContextPart.Body := "package main" |}];
          PromptRequest.CurrentPlanFiles := <["util.go" := "package util"]> ∅ |};
     Proposal.Description :=
       {| PlanDescription.MadePlan := true;
          PlanDescription.Files := ["main.go"; "util.go"; "new.go"] |};
     Proposal.Finished := true |}.

End Scenarios.

(** * Theorems *)

(** ** Strings *)

Module Strings.

Lemma append_cons (a : ascii) (s1 s2 : string) :
  String a s1 ++ s2 = String a (s1 ++ s2).
Proof. reflexivity. Qed.

Lemma append_assoc (s1 s2 s3 : string) : (s1 ++ s2) ++ s3 = s1 ++ (s2 ++ s3).
Proof.
  induction s1 as [|a s1 IH]; [reflexivity|].
  by rewrite !append_cons, IH.
Qed.

Lemma append_nil_r (s : string) : s ++ "" = s.
Proof. induction s as [|a s IH]; [done|]. by rewrite append_cons, IH. Qed.

End Strings.

(** ** The codec of the chunk *)

Module JsonFacts.

Import Json Strings.

(** *** Bytes and code points *)

Lemma code_lt (c : ascii) : (code c < 256)%N.
Proof. apply N_ascii_bounded. Qed.

Lemma byte_code (c : ascii) : byte_of (code c) = c.
Proof. apply ascii_N_embedding. Qed.

(** The high and the low bits of a number. *)
Lemma shiftr_low (k x y : N) : (y < 2 ^ k)%N → N.shiftr (2 ^ k * x + y) k = x.
Proof.
  intros Hy. rewrite N.shiftr_div_pow2. symmetry. apply (N.div_unique _ _ _ y); lia.
Qed.

Lemma land_low (k x y : N) : (y < 2 ^ k)%N → N.land (2 ^ k * x + y) (N.ones k) = y.
Proof.
  intros Hy. rewrite N.land_ones. symmetry. apply (N.mod_unique _ _ x); lia.
Qed.

(** The UTF-8 form of the code point of two, three and four bytes is these
    bytes. *)
Lemma utf8_two (b0 b1 : N) :
  (194 ≤ b0 < 224)%N → (128 ≤ b1 < 192)%N →
  utf8 (64 * (b0 - 192) + (b1 - 128))
  = String (byte_of b0) (String (byte_of b1) "").
Proof.
  intros H0 H1. unfold utf8.
  rewrite (proj2 (N.ltb_ge _ 128)) by lia. rewrite (proj2 (N.ltb_lt _ 2048)) by lia.
  change 63%N with (N.ones 6). change 64%N with (2 ^ 6)%N.
  rewrite shiftr_low, land_low by (change (2 ^ 6)%N with 64%N; lia).
  by replace (192 + (b0 - 192))%N with b0 by lia;
     replace (128 + (b1 - 128))%N with b1 by lia.
Qed.

Lemma utf8_three (b0 b1 b2 : N) :
  (224 ≤ b0 < 240)%N → (128 ≤ b1 < 192)%N → (128 ≤ b2 < 192)%N →
  (b0 = 224 → 160 ≤ b1)%N →
  utf8 (4096 * (b0 - 224) + 64 * (b1 - 128) + (b2 - 128))
  = String (byte_of b0) (String (byte_of b1) (String (byte_of b2) "")).
Proof.
  intros H0 H1 H2 Hlong. unfold utf8.
  rewrite (proj2 (N.ltb_ge _ 128)) by lia. rewrite (proj2 (N.ltb_ge _ 2048)) by lia.
  rewrite (proj2 (N.ltb_lt _ 65536)) by lia.
  change 63%N with (N.ones 6).
  replace (4096 * (b0 - 224) + 64 * (b1 - 128) + (b2 - 128))%N
    with (2 ^ 6 * (2 ^ 6 * (b0 - 224) + (b1 - 128)) + (b2 - 128))%N
    by (change (2 ^ 6)%N with 64%N; lia).
  rewrite land_low by (change (2 ^ 6)%N with 64%N; lia).
  rewrite <- (N.shiftr_shiftr _ 6 6), !shiftr_low, land_low
    by (change (2 ^ 6)%N with 64%N; lia).
  by replace (224 + (b0 - 224))%N with b0 by lia;
     replace (128 + (b1 - 128))%N with b1 by lia;
     replace (128 + (b2 - 128))%N with b2 by lia.
Qed.

Lemma utf8_four (b0 b1 b2 b3 : N) :
  (240 ≤ b0 < 245)%N → (128 ≤ b1 < 192)%N → (128 ≤ b2 < 192)%N → (128 ≤ b3 < 192)%N →
  (b0 = 240 → 144 ≤ b1)%N →
  utf8 (262144 * (b0 - 240) + 4096 * (b1 - 128) + 64 * (b2 - 128) + (b3 - 128))
  = String (byte_of b0)
      (String (byte_of b1) (String (byte_of b2) (String (byte_of b3) ""))).
Proof.
  intros H0 H1 H2 H3 Hlong. unfold utf8.
  rewrite (proj2 (N.ltb_ge _ 128)) by lia. rewrite (proj2 (N.ltb_ge _ 2048)) by lia.
  rewrite (proj2 (N.ltb_ge _ 65536)) by lia.
  change 63%N with (N.ones 6).
  replace (262144 * (b0 - 240) + 4096 * (b1 - 128) + 64 * (b2 - 128) + (b3 - 128))%N
    with (2 ^ 6 * (2 ^ 6 * (2 ^ 6 * (b0 - 240) + (b1 - 128)) + (b2 - 128)) + (b3 - 128))%N
    by (change (2 ^ 6)%N with 64%N; lia).
  rewrite land_low by (change (2 ^ 6)%N with 64%N; lia).
  rewrite <- (N.shiftr_shiftr _ 6 12), <- (N.shiftr_shiftr _ 6 6).
  rewrite !shiftr_low, !land_low by (change (2 ^ 6)%N with 64%N; lia).
  rewrite <- (N.shiftr_shiftr _ 6 6), !shiftr_low, ?land_low
    by (change (2 ^ 6)%N with 64%N; lia).
  by replace (240 + (b0 - 240))%N with b0 by lia;
     replace (128 + (b1 - 128))%N with b1 by lia;
     replace (128 + (b2 - 128))%N with b2 by lia;
     replace (128 + (b3 - 128))%N with b3 by lia.
Qed.

(** *** The code point at the head of a string *)

(** What [DecodeRune] finds at the head of a string: an ASCII byte; or a
    byte that is not the head of valid UTF-8; or the two, three or four
    bytes of a code point, which are all outside ASCII, are the UTF-8 form
    of the code point, and are all [DecodeRune] looks at. *)
Lemma DecodeRune_head (c0 : ascii) (rest : string) :
  (DecodeRune (String c0 rest) = (code c0, 1) ∧ (code c0 < 128)%N) ∨
  (DecodeRune (String c0 rest) = (replacement, 1) ∧ (128 ≤ code c0)%N) ∨
  (∃ r c1 rest2,
     rest = String c1 rest2 ∧ (128 ≤ code c0)%N ∧ is_separator r = false ∧
     utf8 r = String c0 (String c1 "") ∧
     ∀ t, DecodeRune (String c0 (String c1 t)) = (r, 2)) ∨
  (∃ r c1 c2 rest3,
     rest = String c1 (String c2 rest3) ∧ (128 ≤ code c0)%N ∧
     utf8 r = String c0 (String c1 (String c2 "")) ∧
     ∀ t, DecodeRune (String c0 (String c1 (String c2 t))) = (r, 3)) ∨
  (∃ r c1 c2 c3 rest4,
     rest = String c1 (String c2 (String c3 rest4)) ∧ (128 ≤ code c0)%N ∧
     is_separator r = false ∧
     utf8 r = String c0 (String c1 (String c2 (String c3 ""))) ∧
     ∀ t, DecodeRune (String c0 (String c1 (String c2 (String c3 t)))) = (r, 4)).
Proof.
  pose proof (code_lt c0) as Hlt0.
  unfold DecodeRune. unfold first.
  destruct (code c0 <? 128)%N eqn:H128; [left; split; [done|by apply N.ltb_lt]|].
  apply N.ltb_ge in H128.
  destruct (code c0 <? 194)%N eqn:H194; [right; left; by split|].
  apply N.ltb_ge in H194.
  assert (∀ c lo hi, within (lo, hi) c = true → (lo ≤ code c ≤ hi)%N) as Hin.
  { intros c lo hi. unfold within. simpl.
    intros [?%N.leb_le ?%N.leb_le]%andb_true_iff. lia. }
  assert (∀ c, within (accept (code c0)) c = true →
               (128 ≤ code c < 192)%N ∧
               (code c0 = 224 → 160 ≤ code c)%N ∧ (code c0 = 240 → 144 ≤ code c)%N)
    as Hacc.
  { intros c. unfold accept.
    destruct (N.eqb_spec (code c0) 224); [intros ?%Hin; lia|].
    destruct (N.eqb_spec (code c0) 237); [intros ?%Hin; lia|].
    destruct (N.eqb_spec (code c0) 240); [intros ?%Hin; lia|].
    destruct (N.eqb_spec (code c0) 244); intros ?%Hin; lia. }
  assert (∀ c, continuation c = true → (128 ≤ code c < 192)%N) as Hcont.
  { intros c ?%Hin. lia. }
  destruct (code c0 <? 224)%N eqn:H224.
  { apply N.ltb_lt in H224.
    destruct rest as [|c1 rest2]; [right; left; by split|].
    destruct (within (accept (code c0)) c1) eqn:Hw1; [|right; left; by split].
    destruct (Hacc c1 Hw1) as (H1 & _ & _).
    right; right; left.
    exists (64 * (code c0 - 192) + (code c1 - 128))%N, c1, rest2. split; [done|]. split; [done|].
    split.
    { unfold is_separator. apply orb_false_iff. split; apply N.eqb_neq; lia. }
    split; [|intros _; by rewrite Hw1].
    rewrite utf8_two by lia. by rewrite !byte_code. }
  apply N.ltb_ge in H224.
  destruct (code c0 <? 240)%N eqn:H240.
  { apply N.ltb_lt in H240.
    destruct rest as [|c1 [|c2 rest3]]; [right; left; by split..|].
    destruct (within (accept (code c0)) c1) eqn:Hw1; [|right; left; by split].
    destruct (continuation c2) eqn:Hw2; [|right; left; by split].
    destruct (Hacc c1 Hw1) as (H1 & Hlong & _). pose proof (Hcont c2 Hw2) as H2.
    right; right; right; left.
    exists (4096 * (code c0 - 224) + 64 * (code c1 - 128) + (code c2 - 128))%N, c1, c2, rest3.
    split; [done|]. split; [done|]. split; [|intros _; by rewrite Hw1, Hw2].
    rewrite utf8_three by (done || lia). by rewrite !byte_code. }
  apply N.ltb_ge in H240.
  destruct (code c0 <? 245)%N eqn:H245; [|right; left; by split].
  apply N.ltb_lt in H245.
  destruct rest as [|c1 [|c2 [|c3 rest4]]]; [right; left; by split..|].
  destruct (within (accept (code c0)) c1) eqn:Hw1; [|right; left; by split].
  destruct (continuation c2) eqn:Hw2; [|right; left; by split].
  destruct (continuation c3) eqn:Hw3; [|right; left; by split].
  destruct (Hacc c1 Hw1) as (H1 & _ & Hlong).
  pose proof (Hcont c2 Hw2) as H2. pose proof (Hcont c3 Hw3) as H3.
  right; right; right; right.
  exists (262144 * (code c0 - 240) + 4096 * (code c1 - 128)
          + 64 * (code c2 - 128) + (code c3 - 128))%N, c1, c2, c3, rest4.
  split; [done|]. split; [done|].
  split.
  { unfold is_separator. apply orb_false_iff. split; apply N.eqb_neq; lia. }
  split; [|intros _; by rewrite Hw1, Hw2, Hw3].
  rewrite utf8_four by (done || lia). by rewrite !byte_code.
Qed.

(** *** Decoding what was encoded *)

Lemma escape_eq (c : ascii) (rest : string) :
  escape (String c rest)
  = match DecodeRune (String c rest), rest with
    | (_, 1), _ =>
        if (code c <? 128)%N then escape_byte c ++ escape rest
        else escape_u replacement ++ escape rest
    | (r, 2), String c1 rest2 =>
        if is_separator r then escape_u r ++ escape rest2
        else String c (String c1 (escape rest2))
    | (r, 3), String c1 (String c2 rest3) =>
        if is_separator r then escape_u r ++ escape rest3
        else String c (String c1 (String c2 (escape rest3)))
    | (r, 4), String c1 (String c2 (String c3 rest4)) =>
        if is_separator r then escape_u r ++ escape rest4
        else String c (String c1 (String c2 (String c3 (escape rest4))))
    | _, _ => escape_u replacement ++ escape rest
    end.
Proof. reflexivity. Qed.

Lemma ValidString_eq (c : ascii) (rest : string) :
  ValidString (String c rest)
  = match DecodeRune (String c rest), rest with
    | (_, 1), _ => (code c <? 128)%N && ValidString rest
    | (_, 2), String _ rest2 => ValidString rest2
    | (_, 3), String _ (String _ rest3) => ValidString rest3
    | (_, 4), String _ (String _ (String _ rest4)) => ValidString rest4
    | _, _ => false
    end.
Proof. reflexivity. Qed.

(** Outside ASCII the decoder reads a code point. *)
Lemma unquote_raw (c : ascii) (rest : string) :
  (128 ≤ code c)%N →
  unquote (String c rest)
  = match DecodeRune (String c rest), rest with
    | (r, 2), String _ rest2 => prepend (utf8 r) (unquote rest2)
    | (r, 3), String _ (String _ rest3) => prepend (utf8 r) (unquote rest3)
    | (r, 4), String _ (String _ (String _ rest4)) => prepend (utf8 r) (unquote rest4)
    | (r, _), _ => prepend (utf8 r) (unquote rest)
    end.
Proof.
  intros Hc. cbn [unquote]. unfold is_byte.
  rewrite (proj2 (N.eqb_neq _ 34)) by lia. rewrite (proj2 (N.eqb_neq _ 92)) by lia.
  by rewrite (proj2 (N.ltb_ge _ 32)) by lia.
Qed.

(** An ASCII byte is read back from its escape. *)
Lemma unquote_escape_byte (c : ascii) (rest : string) :
  (code c < 128)%N →
  unquote (escape_byte c ++ rest) = prepend (String c "") (unquote rest).
Proof. destruct c as [[] [] [] [] [] [] [] []]; (reflexivity || by intros ?). Qed.

(** A separator is read back from its escape. *)
Lemma unquote_escape_separator (r : N) (rest : string) :
  is_separator r = true →
  unquote (escape_u r ++ rest) = prepend (utf8 r) (unquote rest).
Proof.
  unfold is_separator.
  intros [->%N.eqb_eq| ->%N.eqb_eq]%orb_true_iff; reflexivity.
Qed.

Lemma prepend_Some (p s rest : string) :
  prepend p (Some (s, rest)) = Some (p ++ s, rest).
Proof. reflexivity. Qed.

(** A valid string is read back from the body [json.Marshal] writes for
    it. *)
Lemma unquote_escape (s rest : string) :
  ValidString s = true →
  unquote (escape s ++ String quote rest) = Some (s, rest).
Proof.
  remember (String.length s) as n eqn:Hn. revert s Hn.
  induction (lt_wf n) as [n _ IH]. intros s -> Hvalid.
  destruct s as [|c s]; [reflexivity|].
  rewrite escape_eq. rewrite ValidString_eq in Hvalid.
  destruct (DecodeRune_head c s)
    as [[Hd Hc]|[[Hd Hc]|[(r & c1 & s2 & -> & Hc & Hsep & Hutf & Hd)
       |[(r & c1 & c2 & s3 & -> & Hc & Hutf & Hd)
        |(r & c1 & c2 & c3 & s4 & -> & Hc & Hsep & Hutf & Hd)]]]].
  - (* an ASCII byte *)
    rewrite Hd in *. cbn iota in *.
    rewrite (proj2 (N.ltb_lt _ _) Hc) in *. simpl in Hvalid.
    rewrite append_assoc, unquote_escape_byte by done.
    by rewrite (IH (String.length s)) by (done || simpl; lia).
  - (* not valid *)
    rewrite Hd in Hvalid. cbn iota in Hvalid.
    by rewrite (proj2 (N.ltb_ge _ _) Hc) in Hvalid.
  - (* two bytes *)
    rewrite Hd in *. cbn iota in *. rewrite Hsep.
    rewrite !append_cons, unquote_raw, Hd by done. cbn iota.
    rewrite (IH (String.length s2)) by (done || simpl; lia).
    by rewrite prepend_Some, Hutf.
  - (* three bytes *)
    rewrite Hd in *. cbn iota in *.
    destruct (is_separator r) eqn:Hsep.
    + rewrite append_assoc, unquote_escape_separator by done.
      rewrite (IH (String.length s3)) by (done || simpl; lia).
      by rewrite prepend_Some, Hutf.
    + rewrite !append_cons, unquote_raw, Hd by done. cbn iota.
      rewrite (IH (String.length s3)) by (done || simpl; lia).
      by rewrite prepend_Some, Hutf.
  - (* four bytes *)
    rewrite Hd in *. cbn iota in *. rewrite Hsep.
    rewrite !append_cons, unquote_raw, Hd by done. cbn iota.
    rewrite (IH (String.length s4)) by (done || simpl; lia).
    by rewrite prepend_Some, Hutf.
Qed.

Lemma skip_space_nonspace (c : ascii) (r : string) :
  is_space c = false → skip_space (String c r) = String c r.
Proof. intros H. cbn [skip_space]. by rewrite H. Qed.

(** A member whose key and value are escaped valid strings, followed by
    the delimiter [d]. *)
Lemma members_member (fuel : nat) (key val : string) (d : ascii) (rest : string)
    (c : PlanChunk.t) :
  ValidString key = true → ValidString val = true →
  is_space d = false →
  members (S fuel)
    (String quote (escape key ++ String quote (String ":"
       (String quote (escape val ++ String quote (String d rest)))))) c
  = if is_byte d 44 then members fuel (skip_space rest) (set_field key val c)
    else if is_byte d 125 then
      if decide (skip_space rest = "") then Some (set_field key val c) else None
    else None.
Proof.
  intros Hkey Hval Hd. cbn [members]. change (is_byte quote 34) with true. cbn iota.
  rewrite unquote_escape by done. cbn [mbind option_bind].
  rewrite (skip_space_nonspace ":") by reflexivity.
  change (is_byte ":" 58) with true. cbn iota.
  rewrite (skip_space_nonspace quote) by reflexivity.
  change (is_byte quote 34) with true. cbn iota.
  rewrite unquote_escape by done. cbn [mbind option_bind].
  by rewrite (skip_space_nonspace d) by done.
Qed.

(** The wire form, character by character around the two escaped strings. *)
Lemma Marshal_shape (path content : string) :
  Marshal {| PlanChunk.Path := path; PlanChunk.Content := content |}
  = String "{"
      (String quote (escape "path" ++ String quote (String ":"
         (String quote (escape path ++ String quote (String ","
            (String quote (escape "content" ++ String quote (String ":"
               (String quote (escape content ++ String quote "}"))))))))))).
Proof.
  unfold Marshal, quoted. cbn [PlanChunk.Path PlanChunk.Content].
  rewrite !append_cons, !append_assoc. reflexivity.
Qed.

(** C8, as amended. Encoding a build-phase chunk and decoding the result
    gives back the chunk, for every path and content that are valid UTF-8. *)
Theorem chunk_roundtrip (c : PlanChunk.t) :
  ValidString (PlanChunk.Path c) = true → ValidString (PlanChunk.Content c) = true →
  Json.Unmarshal (Marshal c) = Some c.
Proof.
  destruct c as [path content]. simpl. intros Hpath Hcontent. unfold Json.Unmarshal.
  rewrite Marshal_shape.
  rewrite (skip_space_nonspace "{") by reflexivity.
  change (is_byte "{" 123) with true. cbn iota.
  rewrite (skip_space_nonspace quote) by reflexivity.
  change (is_byte quote 125) with false. cbn iota.
  cbn [String.length].
  rewrite members_member by (done || reflexivity).
  change (is_byte "," 44) with true. cbn iota.
  rewrite (skip_space_nonspace quote) by reflexivity.
  rewrite members_member by (done || reflexivity).
  change (is_byte "}" 44) with false. change (is_byte "}" 125) with true.
  reflexivity.
Qed.

(** The example of the spec (8). *)
Lemma chunk_roundtrip_witness :
  Json.Unmarshal (Marshal Examples.chunk_ab) = Some Examples.chunk_ab.
Proof. apply chunk_roundtrip; reflexivity. Defined.

(** C8 as stated fails for a chunk whose content is not valid UTF-8:
    [json.Marshal] writes the escape of the replacement character for the
    byte 255, and the decoder reads the replacement character, three other
    bytes. *)
Lemma invalid_utf8_is_replaced :
  Marshal Scenarios.chunk_invalid
  = "{" ++ quoted "path" ++ ":" ++ quoted "a.bin" ++ ","
        ++ quoted "content" ++ ":" ++ String quote (escape_u replacement ++ String quote "}") ∧
  Json.Unmarshal (Marshal Scenarios.chunk_invalid)
  = Some {| PlanChunk.Path := "a.bin"; PlanChunk.Content := utf8 replacement |} ∧
  Json.Unmarshal (Marshal Scenarios.chunk_invalid) ≠ Some Scenarios.chunk_invalid.
Proof. split; [reflexivity|]. split; [reflexivity|]. by intros [=]. Qed.

(** A line separator is written with its escape and read back. *)
Example separator_roundtrip :
  Marshal {| PlanChunk.Path := "a"; PlanChunk.Content := utf8 8232 |}
  = "{" ++ quoted "path" ++ ":" ++ quoted "a" ++ ","
        ++ quoted "content" ++ ":" ++ String quote (escape_u 8232 ++ String quote "}") ∧
  Json.Unmarshal (Marshal {| PlanChunk.Path := "a"; PlanChunk.Content := utf8 8232 |})
  = Some {| PlanChunk.Path := "a"; PlanChunk.Content := utf8 8232 |}.
Proof. split; reflexivity. Qed.

(** Decoding fails on a payload that is not an object of strings. *)
Example not_a_chunk : Json.Unmarshal "[1, 2]" = None.
Proof. reflexivity. Qed.

End JsonFacts.

(** ** The client's stream handler *)

Module ClientFacts.

Import Go Client.

Section Handler.

Context (E : Env).

Lemma close_done_Ret s s' :
  close_done s = Ret s' → done s = false ∧ s' = set_done true s.
Proof. unfold close_done. destruct (done s); naive_solver. Qed.

Lemma close_done_open s : done s = false → close_done s = Ret (set_done true s).
Proof. unfold close_done. by intros ->. Qed.

(** What a returning handler leaves alone, and what it never takes back. *)
Lemma handler_frame p s s' :
  handler E p s = Ret s' →
  running s' = running s ∧ queue s' = queue s ∧
  (streamFinished s = true → streamFinished s' = true) ∧
  (filesFinished s = true → filesFinished s' = true) ∧
  (proposalId s ≠ "" → proposalId s' = proposalId s) ∧
  (done s = true → done s' = true).
Proof.
  unfold handler, finished, describing, building, onError, close_done, endReply.
  intros H.
  repeat (case_match; simplify_eq/=); try done; naive_solver.
Qed.

Lemma handle_and_drain_frame q p s s' :
  queue s = q →
  handle_and_drain E q p s = Ret s' →
  running s' = false ∧ queue s' = [] ∧
  (streamFinished s = true → streamFinished s' = true) ∧
  (filesFinished s = true → filesFinished s' = true) ∧
  (proposalId s ≠ "" → proposalId s' = proposalId s) ∧
  (done s = true → done s' = true).
Proof.
  revert p s. induction q as [|next q IH]; intros p s Hq; simpl.
  - destruct (handler E p s) as [s1| |] eqn:Hh; simpl; [|done..].
    intros [= <-]. apply handler_frame in Hh.
    destruct Hh as (? & Hq1 & ? & ? & ? & ?). simpl. rewrite Hq1, Hq. by repeat split.
  - destruct (handler E p s) as [s1| |] eqn:Hh; simpl; [|done..].
    intros Hd. apply handler_frame in Hh. apply IH in Hd; [|done]. simpl in Hd.
    destruct Hh as (? & ? & ? & ? & Hid & ?), Hd as (? & ? & ? & ? & Hid' & ?).
    repeat split; auto. intros Hne. rewrite Hid', Hid; auto. by rewrite Hid.
Qed.

(** With no call in progress and nothing pending, [handleStream] is the
    handler; it leaves the flag [running] as it found it. *)
Lemma handleStream_idle p s :
  running s = false → queue s = [] →
  handleStream E p s = (let* s' := handler E p s in Ret (set_running false s')).
Proof. unfold handleStream. by intros -> ->. Qed.

Lemma handleStream_frame p s s' :
  running s = false →
  handleStream E p s = Ret s' →
  running s' = false ∧ queue s' = [] ∧
  (streamFinished s = true → streamFinished s' = true) ∧
  (filesFinished s = true → filesFinished s' = true) ∧
  (proposalId s ≠ "" → proposalId s' = proposalId s) ∧
  (done s = true → done s' = true).
Proof. unfold handleStream. intros ->. by apply handle_and_drain_frame. Qed.





(** C6, as amended. In the DESCRIBING phase, when [json.Unmarshal] of the
    description payload fails, [handleStream] returns having written
    "Error: error parsing plan description: ..." to the standard error,
    cancelled the key watcher and closed [done]; it has not marked the files
    finished nor touched the file chunks, and [desc] holds what
    [json.Unmarshal] left there. The loop of [Propose] then leaves at its
    [done] case and [Propose] returns nil. *)
Theorem malformed_description_ends_session (s : Propose) (p : OnStreamPlanParams)
    (e : error) (d' : option PlanDescription.t) :
  running s = false → queue s = [] → proposalId s ≠ "" → done s = false →
  State p = STATE_DESCRIBING → Err p = None →
  Content p ≠ STREAM_DESCRIPTION_PHASE E →
  json_Unmarshal E (Content p) (desc s) = (Some e, d') →
  ∃ s', handleStream E p s = Ret s' ∧
    stderr s' =
      (stderr s ++ [("Error: error parsing plan description: " ++ e)%string])%list ∧
    keywatchCancelled s' = true ∧ done s' = true ∧
    filesFinished s' = filesFinished s ∧ streamFinished s' = streamFinished s ∧
    chunks s' = chunks s ∧ desc s' = d' ∧
    select_loop SelDone s' = Some (set_keywatchCancelled true s', Some None).
Proof.
  intros Hr Hq Hid Hdone Hst Herr Hc Hu.
  rewrite handleStream_idle by done. unfold handler. rewrite Herr, Hst.
  destruct s as [? ? ? id started ? ? ? ? ds ? ? ? dn ? ?]; simpl in *; subst.
  destruct (decide (id = "")) as [|_]; [done|].
  unfold describing, onError, close_done.
  destruct started; simpl;
    (destruct (decide (Content p = STREAM_DESCRIPTION_PHASE E)); [done|]);
    rewrite Hu; simpl; eexists; (split; [reflexivity|]); simpl; by repeat split.
Qed.

(** C7. When the description parses and declares that no plan was made, or
    lists no file, [handleStream] returns with [filesFinished] set; it has
    reported no error, has not closed [done], and has left the state of the
    file chunks as it was: the BUILDING case has not run. *)
Theorem no_files_finishes_files (s : Propose) (p : OnStreamPlanParams)
    (d : PlanDescription.t) :
  running s = false → queue s = [] → proposalId s ≠ "" →
  State p = STATE_DESCRIBING → Err p = None →
  Content p ≠ STREAM_DESCRIPTION_PHASE E →
  json_Unmarshal E (Content p) (desc s) = (None, Some d) →
  PlanDescription.MadePlan d = false ∨ PlanDescription.Files d = [] →
  ∃ s', handleStream E p s = Ret s' ∧
    filesFinished s' = true ∧ desc s' = Some d ∧
    state s' = Some STATE_DESCRIBING ∧
    chunks s' = chunks s ∧ stderr s' = stderr s ∧ done s' = done s ∧
    keywatchCancelled s' = keywatchCancelled s ∧
    streamFinished s' = streamFinished s.
Proof.
  intros Hr Hq Hid Hst Herr Hc Hu Hd.
  rewrite handleStream_idle by done. unfold handler. rewrite Herr, Hst.
  destruct s as [? ? ? id started ? ? ? ? ds ? ? ? dn ? ?]; simpl in *; subst.
  destruct (decide (id = "")) as [|_]; [done|].
  unfold describing.
  assert (PlanDescription.MadePlan d
          && (0 <? length (PlanDescription.Files d))%nat = false) as Hno.
  { destruct Hd as [-> | ->]; [done|]. by rewrite andb_false_r. }
  destruct started; simpl;
    (destruct (decide (Content p = STREAM_DESCRIPTION_PHASE E)); [done|]);
    rewrite Hu; simpl; rewrite Hno; simpl;
    eexists; (split; [reflexivity|]); simpl; by repeat split.
Qed.

(** With a plan of at least one file, the same chunk leaves [filesFinished]
    as it was. *)
Lemma some_files_leave_files_unfinished (s : Propose) (p : OnStreamPlanParams)
    (d : PlanDescription.t) :
  running s = false → queue s = [] → proposalId s ≠ "" →
  State p = STATE_DESCRIBING → Err p = None →
  Content p ≠ STREAM_DESCRIPTION_PHASE E →
  json_Unmarshal E (Content p) (desc s) = (None, Some d) →
  PlanDescription.MadePlan d = true → PlanDescription.Files d ≠ [] →
  ∃ s', handleStream E p s = Ret s' ∧ filesFinished s' = filesFinished s.
Proof.
  intros Hr Hq Hid Hst Herr Hc Hu Hm Hf.
  rewrite handleStream_idle by done. unfold handler. rewrite Herr, Hst.
  destruct s as [? ? ? id started ? ? ? ? ds ? ? ? dn ? ?]; simpl in *; subst.
  destruct (decide (id = "")) as [|_]; [done|].
  unfold describing.
  assert (PlanDescription.MadePlan d
          && (0 <? length (PlanDescription.Files d))%nat = true) as Hyes.
  { rewrite Hm. destruct (PlanDescription.Files d); done. }
  destruct started; simpl;
    (destruct (decide (Content p = STREAM_DESCRIPTION_PHASE E)); [done|]);
    rewrite Hu; simpl; rewrite Hyes; simpl;
    eexists; (split; [reflexivity|]); done.
Qed.

End Handler.


(** *** Overlapping calls *)

(** Nothing assigns true to [running]: whatever the calls, the flag stays
    false, nothing is ever put in [queue] and no sender waits. *)
Lemma running_never_set (mvs : list Move) (m m' : Mailbox) :
  mb_running m = false → mb_queue m = [] → senders m = [] →
  moves mvs m = Some m' →
  mb_running m' = false ∧ mb_queue m' = [] ∧ senders m' = [].
Proof.
  revert m. induction mvs as [|mv mvs IH]; intros m Hr Hq Hs; simpl.
  - by intros [= <-].
  - destruct (move mv m) as [m1|] eqn:Hmv; [|done].
    intros Hrest. apply (IH m1); [..|done].
    all: destruct mv as [params|i|i]; simpl in Hmv.
    all: unfold enter, leave, resume in Hmv; rewrite ?Hr, ?Hq, ?Hs in Hmv.
    all: repeat case_match; by simplify_eq/=.
Qed.

(** Every call is therefore in the handler from its arrival to its exit:
    the calls in the handler are those that arrived and have not left. *)
Lemma every_call_executes (mvs : list Move) (m m' : Mailbox) :
  mb_running m = false → mb_queue m = [] → senders m = [] →
  moves mvs m = Some m' →
  length (executing m') + length (List.filter is_exit mvs)
  = length (executing m) + length (List.filter is_call mvs).
Proof.
  revert m. induction mvs as [|mv mvs IH]; intros m Hr Hq Hs; simpl.
  - intros [= <-]. simpl. lia.
  - destruct (move mv m) as [m1|] eqn:Hmv; [|done].
    intros Hrest.
    destruct (running_never_set [mv] m m1 Hr Hq Hs) as (Hr1 & Hq1 & Hs1).
    { simpl. by rewrite Hmv. }
    specialize (IH m1 Hr1 Hq1 Hs1 Hrest).
    destruct mv as [params|i|i]; simpl in *.
    + injection Hmv as <-. unfold enter in IH. rewrite Hr in IH. simpl in IH.
      rewrite length_app in IH. simpl in IH. lia.
    + unfold leave in Hmv. rewrite Hq in Hmv.
      destruct (executing m !! i) as [x|] eqn:Hi; [|done].
      injection Hmv as <-. simpl in IH.
      assert (length (delete i (executing m)) = length (executing m) - 1) as Hlen.
      { apply length_delete. eauto. }
      apply lookup_lt_Some in Hi. lia.
    + unfold resume in Hmv. rewrite Hs in Hmv. by rewrite lookup_nil in Hmv.
Qed.

(** C1, on every sequence of calls, and so at the failing input of two
    calls that overlap. Whatever calls of [handleStream] arrive and leave,
    from the variables as [Propose] declares them: [running] is false, so no
    call has marked the handler active; [queue] is empty and no sender
    waits, so no call was stored in the pending slot; and every call that
    has arrived and not left is inside the handler, together with the
    others. *)
Theorem calls_are_never_queued (mvs : list Move) (m : Mailbox) :
  moves mvs mailbox0 = Some m →
  mb_running m = false ∧ mb_queue m = [] ∧ senders m = [] ∧
  length (executing m) + length (List.filter is_exit mvs)
  = length (List.filter is_call mvs).
Proof.
  intros Hmoves.
  destruct (running_never_set mvs mailbox0 m) as (Hr & Hq & Hs); try done.
  repeat split; try done.
  by rewrite (every_call_executes mvs mailbox0 m).
Qed.

(** Two calls, the second arriving while the first is in the handler: both
    are in the handler. *)
Example overlapping_calls_both_execute (p1 p2 : OnStreamPlanParams) :
  moves [Call p1; Call p2] mailbox0
  = Some {| mb_running := false; mb_queue := []; executing := [p1; p2];
            senders := [] |}.
Proof. reflexivity. Qed.

(** *** The theorems at the example client *)

Lemma calls_are_never_queued_witness :
  let p1 := Examples.chunk STATE_REPLYING "Hello" in
  let p2 := Examples.chunk STATE_REPLYING " world" in
  ∃ m, moves [Call p1; Call p2] mailbox0 = Some m ∧
       mb_running m = false ∧ mb_queue m = [] ∧ length (executing m) = 2.
Proof.
  intros p1 p2. eexists. split; [reflexivity|].
  destruct (calls_are_never_queued [Call p1; Call p2] _ eq_refl)
    as (Hr & Hq & _ & Hlen).
  split; [exact Hr|]. split; [exact Hq|]. exact Hlen.
Defined.


Lemma malformed_description_ends_session_witness :
  let E := Examples.client_env in
  let s := Examples.client_described in
  let p := Examples.chunk STATE_DESCRIBING "truncated" in
  ∃ s', handleStream E p s = Ret s' ∧
    stderr s' =
      (stderr s
       ++ [("Error: error parsing plan description: "
            ++ "unexpected end of JSON input")%string])%list ∧
    keywatchCancelled s' = true ∧ done s' = true ∧
    filesFinished s' = filesFinished s ∧ streamFinished s' = streamFinished s ∧
    chunks s' = chunks s ∧ desc s' = desc s ∧
    select_loop SelDone s' = Some (set_keywatchCancelled true s', Some None).
Proof.
  intros E s p.
  apply (malformed_description_ends_session E s p);
    [reflexivity | reflexivity | discriminate | reflexivity | reflexivity
    | reflexivity | discriminate | reflexivity].
Defined.

(** C6 as stated fails at the example client: after the payload that does
    not parse, [Propose] leaves its loop at the [done] case, and what it
    returns there is not an error. *)
Lemma malformed_description_not_returned :
  ¬ returns_error Examples.client_env
      (Examples.chunk STATE_DESCRIBING "truncated") Examples.client_described.
Proof.
  intros (s' & s'' & err & Hh & Hsel).
  vm_compute in Hh. injection Hh as <-. vm_compute in Hsel. discriminate.
Qed.

Lemma no_files_finishes_files_witness :
  let E := Examples.client_env in
  let s := Examples.client_described in
  let p := Examples.chunk STATE_DESCRIBING "no plan" in
  ∃ s', handleStream E p s = Ret s' ∧
    filesFinished s' = true ∧
    desc s' = Some {| PlanDescription.MadePlan := false; PlanDescription.Files := [] |} ∧
    state s' = Some STATE_DESCRIBING ∧
    chunks s' = chunks s ∧ stderr s' = stderr s ∧ done s' = done s ∧
    keywatchCancelled s' = keywatchCancelled s ∧
    streamFinished s' = streamFinished s.
Proof.
  intros E s p.
  apply (no_files_finishes_files E s p);
    [reflexivity | reflexivity | discriminate | reflexivity | reflexivity
    | discriminate | reflexivity | left; reflexivity].
Defined.

End ClientFacts.

(** ** The completion check *)

Module PlanFacts.

(** The completion check, in the words of the spec: for a list of expected
    paths without duplicates, of length [NumFiles], and a finished map with
    entries at expected paths only, the finished map has [NumFiles] entries
    exactly when every expected path has an entry. *)
Lemma DidFinish_expected (expected : list string) (p : Plan.t) :
  NoDup expected →
  Plan.NumFiles p = length expected →
  (∀ path, is_Some (Plan.FilesFinished p !! path) → path ∈ expected) →
  Plan.DidFinish p = true ↔ Plan.all_expected_finished expected p.
Proof.
  intros Hnd Hnum Hsub. unfold Plan.DidFinish, Plan.all_expected_finished.
  rewrite bool_decide_eq_true, Hnum.
  rewrite <- (size_dom (D := gset string)), <- (size_list_to_set (C := gset string)) by done.
  assert (dom (Plan.FilesFinished p) ⊆ (list_to_set expected : gset string)) as Hincl.
  { intros path Hin. apply elem_of_list_to_set, Hsub. by apply elem_of_dom. }
  split.
  - intros Hsize path Hin.
    apply elem_of_dom.
    rewrite (set_subseteq_size_eq _ _ Hincl) by lia.
    by apply elem_of_list_to_set.
  - intros Hall. f_equal. apply set_eq. intros path.
    rewrite elem_of_dom, elem_of_list_to_set. split; [apply Hsub|apply Hall].
Qed.

End PlanFacts.

(** ** The server's file workers *)

Module ServerFacts.

Import Go Server Strings.

Lemma step_at (i : nat) (ev : Event) (w : Worker) (sv sv' : Server) (st : Status) :
  workers sv !! i = Some w →
  worker_step ev w sv = Some (sv', st) →
  step (At i ev) sv
  = Some (set_workers
            (<[i := set_wTimer (timer_after ev w) (set_wStatus st w)]> (workers sv'))
            sv').
Proof. intros Hw Hs. unfold step. rewrite Hw. simpl. rewrite Hs. reflexivity. Qed.

(** Printing changes the standard output only. *)
Lemma prints_frame {A} (f : A → string) (l : list A) (sv : Server) :
  let sv' := foldl (fun acc x => print (f x) acc) sv l in
  proposals sv' = proposals sv ∧ plans sv' = plans sv ∧
  contexts sv' = contexts sv ∧ workers sv' = workers sv ∧
  stream sv' = stream sv.
Proof.
  revert sv. induction l as [|x l IH]; intros sv; simpl; [done|].
  destruct (IH (print (f x) sv)) as (-> & -> & -> & -> & ->). done.
Qed.

(** A step of a goroutine changes neither the registry of proposals, nor
    the contexts, nor the list of goroutines before its own status is
    written back. *)
Lemma worker_step_frame (ev : Event) (w : Worker) (sv sv' : Server) (st : Status) :
  worker_step ev w sv = Some (sv', st) →
  proposals sv' = proposals sv ∧ contexts sv' = contexts sv ∧
  workers sv' = workers sv.
Proof.
  unfold worker_step, starting.
  intros H.
  destruct (wStatus w), ev as [err| |[]|r|]; try done; simpl in H.
  - pose proof (prints_frame (fun msg => Role msg ++ ": " ++ Text msg ++ nl)
                  (Messages (modelReq (wProposal w) (wFilePath w)))
                  (print ("Calling model for file: " ++ wFilePath w ++ nl)
                     (print ("Getting file from model: " ++ wFilePath w ++ nl) sv)))
      as (Hp & _ & Hc & Hw & _).
    simpl in Hp, Hc, Hw.
    destruct err; injection H as <- <-; simpl; by rewrite Hp, Hc, Hw.
  - by case_match; simplify_eq/=.
  - by case_match; simplify_eq/=.
  - unfold onError in H. by case_match; simplify_eq/=.
  - by case_match; simplify_eq/=.
  - by case_match; simplify_eq/=.
  - unfold received, onError, Update, print in H.
    by repeat (case_match; simplify_eq/=).
  - by case_match; simplify_eq/=.
  - by simplify_eq/=.
Qed.

(** Whether a goroutine can take a step depends on where it is, on its
    timer and on its context. *)
Lemma worker_step_enabled (ev : Event) (w : Worker) (sv sv' : Server) :
  contexts sv' = contexts sv →
  is_Some (worker_step ev w sv') ↔ is_Some (worker_step ev w sv).
Proof.
  intros Hc. unfold worker_step, cancelled. rewrite Hc.
  destruct (wStatus w), ev as [err| |[]|r|]; try done.
  all: repeat case_match; try done.
  all: split; intros _; by eexists.
Qed.

Lemma step_enabled (j : nat) (ev : Event) (sv : Server) :
  is_Some (step (At j ev) sv)
  ↔ ∃ w, workers sv !! j = Some w ∧ is_Some (worker_step ev w sv).
Proof.
  unfold step. destruct (workers sv !! j) as [w|]; simpl.
  - destruct (worker_step ev w sv) as [[sv' st]|] eqn:Hs; simpl.
    + split; [intros _; exists w; split; [done|rewrite Hs; by eexists]|].
      intros _; by eexists.
    + split; [by intros [? [=]]|]. intros (w0 & [= <-] & [? Hx]).
      rewrite Hs in Hx. discriminate Hx.
  - split; [by intros [? [=]]|]. intros (? & Hx & _). discriminate Hx.
Qed.

(** A goroutine that is where it was, under the same contexts, can take
    the same steps. *)
Lemma step_enabled_frame (j : nat) (ev : Event) (sv sv' : Server) :
  contexts sv' = contexts sv → workers sv' !! j = workers sv !! j →
  is_Some (step (At j ev) sv') ↔ is_Some (step (At j ev) sv).
Proof.
  intros Hc Hj. rewrite !step_enabled, Hj.
  split; intros (wj & Hwj & Hen); exists wj; (split; [done|]);
    by eapply worker_step_enabled; [|exact Hen].
Qed.

(** *** Mutations of a terminal plan *)

Lemma guarded_live (f : Plan.t → Plan.t) (p : Plan.t) :
  Plan.IsTerminal p = false → guarded f p = f p.
Proof. unfold guarded. by intros ->. Qed.

Lemma guarded_terminal (f : Plan.t → Plan.t) (p : Plan.t) :
  Plan.IsTerminal p = true → guarded f p = p.
Proof. unfold guarded. by intros ->. Qed.

(** What a mutation leaves alone, [plans.Update] leaves alone. *)
Lemma guarded_keeps {A} (proj : Plan.t → A) (f : Plan.t → Plan.t) :
  (∀ p, proj (f p) = proj p) → ∀ p, proj (guarded f p) = proj p.
Proof. intros Hf p. unfold guarded. by case_match. Qed.

(** A plan that is terminal stays terminal under the mutations of the
    goroutines. *)
Lemma terminal_fields (p : Plan.t) :
  Plan.IsTerminal p = false ↔ Plan.Finished p = false ∧ Plan.Err p = None.
Proof.
  unfold Plan.IsTerminal. destruct (Plan.Finished p), (Plan.Err p); simpl; split; try done.
  all: by intros [? ?].
Qed.

(** The plan of the proposal after the closure [onError]. *)
Lemma onError_plan (w : Worker) (err : error) (sv : Server) (p : Plan.t) :
  plans sv !! wProposalId w = Some p →
  plans (onError w err sv).1 !! wProposalId w = Some (guarded (record_error w err) p).
Proof. intros Hp. simpl. rewrite lookup_alter_eq, Hp. reflexivity. Qed.

(** *** The inactivity timer *)

(** The [select] sees the timer only between two calls of [stream.Recv()]:
    a goroutine inside [Recv] moves by the return of [Recv] alone, whether
    its timer has fired or not. *)
Lemma waits_for_Recv (ev : Event) (w : Worker) (sv : Server) :
  wStatus w = Receiving →
  is_Some (worker_step ev w sv) →
  ev = Expire ∨ ∃ r, ev = Recv r.
Proof.
  intros Hst. unfold worker_step. rewrite Hst.
  destruct ev as [err| |c|r|]; try (by intros [? [=]]); eauto.
Qed.

(** C2, at the failing input: a goroutine waits in [stream.Recv()] for the
    next chunk, its timer fires, and then the chunk arrives. The goroutine
    does not fail: the step of [Recv] accepts the chunk, the timer is reset
    as if it had not fired, and the plan has the content appended (unless
    the plan is terminal, which rejects the mutation) and no error
    recorded. *)
Theorem fired_timer_is_reset_by_next_chunk (sv : Server) (i : nat) (w : Worker)
    (p : Plan.t) (response : Response) (choice : Choice) (rest : list Choice)
    (call : FunctionCall) :
  workers sv !! i = Some w → wStatus w = Receiving → wTimer w = false →
  plans sv !! wProposalId w = Some p →
  Choices response = choice :: rest → FinishReason choice = "" →
  DeltaFunctionCall choice = Some call →
  ∃ sv1 sv2 w1 w2 p',
    step (At i Expire) sv = Some sv1 ∧
    workers sv1 !! i = Some w1 ∧ wStatus w1 = Receiving ∧ wTimer w1 = true ∧
    step (At i (Recv (RecvOk response))) sv1 = Some sv2 ∧
    workers sv2 !! i = Some w2 ∧
    wStatus w2
    = Sending (MsgChunk {| PlanChunk.Path := wFilePath w;
                           PlanChunk.Content := Arguments call |}) true ∧
    wTimer w2 = false ∧
    plans sv2 !! wProposalId w = Some p' ∧
    Plan.FileErrs p' = Plan.FileErrs p ∧ Plan.Err p' = Plan.Err p ∧
    Plan.Files p' !! wFilePath w
    = (if Plan.IsTerminal p then Plan.Files p !! wFilePath w
       else Some (default "" (Plan.Files p !! wFilePath w) ++ Arguments call)%string) ∧
    stream sv2 = stream sv.
Proof.
  intros Hw Hst Ht Hp Hch Hfr Hcall.
  pose proof (lookup_lt_Some _ _ _ Hw) as Hlt.
  eexists _, _, _, _, _. split.
  { eapply step_at; [exact Hw|]. unfold worker_step. rewrite Hst, Ht. reflexivity. }
  split; [simpl; by apply list_lookup_insert_eq|].
  split; [by simpl|]. split; [reflexivity|].
  split.
  { eapply step_at.
    - simpl. by apply list_lookup_insert_eq.
    - unfold worker_step, received. simpl.
      rewrite Hch. rewrite decide_True by done. rewrite Hcall. reflexivity. }
  split.
  { simpl. rewrite list_insert_insert_eq. by apply list_lookup_insert_eq. }
  split; [reflexivity|]. split; [reflexivity|].
  split; [simpl; rewrite lookup_alter_eq, Hp; reflexivity|].
  unfold guarded. destruct (Plan.IsTerminal p); simpl; [done|].
  by rewrite lookup_insert_eq.
Qed.

(** When the [select] does take the timer case, the failure is that of the
    file alone. For a goroutine at its [select] whose timer has fired and
    whose closure [onError] reads its own path: the two steps it takes (the
    update of the plan, the call of [onStream]) are enabled; afterwards the
    plan of the proposal, unless it was terminal and is as it was, has the
    error at the path of the file and as its status; its contents, finished
    files, finished flag and the errors at other paths are as before; the
    plans of other proposals are as before;
    the error has been passed to [onStream]; the goroutine has returned; no
    context is cancelled, every other goroutine is where it was and can take
    the steps it could take before. *)
Lemma timeout_is_scoped (sv : Server) (i : nat) (w : Worker) (p : Plan.t) :
  workers sv !! i = Some w → wStatus w = Selecting → wTimer w = true →
  wErrPath w = wFilePath w →
  plans sv !! wProposalId w = Some p →
  let err := "stream timeout due to inactivity" in
  ∃ sv1 sv2,
    step (At i (Select CaseTimer)) sv = Some sv1 ∧ step (At i Send) sv1 = Some sv2 ∧
    (∃ p', plans sv2 !! wProposalId w = Some p' ∧
           (Plan.IsTerminal p = false →
            Plan.FileErrs p' !! wFilePath w = Some err ∧ Plan.Err p' = Some err) ∧
           (Plan.IsTerminal p = true → p' = p) ∧
           Plan.Files p' = Plan.Files p ∧
           Plan.FilesFinished p' = Plan.FilesFinished p ∧
           Plan.Finished p' = Plan.Finished p ∧
           ∀ path, path ≠ wFilePath w →
             Plan.FileErrs p' !! path = Plan.FileErrs p !! path) ∧
    (∀ pid, pid ≠ wProposalId w → plans sv2 !! pid = plans sv !! pid) ∧
    stream sv2 = (stream sv ++ [MsgErr err])%list ∧
    wStatus <$> workers sv2 !! i = Some Stopped ∧
    contexts sv2 = contexts sv ∧
    (∀ j, j ≠ i → workers sv2 !! j = workers sv !! j) ∧
    (∀ j ev, j ≠ i →
       is_Some (step (At j ev) sv2) ↔ is_Some (step (At j ev) sv)).
Proof.
  intros Hw Hst Ht Hcap Hp err.
  pose proof (lookup_lt_Some _ _ _ Hw) as Hlt.
  eexists _, _. split.
  { eapply step_at; [exact Hw|]. unfold worker_step. rewrite Hst, Ht. reflexivity. }
  split.
  { eapply step_at.
    - simpl. by apply list_lookup_insert_eq.
    - reflexivity. }
  split.
  { eexists. split; [simpl; rewrite lookup_alter_eq, Hp; reflexivity|]. simpl.
    unfold guarded. destruct (Plan.IsTerminal p); simpl.
    - by repeat split.
    - rewrite Hcap. split; [intros _; by rewrite lookup_insert_eq|].
      repeat split; try done. intros path Hne. by rewrite lookup_insert_ne. }
  split; [intros pid Hne; simpl; by rewrite lookup_alter_ne|].
  split; [done|].
  split; [simpl; rewrite list_insert_insert_eq; by rewrite list_lookup_insert_eq|].
  split; [done|].
  split.
  { intros j Hne. simpl. by rewrite list_insert_insert_eq, list_lookup_insert_ne. }
  intros j ev Hne. apply step_enabled_frame; simpl; [done|].
  by rewrite list_insert_insert_eq, list_lookup_insert_ne.
Qed.


Lemma mark_finished_Files (path : string) (p : Plan.t) :
  Plan.Files (mark_finished path p) = Plan.Files p.
Proof. unfold mark_finished. by case_match. Qed.


(** What a failing goroutine does: [onError], from a process that differs
    from [sv] by its standard output at most. *)
Lemma failure_step (w : Worker) (ev : Event) (err : error) (sv : Server) :
  failure w ev = Some err →
  ∃ sv0, worker_step ev w sv = Some (onError w err sv0) ∧
         plans sv0 = plans sv ∧ stream sv0 = stream sv ∧ workers sv0 = workers sv.
Proof.
  unfold failure, worker_step, starting, received.
  destruct (wStatus w), ev as [[e|]| |[]|[e|response]|]; try done.
  - intros [= <-]. eexists. split; [reflexivity|]. simpl.
    pose proof (prints_frame (fun msg => Role msg ++ ": " ++ Text msg ++ nl)
                  (Messages (modelReq (wProposal w) (wFilePath w)))
                  (print ("Calling model for file: " ++ wFilePath w ++ nl)
                     (print ("Getting file from model: " ++ wFilePath w ++ nl) sv)))
      as (_ & Hp & _ & Hw & Hs).
    simpl in Hp, Hw, Hs. by rewrite Hp, Hw, Hs.
  - destruct (wTimer w); [|done]. intros [= <-]. by exists sv.
  - intros [= <-]. by exists sv.
  - destruct (Choices response) as [|choice rest]; [intros [= <-]; by exists sv|].
    repeat case_decide; try done. intros [= <-]. by exists sv.
Qed.

(** C3, as amended. A goroutine that fails with an error (the stream cannot
    be opened, the [select] takes the timer case, [Recv] fails, the response
    has no choice, or the call ends for another reason than the function
    call) takes its two steps: the error is passed to [plans.Update], which
    records it in the error map of the plan and as the status of the plan
    unless the plan is terminal already and stays as it is; the error is
    passed to [onStream] at once; the goroutine has returned. The plan is
    terminal then. The finished map is as before, and so are the completion
    check and the finished flag: the path does not count as completed.
    Completion is decided when a call ends with the function call: on a
    terminal plan nothing happens and the goroutine returns; otherwise the
    path enters the finished map, and the plan is marked finished, and the
    marker is about to be sent, when the finished map then has as many
    entries as there are files. *)
Theorem file_error_recorded_not_counted (sv : Server) (i : nat) (w : Worker) (p : Plan.t) :
  workers sv !! i = Some w →
  plans sv !! wProposalId w = Some p →
  (∀ ev err, failure w ev = Some err →
     ∃ sv1 sv2,
       step (At i ev) sv = Some sv1 ∧ step (At i Send) sv1 = Some sv2 ∧
       (∃ p', plans sv2 !! wProposalId w = Some p' ∧
              (Plan.IsTerminal p = false →
               Plan.FileErrs p' = <[wErrPath w := err]> (Plan.FileErrs p) ∧
               Plan.Err p' = Some err) ∧
              (Plan.IsTerminal p = true → p' = p) ∧
              Plan.IsTerminal p' = true ∧
              Plan.FilesFinished p' = Plan.FilesFinished p ∧
              Plan.DidFinish p' = Plan.DidFinish p ∧
              Plan.Finished p' = Plan.Finished p) ∧
       stream sv2 = (stream sv ++ [MsgErr err])%list ∧
       wStatus <$> workers sv2 !! i = Some Stopped) ∧
  (∀ response choice rest,
     wStatus w = Receiving →
     Choices response = choice :: rest →
     FinishReason choice = FinishReasonFunctionCall →
     ∃ sv1 p',
       step (At i (Recv (RecvOk response))) sv = Some sv1 ∧
       plans sv1 !! wProposalId w = Some p' ∧
       stream sv1 = stream sv ∧
       (Plan.IsTerminal p = true →
        p' = p ∧ wStatus <$> workers sv1 !! i = Some Stopped) ∧
       (Plan.IsTerminal p = false →
        Plan.FilesFinished p' = <[wFilePath w := true]> (Plan.FilesFinished p) ∧
        Plan.FileErrs p' = Plan.FileErrs p ∧ Plan.Err p' = None ∧
        Plan.Finished p' = Plan.DidFinish p' ∧
        (Plan.DidFinish p' = true ↔
         size (<[wFilePath w := true]> (Plan.FilesFinished p)) = Plan.NumFiles p) ∧
        wStatus <$> workers sv1 !! i
        = Some (if Plan.DidFinish p' then Sending MsgFinished false else Stopped))).
Proof.
  intros Hw Hp.
  pose proof (lookup_lt_Some _ _ _ Hw) as Hlt. split.
  - intros ev err Hfail.
    destruct (failure_step w ev err sv Hfail) as (sv0 & Hstep & Hp0 & Hs0 & Hw0).
    eexists _, _. split; [eapply step_at; [exact Hw|exact Hstep]|].
    split.
    { eapply step_at.
      - simpl. rewrite Hw0. by apply list_lookup_insert_eq.
      - reflexivity. }
    split.
    { eexists. split; [simpl; rewrite Hp0, lookup_alter_eq, Hp; reflexivity|].
      unfold guarded. destruct (Plan.IsTerminal p) eqn:Hterm; [done|].
      simpl. repeat split; try done. unfold Plan.IsTerminal. simpl.
      by rewrite orb_true_r. }
    split; [simpl; by rewrite Hs0|].
    simpl. rewrite Hw0, list_insert_insert_eq. by rewrite list_lookup_insert_eq.
  - intros response choice rest Hst Hch Hfr.
    assert (FinishReason choice ≠ "") as Hne by (rewrite Hfr; discriminate).
    set (p1 := Plan.set_FilesFinished (<[wFilePath w := true]> (Plan.FilesFinished p)) p).
    assert (mark_finished (wFilePath w) p
            = if Plan.DidFinish p1 then Plan.Finish p1 else p1) as Hmark by done.
    assert (Plan.DidFinish (mark_finished (wFilePath w) p) = Plan.DidFinish p1) as Hdid.
    { rewrite Hmark. destruct (Plan.DidFinish p1) eqn:Hd; exact Hd. }
    set (finished := negb (Plan.IsTerminal p) && Plan.DidFinish p1).
    assert (worker_step (Recv (RecvOk response)) w sv
            = Some (if finished
                    then (print ("Stream finished" ++ nl)
                            (Update (wProposalId w) (mark_finished (wFilePath w)) sv),
                          Sending MsgFinished false)
                    else (Update (wProposalId w) (mark_finished (wFilePath w)) sv,
                          Stopped))) as Hws.
    { unfold worker_step, received. rewrite Hst, Hch.
      rewrite decide_False by done. rewrite decide_True by done.
      unfold did_finish_with. by rewrite Hp. }
    assert (Plan.DidFinish p1 = true ↔
            size (<[wFilePath w := true]> (Plan.FilesFinished p)) = Plan.NumFiles p)
      as Hsize.
    { unfold Plan.DidFinish, p1. simpl. by rewrite bool_decide_eq_true. }
    unfold finished in Hws.
    destruct (Plan.IsTerminal p) eqn:Hterm; simpl in Hws.
    + eexists _, p. split; [eapply step_at; [exact Hw|exact Hws]|].
      split; [simpl; rewrite lookup_alter_eq, Hp; simpl; by rewrite guarded_terminal|].
      split; [done|]. split; [|done]. intros _. split; [done|].
      simpl. by rewrite list_lookup_insert_eq.
    + apply terminal_fields in Hterm as Hlive. destruct Hlive as [Hfin Herr].
      destruct (Plan.DidFinish p1) eqn:Hd1; simpl in Hws.
      all: eexists _, (mark_finished (wFilePath w) p).
      all: split; [eapply step_at; [exact Hw|exact Hws]|].
      all: split; [simpl; rewrite lookup_alter_eq, Hp; simpl; by rewrite guarded_live|].
      all: split; [done|]; split; [done|]; intros _.
      all: rewrite Hdid, Hmark, ?Hd1; simpl.
      all: rewrite list_lookup_insert_eq by done.
      all: rewrite ?Hd1.
      all: repeat split; try done.
      all: try (intros _; by apply Hsize).
      all: try (intros Hsz; apply Hsize in Hsz; congruence).
Qed.

(** C10, as amended. Outside the test mode, [confirmProposal] of an id that
    is not registered returns "proposal not found", and of a proposal that is
    not finished returns "proposal not finished"; in both cases it leaves the
    process as it was: no plan is registered, no context made, no goroutine
    started. *)
Theorem confirmProposal_rejects (E : Env) (proposalId : string) (sv : Server) :
  GOENV E ≠ "test" →
  (proposals sv !! proposalId = None →
   confirmProposal E proposalId sv = (Some "proposal not found", sv)) ∧
  (∀ proposal, proposals sv !! proposalId = Some proposal →
     Proposal.IsFinished proposal = false →
     confirmProposal E proposalId sv = (Some "proposal not finished", sv)).
Proof.
  intros Henv. unfold confirmProposal. rewrite decide_False by done. split.
  - by intros ->.
  - intros proposal -> ->. reflexivity.
Qed.

(** A finished proposal is confirmed, outside the test mode, by registering
    its plan and starting one goroutine per file. *)
Lemma confirmProposal_starts (E : Env) (proposalId : string) (sv : Server)
    (proposal : Proposal.t) :
  GOENV E ≠ "test" →
  proposals sv !! proposalId = Some proposal →
  Proposal.IsFinished proposal = true →
  let files := PlanDescription.Files (Proposal.Description proposal) in
  let ctx := length (contexts sv) in
  confirmProposal E proposalId sv
  = (None,
     {| proposals := proposals sv;
        plans :=
          <[proposalId :=
              {| Plan.ProposalId := proposalId; Plan.NumFiles := length files;
                 Plan.Files := ∅; Plan.FileErrs := ∅; Plan.FilesFinished := ∅;
                 Plan.CancelFn := ctx; Plan.Finished := false; Plan.Err := None |}]>
            (plans sv);
        contexts := (contexts sv ++ [false])%list;
        workers := (workers sv ++ map (spawn E proposalId proposal ctx) files)%list;
        stream := stream sv;
        stdout := stdout sv |}).
Proof.
  intros Henv Hp Hfin. unfold confirmProposal.
  rewrite decide_False by done. rewrite Hp, Hfin. reflexivity.
Qed.

(** With one variable per iteration the closure [onError] of a goroutine
    reads the path of its own file. *)
Lemma spawn_per_iteration (E : Env) (proposalId : string) (proposal : Proposal.t)
    (ctx : nat) (filePath : string) :
  loopvar E = PerIteration →
  wErrPath (spawn E proposalId proposal ctx filePath) = filePath.
Proof. unfold spawn. simpl. by intros ->. Qed.

(** With one variable for the whole statement it reads what the variable
    holds once the statement has ended: the path of the last file. *)
Lemma spawn_per_loop (E : Env) (proposalId : string) (proposal : Proposal.t)
    (ctx : nat) (filePath : string) :
  loopvar E = PerLoop →
  wErrPath (spawn E proposalId proposal ctx filePath)
  = List.last (PlanDescription.Files (Proposal.Description proposal)) filePath.
Proof. unfold spawn. simpl. by intros ->. Qed.

(** *** The content of a file is what was sent for it *)

Lemma sent_app (path : string) (l1 l2 : list StreamMsg) :
  sent path (l1 ++ l2) = (sent path l1 ++ sent path l2)%string.
Proof.
  induction l1 as [|[chunk| |err] l1 IH]; simpl; [done| |done..].
  case_decide; [|done]. by rewrite IH, append_assoc.
Qed.

(** In a list of goroutines of distinct files, the goroutine of a file is
    found at its place, also after its status has changed. *)
Lemma find_worker_insert (path : string) (ws : list Worker) (i : nat) (w w' : Worker) :
  NoDup (wFilePath <$> ws) → ws !! i = Some w → wFilePath w' = wFilePath w →
  List.find (fun x => bool_decide (wFilePath x = path)) (<[i := w']> ws)
  = if decide (wFilePath w = path) then Some w'
    else List.find (fun x => bool_decide (wFilePath x = path)) ws.
Proof.
  revert i. induction ws as [|x ws IH]; intros i Hnd Hi Hpath; [done|].
  rewrite fmap_cons in Hnd. apply NoDup_cons in Hnd as [Hx Hnd].
  destruct i as [|i]; simpl in *.
  - injection Hi as ->. rewrite Hpath.
    case_decide; [by rewrite bool_decide_eq_true_2|by rewrite bool_decide_eq_false_2].
  - rewrite (IH i) by done.
    assert (wFilePath w ∈ wFilePath <$> ws) as Hin.
    { apply list_elem_of_fmap. exists w. split; [done|].
      by eapply list_elem_of_lookup_2. }
    case_bool_decide as Hxp; [|done].
    rewrite decide_False; [done|]. intros Heq. apply Hx. by rewrite Hxp, <- Heq.
Qed.

Lemma find_worker (ws : list Worker) (i : nat) (w : Worker) :
  NoDup (wFilePath <$> ws) → ws !! i = Some w →
  List.find (fun x => bool_decide (wFilePath x = wFilePath w)) ws = Some w.
Proof.
  intros Hnd Hi.
  pose proof (find_worker_insert (wFilePath w) ws i w w Hnd Hi eq_refl) as H.
  rewrite list_insert_id in H by done. by rewrite decide_True in H.
Qed.

Lemma pending_at (ws : list Worker) (i : nat) (w : Worker) :
  NoDup (wFilePath <$> ws) → ws !! i = Some w →
  pending (wFilePath w) ws = unsent w.
Proof. intros Hnd Hi. unfold pending. by rewrite (find_worker ws i w). Qed.

Lemma pending_insert (path : string) (ws : list Worker) (i : nat) (w : Worker)
    (st : Status) (fired : bool) :
  NoDup (wFilePath <$> ws) → ws !! i = Some w →
  pending path (<[i := set_wTimer fired (set_wStatus st w)]> ws)
  = if decide (wFilePath w = path) then unsent (set_wStatus st w) else pending path ws.
Proof.
  intros Hnd Hi. unfold pending.
  rewrite (find_worker_insert path ws i w) by done. by case_decide.
Qed.

Lemma guarded_Err (f : Plan.t → Plan.t) :
  (∀ p, Plan.Err (f p) = None → Plan.Err p = None) →
  ∀ p, Plan.Err (guarded f p) = None → Plan.Err p = None.
Proof. intros Hf p. unfold guarded. case_match; [done|apply Hf]. Qed.

Lemma mark_finished_Err (path : string) (p : Plan.t) :
  Plan.Err (mark_finished path p) = Plan.Err p.
Proof. unfold mark_finished. by case_match. Qed.

(** A failure bears on neither contents nor stream. *)
Lemma onError_bearing (w : Worker) (err : error) (sv sv0 : Server) :
  unsent w = "" → plans sv0 = plans sv → stream sv0 = stream sv →
  Bearing w sv (onError w err sv0).1 (onError w err sv0).2.
Proof.
  intros Hun Hp Hs.
  apply (Neither _ _ _ _ (guarded (record_error w err))); try done.
  - by apply guarded_keeps.
  - by apply guarded_Err.
  - simpl. by rewrite Hp.
Qed.

Lemma worker_step_bearing (ev : Event) (w : Worker) (sv sv' : Server) (st : Status) :
  worker_step ev w sv = Some (sv', st) → Bearing w sv sv' st.
Proof.
  unfold worker_step. intros H.
  destruct (wStatus w) as [| | |msg continue|] eqn:Hst, ev as [err| |[]|r|];
    try done; simpl in H.
  - (* the stream is opened *)
    unfold starting in H.
    pose proof (prints_frame (fun msg => Role msg ++ ": " ++ Text msg ++ nl)
                  (Messages (modelReq (wProposal w) (wFilePath w)))
                  (print ("Calling model for file: " ++ wFilePath w ++ nl)
                     (print ("Getting file from model: " ++ wFilePath w ++ nl) sv)))
      as (_ & Hp & _ & _ & Hs).
    cbv zeta in Hp, Hs.
    match type of Hp with plans ?x = _ => set (sv3 := x) in * end.
    change (plans sv3 = plans sv) in Hp. change (stream sv3 = stream sv) in Hs.
    destruct err as [e|]; injection H as <- <-.
    + apply onError_bearing; [by unfold unsent; rewrite Hst|done..].
    + apply (Neither _ _ _ _ id); try done; [by unfold unsent; rewrite Hst|].
      by rewrite Hp, alter_id.
  - (* the timer fires at the [select] *)
    destruct (wTimer w); [done|]. injection H as <- <-. by apply Stays.
  - (* the context is done *)
    destruct (cancelled w sv); [|done]. injection H as <- <-.
    apply (Neither _ _ _ _ id); try done; [by unfold unsent; rewrite Hst|].
    by rewrite alter_id.
  - (* the timer case *)
    destruct (wTimer w); [|done]. injection H as <- <-.
    apply onError_bearing; [by unfold unsent; rewrite Hst|done..].
  - (* the default case *)
    destruct (cancelled w sv || wTimer w); [done|]. injection H as <- <-.
    apply (Neither _ _ _ _ id); try done; [by unfold unsent; rewrite Hst|].
    by rewrite alter_id.
  - (* the timer fires during [Recv] *)
    destruct (wTimer w); [done|]. injection H as <- <-. by apply Stays.
  - (* a response *)
    assert (unsent w = "") as Hun by (by unfold unsent; rewrite Hst).
    unfold received in H.
    destruct r as [e|response].
    { injection H as <- <-. by apply onError_bearing. }
    destruct (Choices response) as [|choice rest].
    { injection H as <- <-. by apply onError_bearing. }
    destruct (decide (FinishReason choice = "")).
    + destruct (DeltaFunctionCall choice) as [call|]; injection H as <- <-.
      * by apply (Accepts _ _ _ _ (Arguments call)).
      * apply (Neither _ _ _ _ id); try done.
        simpl. by rewrite alter_id.
    + destruct (decide (FinishReason choice = FinishReasonFunctionCall)).
      * destruct (did_finish_with _ _ _); injection H as <- <-.
        all: apply (Neither _ _ _ _ (guarded (mark_finished (wFilePath w)))); try done.
        all: try (apply guarded_keeps, mark_finished_Files).
        all: apply guarded_Err; intros p; by rewrite mark_finished_Err.
      * injection H as <- <-. by apply onError_bearing.
  - (* the timer fires before the call of [onStream] *)
    destruct (wTimer w); [done|]. injection H as <- <-. by apply Stays.
  - (* the pending call of [onStream] *)
    injection H as <- <-. by apply (Sends _ _ _ _ msg continue).
Qed.
Lemma set_wStatus_same (w : Worker) : set_wStatus (wStatus w) w = w.
Proof. by destruct w. Qed.

Lemma paths_insert (ws : list Worker) (i : nat) (w : Worker) (st : Status)
    (fired : bool) :
  ws !! i = Some w →
  wFilePath <$> <[i := set_wTimer fired (set_wStatus st w)]> ws = wFilePath <$> ws.
Proof.
  intros Hi. rewrite list_fmap_insert. simpl. apply list_insert_id.
  by rewrite list_lookup_fmap, Hi.
Qed.

(** Nothing is pending among goroutines that have not started. *)
Lemma pending_spawned (E : Env) (pid : string) (proposal : Proposal.t) (ctx : nat)
    (path : string) (files : list string) :
  pending path (map (spawn E pid proposal ctx) files) = "".
Proof.
  unfold pending. induction files as [|f files IH]; [done|]. simpl.
  by case_bool_decide.
Qed.

Lemma paths_spawned (E : Env) (pid : string) (proposal : Proposal.t) (ctx : nat)
    (files : list string) :
  wFilePath <$> map (spawn E pid proposal ctx) files = files.
Proof.
  induction files as [|f files IH]; [done|].
  change (f :: (wFilePath <$> map (spawn E pid proposal ctx) files) = f :: files).
  by rewrite IH.
Qed.

End ServerFacts.

(** ** The theorems at the example server *)

Module ServerExamples.

Import Go Server Examples Scenarios ServerFacts.

Lemma fired_timer_is_reset_by_next_chunk_witness :
  ∃ sv1 sv2 w2 p',
    step (At 1 Expire) server2 = Some sv1 ∧
    wTimer <$> workers sv1 !! 1 = Some true ∧
    step (At 1 (Recv (delta "x"))) sv1 = Some sv2 ∧
    workers sv2 !! 1 = Some w2 ∧
    wStatus w2
    = Sending (MsgChunk {| PlanChunk.Path := "b.txt"; PlanChunk.Content := "x" |}) true ∧
    wTimer w2 = false ∧
    plans sv2 !! "p1" = Some p' ∧
    Plan.FileErrs p' = ∅ ∧ Plan.Err p' = None ∧
    Plan.Files p' !! "b.txt" = Some "x".
Proof.
  destruct (fired_timer_is_reset_by_next_chunk server2 1 worker_b plan_fresh
              {| Choices := [{| FinishReason := "";
                                DeltaFunctionCall :=
                                  Some {| CallName := "write"; Arguments := "x" |} |}] |}
              {| FinishReason := "";
                 DeltaFunctionCall := Some {| CallName := "write"; Arguments := "x" |} |}
              []
              {| CallName := "write"; Arguments := "x" |})
    as (sv1 & sv2 & w1 & w2 & p' & H1 & Hw1 & _ & Ht1 & H2 & Hw2 & Hst & Ht2
        & Hp' & He & Herr & Hf & _);
    [vm_compute; reflexivity | reflexivity | reflexivity | vm_compute; reflexivity
    | reflexivity | reflexivity | reflexivity |].
  exists sv1, sv2, w2, p'. rewrite Hw1. simpl. rewrite Ht1. by repeat split.
Defined.

(** The time-out is seen when the timer fires between the handling of a
    chunk and the next [select]; it then fails the file alone. *)
Example late_timeout_is_scoped :
  ∃ sv1 sv2 p',
    step (At 1 (Select CaseTimer)) server3 = Some sv1 ∧
    step (At 1 Send) sv1 = Some sv2 ∧
    plans sv2 !! "p1" = Some p' ∧
    Plan.FileErrs p' !! "b.txt" = Some "stream timeout due to inactivity" ∧
    Plan.FileErrs p' !! "a.txt" = None ∧
    contexts sv2 = [false] ∧
    workers sv2 !! 0 = workers server3 !! 0.
Proof.
  destruct (timeout_is_scoped server3 1 worker_b_late plan_x)
    as (sv1 & sv2 & H1 & H2 & (p' & Hp' & Hlive & _ & _ & _ & _ & Hother)
        & _ & _ & _ & Hc & Hw & _);
    [vm_compute; reflexivity | reflexivity | reflexivity | reflexivity
    | vm_compute; reflexivity|].
  destruct (Hlive eq_refl) as [He _].
  exists sv1, sv2, p'. split; [exact H1|]. split; [exact H2|].
  split; [exact Hp'|]. split; [exact He|].
  split; [by rewrite (Hother "a.txt")|]. split; [exact Hc|]. by apply Hw.
Qed.



Lemma file_error_recorded_not_counted_witness :
  (∃ sv1 sv2 p',
     step (At 1 (Recv (RecvErr "EOF"))) server2 = Some sv1 ∧
     step (At 1 Send) sv1 = Some sv2 ∧
     plans sv2 !! "p1" = Some p' ∧
     Plan.FileErrs p' = <["b.txt" := "Stream error: EOF"]> ∅ ∧
     Plan.Err p' = Some "Stream error: EOF" ∧ Plan.IsTerminal p' = true ∧
     Plan.FilesFinished p' = ∅ ∧ Plan.DidFinish p' = false ∧
     stream sv2 = [MsgErr "Stream error: EOF"]) ∧
  (∃ sv1 p',
     step (At 1 (Recv call_ended)) server2 = Some sv1 ∧
     plans sv1 !! "p1" = Some p' ∧
     Plan.FilesFinished p' = <["b.txt" := true]> ∅ ∧
     Plan.Finished p' = Plan.DidFinish p').
Proof.
  destruct (file_error_recorded_not_counted server2 1 worker_b plan_fresh)
    as [Hfail Hend]; [vm_compute; reflexivity | vm_compute; reflexivity|].
  split.
  - destruct (Hfail (Recv (RecvErr "EOF")) "Stream error: EOF" eq_refl)
      as (sv1 & sv2 & H1 & H2 & (p' & Hp' & Hlive & _ & Hterm & Hff & Hd & _) & Hs & _).
    destruct (Hlive eq_refl) as [He Herr].
    exists sv1, sv2, p'. by repeat split.
  - destruct (Hend {| Choices := [{| FinishReason := FinishReasonFunctionCall;
                                     DeltaFunctionCall := None |}] |} _ _
                eq_refl eq_refl eq_refl)
      as (sv1 & p' & H1 & Hp' & _ & _ & Hlive).
    destruct (Hlive eq_refl) as (Hff & _ & _ & Hfin & _).
    exists sv1, p'. by repeat split.
Defined.

(** C3 as stated fails in the scenario of the spec: [a.txt] has finished
    and [b.txt] is in error, so every expected path is finished or in error,
    and both goroutines have returned; but the plan is not marked finished,
    the completion check is false and no marker was sent; and the error was
    passed to [onStream] by the failing goroutine itself. *)
Lemma errored_path_blocks_completion :
  ∃ sv p,
    run partial_trace server1 = Some sv ∧ plans sv !! "p1" = Some p ∧
    finished_or_errored ["a.txt"; "b.txt"] p ∧
    Forall (fun w => wStatus w = Stopped) (workers sv) ∧
    Plan.Finished p = false ∧ Plan.DidFinish p = false ∧
    (MsgFinished ∉ stream sv) ∧
    MsgErr "stream timeout due to inactivity" ∈ stream sv.
Proof.
  destruct (run partial_trace server1) as [sv|] eqn:Hrun; [|by vm_compute in Hrun].
  vm_compute in Hrun. injection Hrun as <-.
  eexists _, _. split; [reflexivity|]. split; [vm_compute; reflexivity|].
  split.
  { intros path [->|[->|[]%elem_of_nil]%elem_of_cons]%elem_of_cons.
    - left. vm_compute. by eexists.
    - right. vm_compute. by eexists. }
  split; [by repeat constructor|].
  split; [reflexivity|]. split; [vm_compute; reflexivity|].
  split.
  - intros [[=]|[[=]|[[=]|[]%elem_of_nil]%elem_of_cons]%elem_of_cons]%elem_of_cons.
  - simpl. right. right. by left.
Qed.

Lemma confirmProposal_rejects_witness :
  confirmProposal server_env "nope" server0 = (Some "proposal not found", server0) ∧
  confirmProposal server_env "p2" server0 = (Some "proposal not finished", server0).
Proof.
  destruct (confirmProposal_rejects server_env "nope" server0) as [Hnone _];
    [discriminate|].
  destruct (confirmProposal_rejects server_env "p2" server0) as [_ Hunfinished];
    [discriminate|].
  split; [apply Hnone; vm_compute; reflexivity|].
  apply (Hunfinished under_way); vm_compute; reflexivity.
Defined.

(** C10 as stated fails in the test mode: the id is not registered, and
    [confirmProposal] returns no error. *)
Lemma test_mode_confirms_unknown_id :
  proposals server0 !! "nope" = None ∧
  (confirmProposal test_env "nope" server0).1 = None.
Proof. split; vm_compute; reflexivity. Qed.

(** With one loop variable for the whole [for] statement, the time-out of
    the goroutine of [a.txt] is recorded at [b.txt]. *)
Example per_loop_error_at_last_file :
  ∃ sv p,
    run [At 0 (CreateStream None); At 0 Expire; At 0 (Select CaseTimer); At 0 Send]
      (confirmProposal old_env "p1" server0).2 = Some sv ∧
    plans sv !! "p1" = Some p ∧
    Plan.FileErrs p !! "a.txt" = None ∧
    Plan.FileErrs p !! "b.txt" = Some "stream timeout due to inactivity".
Proof.
  destruct (run _ _) as [sv|] eqn:Hrun; [|by vm_compute in Hrun].
  vm_compute in Hrun. injection Hrun as <-.
  eexists _, _. split; [reflexivity|]. split; [vm_compute; reflexivity|].
  by vm_compute.
Qed.

End ServerExamples.

(** ** Sessions of the client *)

Module SessionFacts.

Import Go Client Session Strings.

Section Calls.

Context (E : Env).

(** One chunk of the reply, once the proposal id is known. *)
Lemma handler_reply_chunk p s :
  reply_chunk p → proposalId s ≠ "" →
  handler E p s
  = Ret (set_terminalHasPendingUpdate true
           (set_reply (reply s ++ Content p)
              (set_replyStarted true (set_state (Some (State p)) s)))).
Proof.
  intros [Herr Hst] Hid. unfold handler. rewrite Herr.
  destruct s as [? ? ? id started ? ? ? ? ? ? ? ? ? ? ?]; simpl in *.
  destruct (decide (id = "")) as [|_]; [done|].
  destruct Hst as [-> | ->], started; reflexivity.
Qed.

(** X1. The reply is the concatenation of the chunks of the reply, in the
    order of the calls. After the proposal id has arrived, any sequence of
    calls with chunks in the REPLYING or REVISING state returns; it appends
    the contents to [reply], in order; it reports nothing, closes nothing,
    and leaves the proposal id, the description, the file chunks and the two
    flags of completion alone. *)
Theorem reply_is_concatenation (ps : list OnStreamPlanParams) (s : Propose) :
  running s = false → queue s = [] → proposalId s ≠ "" →
  Forall reply_chunk ps →
  ∃ s', handleStream_all E ps s = Ret s' ∧
    reply s' = reply s ++ contents ps ∧
    (replyStarted s = true ∨ ps ≠ [] → replyStarted s' = true) ∧
    proposalId s' = proposalId s ∧
    stderr s' = stderr s ∧ done s' = done s ∧
    keywatchCancelled s' = keywatchCancelled s ∧
    streamFinished s' = streamFinished s ∧ filesFinished s' = filesFinished s ∧
    endedReply s' = endedReply s ∧ desc s' = desc s ∧ chunks s' = chunks s.
Proof.
  intros Hr Hq Hid Hps. revert s Hr Hq Hid.
  induction Hps as [|p ps Hp Hps IH]; intros s Hr Hq Hid; simpl.
  - exists s. rewrite append_nil_r.
    split; [done|]. split; [done|].
    split; [by intros [?|?]|]. by repeat split.
  - rewrite ClientFacts.handleStream_idle by done.
    rewrite (handler_reply_chunk p s Hp Hid). simpl.
    match goal with |- ∃ s', handleStream_all E ps ?s1 = _ ∧ _ =>
      destruct (IH s1) as (s' & Hall & Hreply & Hstart & Hid' & Herr & Hdone
                           & Hkw & Hsf & Hff & Hend & Hdesc & Hchunks); [done..|]
    end.
    exists s'. split; [exact Hall|]. simpl in *.
    split; [by rewrite Hreply, append_assoc|].
    split; [intros _; apply Hstart; by left|].
    by repeat split.
Qed.

(** *** What a call never undoes *)

Lemma Later_refl s : Later s s.
Proof.
  split; try done.
  - exists "". by rewrite append_nil_r.
  - exists []. by rewrite app_nil_r.
Qed.

Lemma Later_trans s1 s2 s3 : Later s1 s2 → Later s2 s3 → Later s1 s3.
Proof.
  intros [Hid Hrs Her Hsf Hff Hd Hk [r Hr] [e He]] [Hid' Hrs' Her' Hsf' Hff' Hd' Hk' [r' Hr'] [e' He']].
  split; auto.
  - intros Hne. rewrite Hid', Hid; auto. by rewrite Hid.
  - exists (r ++ r'). by rewrite Hr', Hr, append_assoc.
  - exists (e ++ e')%list. by rewrite He', He, app_assoc.
Qed.

Lemma handler_later p s s' : handler E p s = Ret s' → Later s s'.
Proof.
  unfold handler, finished, describing, building, onError, close_done, endReply.
  intros H.
  repeat (case_match; simplify_eq/=); try done.
  all: split; simpl; try done; try congruence.
  all: try (by exists ""; rewrite append_nil_r).
  all: try (by exists []; rewrite app_nil_r).
  all: try (by eexists).
Qed.

Lemma handleStream_later p s s' :
  running s = false → queue s = [] → handleStream E p s = Ret s' → Later s s'.
Proof.
  intros Hr Hq. rewrite ClientFacts.handleStream_idle by done.
  destruct (handler E p s) as [s1| |] eqn:Hh; simpl; [|done..].
  intros [= <-]. apply handler_later in Hh. destruct Hh. by split.
Qed.

(** X2. Whatever chunks arrive, in whatever states, a session only advances:
    after any sequence of calls that return, the proposal id, once received,
    is the one received first; the flags [replyStarted], [endedReply],
    [streamFinished], [filesFinished], the closed [done] and the cancelled
    key watcher are never taken back; and the reply and the standard error
    have only grown at their ends. *)
Theorem session_only_advances (ps : list OnStreamPlanParams) (s s' : Propose) :
  running s = false → queue s = [] →
  handleStream_all E ps s = Ret s' → Later s s'.
Proof.
  revert s. induction ps as [|p ps IH]; intros s Hr Hq; simpl.
  - intros [= <-]. apply Later_refl.
  - destruct (handleStream E p s) as [s1| |] eqn:Hh; simpl; [|done..].
    intros Hall.
    pose proof (handleStream_later p s s1 Hr Hq Hh) as H1.
    apply ClientFacts.handleStream_frame in Hh as (Hr1 & Hq1 & _); [|done].
    eapply Later_trans; [exact H1|]. by apply IH.
Qed.

(** *** The ways [done] is closed *)

(** What a returning handler has reported and closed. Either it has
    reported nothing, and [done] is as it was or has just been closed with
    both flags of completion set; or it has reported one error, cancelled the
    key watcher and closed [done], and has left the two flags alone. *)
Lemma handler_outcome p s s' :
  handler E p s = Ret s' →
  (stderr s' = stderr s ∧ keywatchCancelled s' = keywatchCancelled s ∧
   (done s' = done s ∨
    done s = false ∧ done s' = true ∧
    streamFinished s' = true ∧ filesFinished s' = true)) ∨
  (∃ err, stderr s' = (stderr s ++ [("Error: " ++ err)%string])%list ∧
     keywatchCancelled s' = true ∧ done s = false ∧ done s' = true ∧
     streamFinished s' = streamFinished s ∧ filesFinished s' = filesFinished s).
Proof.
  unfold handler, finished, describing, building, onError, close_done, endReply.
  intros H.
  repeat (case_match; simplify_eq/=); try done.
  all: first [ left; by repeat split; auto | right; eexists; by repeat split
             | left; split; [done|]; split; [done|]; right; by repeat split ].
Qed.

(** X3. The channel [done] is closed for two reasons only. When a call of
    [handleStream] returns having closed [done], either it has written one
    error to the standard error and cancelled the key watcher, or it has
    written nothing and both [streamFinished] and [filesFinished] are set. *)
Theorem done_needs_error_or_both_signals (p : OnStreamPlanParams) (s s' : Propose) :
  running s = false → queue s = [] →
  handleStream E p s = Ret s' → done s = false → done s' = true →
  (∃ err, stderr s' = (stderr s ++ [("Error: " ++ err)%string])%list ∧
          keywatchCancelled s' = true) ∨
  (stderr s' = stderr s ∧ streamFinished s' = true ∧ filesFinished s' = true).
Proof.
  intros Hr Hq. rewrite ClientFacts.handleStream_idle by done.
  destruct (handler E p s) as [s1| |] eqn:Hh; simpl; [|done..].
  intros [= <-] Hd Hd'. simpl in Hd'.
  destruct (handler_outcome p s s1 Hh)
    as [(Herr & _ & [Hsame|(_ & _ & Hsf & Hff)])|(err & Herr & Hk & _)].
  - congruence.
  - right. by repeat split.
  - left. exists err. by split.
Qed.

(** X4. No error of the stream is returned by [Propose]. When a call of
    [handleStream] returns having written to the standard error, whatever
    the route (an error chunk, a first chunk without proposal id, a plan
    state that cannot be saved, a description that does not parse, a file
    chunk that is refused, files that cannot be written), it has written one
    line, cancelled the key watcher and closed [done], which was open, and
    has set neither flag of completion; the loop of [Propose] then leaves at
    its [done] case and [Propose] returns nil. *)
Theorem reported_error_ends_session_with_nil (p : OnStreamPlanParams) (s s' : Propose) :
  running s = false → queue s = [] →
  handleStream E p s = Ret s' → stderr s' ≠ stderr s →
  (∃ err, stderr s' = (stderr s ++ [("Error: " ++ err)%string])%list) ∧
  done s = false ∧ done s' = true ∧ keywatchCancelled s' = true ∧
  streamFinished s' = streamFinished s ∧ filesFinished s' = filesFinished s ∧
  select_loop SelDone s' = Some (set_keywatchCancelled true s', Some None).
Proof.
  intros Hr Hq. rewrite ClientFacts.handleStream_idle by done.
  destruct (handler E p s) as [s1| |] eqn:Hh; simpl; [|done..].
  intros [= <-] Hne. simpl in Hne.
  destruct (handler_outcome p s s1 Hh)
    as [(Herr & _)|(err & Herr & Hk & Hd & Hd' & Hsf & Hff)]; [done|].
  split; [by exists err|]. simpl. repeat split; try done.
  unfold select_loop. simpl. by rewrite Hd'.
Qed.

(** *** A second close *)

(** X5. Closing [done] twice. Nothing guards the three [close(done)] of
    [handleStream]: a call that would return having closed [done], were the
    channel open, panics with the close of a closed channel when the channel
    is closed already. This holds whatever the route to the close: an error
    chunk or any other error the handler reports, the FINISHED marker when
    the files are finished, the chunk of the last file when the stream is
    finished. *)
Theorem second_close_panics (p : OnStreamPlanParams) (s s' : Propose) :
  running s = false → queue s = [] → done s = true →
  handleStream E p (set_done false s) = Ret s' → done s' = true →
  handleStream E p s = Panic "close of closed channel".
Proof.
  intros Hr Hq Hd. rewrite !ClientFacts.handleStream_idle by done.
  destruct (handler E p (set_done false s)) as [s1| |] eqn:Hh; simpl; [|done..].
  intros [= <-] Hd'. simpl in Hd'.
  assert (handler E p s = Panic "close of closed channel") as ->; [|done].
  revert Hh Hd'. clear Hr Hq.
  unfold handler, finished, describing, building, onError, close_done, endReply.
  destruct s as [? ? ? id started ? ended ? ? ds sf ff cs dn ? ?]; simpl in *.
  subst dn. intros H Hd'.
  repeat (case_match; simplify_eq/=); done.
Qed.

(** In particular the second of two chunks that carry an error panics,
    whatever the variables at the first. *)
Example second_error_panics (p1 p2 : OnStreamPlanParams) (s : Propose) :
  running s = false → queue s = [] → Err p1 ≠ None → Err p2 ≠ None →
  handleStream_all E [p1; p2] s = Panic "close of closed channel".
Proof.
  intros Hr Hq H1 H2. simpl. unfold handleStream at 1. rewrite Hr, Hq. simpl.
  unfold handler at 1.
  destruct (Err p1) as [e1|] eqn:He1; [|done]. destruct (Err p2) as [e2|] eqn:He2; [|done].
  unfold onError, close_done. simpl.
  destruct (done s) eqn:Hd; simpl; [done|].
  unfold handleStream. simpl. rewrite Hq. simpl.
  unfold handler. rewrite He2. reflexivity.
Qed.

(** *** Chunks out of turn *)

(** X6. A chunk of the build before any description. [desc] is a nil pointer
    until a description has been parsed; a chunk in the BUILDING state that
    is not the marker of the phase, and that [receiveFileChunk] accepts,
    reaches [desc.Files] and panics. The same holds in the DESCRIBING state
    for a payload that [json.Unmarshal] accepts and that leaves [desc] nil,
    at [desc.MadePlan]. *)
Theorem nil_description_panics (p : OnStreamPlanParams) (s : Propose) :
  running s = false → proposalId s ≠ "" → Err p = None →
  (State p = STATE_BUILDING ∧ Content p ≠ STREAM_BUILD_PHASE E ∧ desc s = None ∧
   ∃ wrote cs, receiveFileChunk E (Content p) (chunks s) = (wrote, None, cs)) ∨
  (State p = STATE_DESCRIBING ∧ Content p ≠ STREAM_DESCRIPTION_PHASE E ∧
   json_Unmarshal E (Content p) (desc s) = (None, None)) →
  handleStream E p s = Panic "nil pointer dereference".
Proof.
  intros Hr Hid Herr Hcase. unfold handleStream. rewrite Hr.
  assert (handler E p s = Panic "nil pointer dereference") as Hh.
  { unfold handler. rewrite Herr.
    destruct Hcase as [(Hst & Hc & Hdesc & wrote & cs & Hrecv)|(Hst & Hc & Hu)];
      rewrite Hst.
    - destruct s as [? ? ? id started ? ? ? ? ds ? ? ? ? ? ?]; simpl in *; subst.
      destruct (decide (id = "")) as [|_]; [done|].
      unfold building.
      destruct started; simpl;
        (destruct (decide (Content p = STREAM_BUILD_PHASE E)); [done|]);
        by rewrite Hrecv.
    - destruct s as [? ? ? id started ? ? ? ? ds ? ? ? ? ? ?]; simpl in *; subst.
      destruct (decide (id = "")) as [|_]; [done|].
      unfold describing.
      destruct started; simpl;
        (destruct (decide (Content p = STREAM_DESCRIPTION_PHASE E)); [done|]);
        by rewrite Hu. }
  destruct (queue s); simpl; by rewrite Hh.
Qed.

(** X7. The first chunk. While no proposal id has been received, a chunk
    without error is read as the proposal id, whatever its state: its
    content becomes the id and nothing else changes but the state noted, so
    that a first chunk in the REPLYING state adds nothing to the reply and a
    first chunk in the FINISHED state does not mark the stream finished. An
    empty content is the error "proposal id not sent in first chunk", and a
    plan state that cannot be written is an error too, the id being kept;
    both end the session. *)
Theorem first_chunk_is_proposal_id (p : OnStreamPlanParams) (s : Propose) :
  running s = false → queue s = [] → proposalId s = "" → Err p = None →
  done s = false →
  let s0 := set_state (Some (State p)) s in
  let failed id err :=
    Ret (set_done true
           (set_keywatchCancelled true
              (set_stderr (stderr s ++ [("Error: " ++ err)%string])%list
                 (set_proposalId id s0)))) in
  handleStream E p s
  = if decide (Content p = "") then failed "" "proposal id not sent in first chunk"
    else match savePlanState E (Content p) with
         | SaveOk => Ret (set_proposalId (Content p) s0)
         | MarshalFailed e =>
             failed (Content p) ("failed to marshal plan state: " ++ e ++ nl)
         | WriteFailed e =>
             failed (Content p) ("failed to write plan state: " ++ e ++ nl)
         end.
Proof.
  intros Hr Hq Hid Herr Hd s0 failed.
  rewrite ClientFacts.handleStream_idle by done.
  unfold handler. rewrite Herr. subst s0 failed.
  destruct s as [? ? ? id ? ? ? ? ? ? ? ? ? dn ? ?]; simpl in *; subst.
  rewrite decide_True by done.
  destruct (decide (Content p = "")) as [Hc|Hc].
  - reflexivity.
  - destruct (savePlanState E (Content p)); reflexivity.
Qed.

End Calls.

(** *** The theorems at the example client *)

Lemma reply_is_concatenation_witness :
  ∃ s', handleStream_all Examples.client_env Scenarios.hello_world
          Examples.client_described = Ret s' ∧
        reply s' = "Hello, world" ∧ done s' = false ∧ stderr s' = [].
Proof.
  destruct (reply_is_concatenation Examples.client_env Scenarios.hello_world
              Examples.client_described)
    as (s' & Hall & Hreply & _ & _ & Herr & Hdone & _);
    [reflexivity | reflexivity | discriminate
    | repeat constructor; (left + right); reflexivity |].
  exists s'. split; [exact Hall|]. split; [exact Hreply|].
  split; [exact Hdone | exact Herr].
Defined.

Lemma session_only_advances_witness :
  ∃ s', handleStream_all Examples.client_env Scenarios.short_session
          Examples.client_described = Ret s' ∧
        Later Examples.client_described s'.
Proof.
  destruct (handleStream_all Examples.client_env Scenarios.short_session
              Examples.client_described) as [s'| |] eqn:Hall.
  2,3: vm_compute in Hall; discriminate Hall.
  exists s'. split; [reflexivity|].
  exact (session_only_advances Examples.client_env Scenarios.short_session
           Examples.client_described s' eq_refl eq_refl Hall).
Defined.

Lemma done_needs_error_or_both_signals_witness :
  ∃ s', handleStream Examples.client_env (Scenarios.error_chunk "connection reset")
          Examples.client_described = Ret s' ∧
        ((∃ err, stderr s' = ["Error: " ++ err] ∧ keywatchCancelled s' = true) ∨
         (stderr s' = [] ∧ streamFinished s' = true ∧ filesFinished s' = true)).
Proof.
  destruct (handleStream Examples.client_env (Scenarios.error_chunk "connection reset")
              Examples.client_described) as [s'| |] eqn:Hcall.
  2,3: vm_compute in Hcall; discriminate Hcall.
  exists s'. split; [reflexivity|].
  apply (done_needs_error_or_both_signals Examples.client_env
           (Scenarios.error_chunk "connection reset") Examples.client_described s');
    [reflexivity | reflexivity | exact Hcall | reflexivity |].
  vm_compute in Hcall. injection Hcall as <-. reflexivity.
Defined.

Lemma reported_error_ends_session_with_nil_witness :
  ∃ s', handleStream Examples.client_env (Examples.chunk STATE_REPLYING "")
          initial = Ret s' ∧
        done s' = true ∧ keywatchCancelled s' = true ∧
        select_loop SelDone s' = Some (set_keywatchCancelled true s', Some None).
Proof.
  destruct (handleStream Examples.client_env (Examples.chunk STATE_REPLYING "")
              initial) as [s'| |] eqn:Hcall.
  2,3: vm_compute in Hcall; discriminate Hcall.
  exists s'. split; [reflexivity|].
  destruct (reported_error_ends_session_with_nil Examples.client_env
              (Examples.chunk STATE_REPLYING "") initial s')
    as (_ & _ & Hdone & Hkw & _ & _ & Hloop);
    [reflexivity | reflexivity | exact Hcall | |].
  - vm_compute in Hcall. injection Hcall as <-. discriminate.
  - split; [exact Hdone|]. split; [exact Hkw | exact Hloop].
Defined.

Lemma second_close_panics_witness :
  handleStream Examples.client_env (Scenarios.error_chunk "connection reset")
    Scenarios.client_closed
  = Panic "close of closed channel" ∧
  handleStream Examples.client_env (Examples.chunk STATE_FINISHED "")
    (set_filesFinished true Scenarios.client_closed)
  = Panic "close of closed channel".
Proof.
  split.
  - destruct (handleStream Examples.client_env (Scenarios.error_chunk "connection reset")
                (set_done false Scenarios.client_closed)) as [s'| |] eqn:Hcall.
    2,3: vm_compute in Hcall; discriminate Hcall.
    apply (second_close_panics Examples.client_env _ _ s');
      [reflexivity | reflexivity | reflexivity | exact Hcall |].
    vm_compute in Hcall. injection Hcall as <-. reflexivity.
  - destruct (handleStream Examples.client_env (Examples.chunk STATE_FINISHED "")
                (set_done false (set_filesFinished true Scenarios.client_closed)))
      as [s'| |] eqn:Hcall.
    2,3: vm_compute in Hcall; discriminate Hcall.
    apply (second_close_panics Examples.client_env _ _ s');
      [reflexivity | reflexivity | reflexivity | exact Hcall |].
    vm_compute in Hcall. injection Hcall as <-. reflexivity.
Defined.

Lemma nil_description_panics_witness :
  handleStream Examples.client_env (Examples.chunk STATE_BUILDING "a.txt")
    Scenarios.client_started
  = Panic "nil pointer dereference".
Proof.
  apply (nil_description_panics Examples.client_env);
    [reflexivity | discriminate | reflexivity |].
  left. split; [reflexivity|]. split; [discriminate|]. split; [reflexivity|].
  eexists _, _. reflexivity.
Defined.

Lemma first_chunk_is_proposal_id_witness :
  handleStream Examples.client_env (Examples.chunk STATE_FINISHED "p1") initial
  = Ret (set_proposalId "p1" (set_state (Some STATE_FINISHED) initial)) ∧
  ∃ s', handleStream Examples.client_env (Examples.chunk STATE_REPLYING "") initial
        = Ret s' ∧
        stderr s' = ["Error: proposal id not sent in first chunk"] ∧ done s' = true.
Proof.
  split.
  - exact (first_chunk_is_proposal_id Examples.client_env
             (Examples.chunk STATE_FINISHED "p1") initial
             eq_refl eq_refl eq_refl eq_refl eq_refl).
  - eexists. split.
    + exact (first_chunk_is_proposal_id Examples.client_env
               (Examples.chunk STATE_REPLYING "") initial
               eq_refl eq_refl eq_refl eq_refl eq_refl).
    + split; reflexivity.
Defined.

End SessionFacts.

(** ** The key watcher and the loop of [Propose] *)

Module KeysFacts.

Import Go Keys.

Local Open Scope list_scope.

(** Case analysis on a step that is taken. *)
Ltac step_cases H :=
  match type of H with
  | step ?ev ?s = Some _ =>
      destruct ev; simpl in H; repeat case_match; simplify_eq/=
  end.

Lemma run_snoc (trace : list Event) (ev : Event) (s : t) :
  run (trace ++ [ev]) s = run trace s ≫= step ev.
Proof.
  revert s. induction trace as [|ev' trace IH]; intros s; simpl.
  - by destruct (step ev s).
  - destruct (step ev' s) as [s1|]; simpl; [apply IH|done].
Qed.

(** Induction on the states a trace reaches. *)
Lemma run_ind (P : list Event → t → Prop) (s0 : t) :
  P [] s0 →
  (∀ trace ev s s', run trace s0 = Some s → P trace s → step ev s = Some s' →
                    P (trace ++ [ev]) s') →
  ∀ trace s, run trace s0 = Some s → P trace s.
Proof.
  intros H0 Hstep trace. induction trace as [|ev trace IH] using rev_ind; intros s.
  - by intros [= <-].
  - rewrite run_snoc. destruct (run trace s0) as [s1|] eqn:Hrun; [|done]. simpl.
    intros Hs. by eapply Hstep; [| apply IH |].
Qed.

(** X8. The send on [errChn] never blocks. The watcher sends one error at
    most and returns; so whenever it is at [errChn <- err], the channel is
    empty and the send can complete, whatever the loop does. *)
Theorem errChn_send_never_blocks (cancelled closed : bool) (trace : list Event)
    (s : t) (e : error) :
  run trace (start cancelled closed) = Some s →
  watcher s = SendingErr e →
  errChn s = [] ∧ is_Some (step SendErr s).
Proof.
  intros Hrun.
  assert (errChn s ≠ [] → watcher s = Returned) as Hinv.
  { revert trace s Hrun.
    apply (run_ind (fun _ s => errChn s ≠ [] → watcher s = Returned)); [done|].
    intros trace ev s s' _ IH Hstep.
    step_cases Hstep; try done; try (intros Hne; by specialize (IH Hne)).
    intros _. by apply IH. }
  intros Hw.
  assert (errChn s = []) as Hempty.
  { destruct (errChn s) eqn:He; [done|]. rewrite Hinv in Hw; done. }
  split; [done|]. simpl. rewrite Hw, Hempty. simpl. by eexists.
Qed.

(** X9. Keys reach [handleKeyPress] in the order typed, none lost and none
    twice, and the watcher runs at most two keys ahead of the loop: the keys
    [getUserInput] has returned are those handled, followed by the key in
    [keyChan], if any, followed by the key the watcher is about to send, if
    any. *)
Theorem keys_are_handled_in_order (cancelled closed : bool) (trace : list Event) (s : t) :
  run trace (start cancelled closed) = Some s →
  read s = handled s ++ keyChan s ++ in_flight s ∧
  (length (keyChan s) ≤ 1)%nat ∧
  (length (read s) ≤ length (handled s) + 2)%nat.
Proof.
  intros Hrun.
  assert (read s = handled s ++ keyChan s ++ in_flight s ∧
          (length (keyChan s) ≤ 1)%nat) as [Heq Hlen].
  { revert trace s Hrun.
    apply (run_ind (fun _ s => read s = handled s ++ keyChan s ++ in_flight s ∧
                               (length (keyChan s) ≤ 1)%nat)).
    { split; [done|simpl; lia]. }
    intros trace ev s s' _ [IH Hlen] Hstep. unfold in_flight in *.
    step_cases Hstep; simpl in *; rewrite ?IH.
    all: repeat match goal with H : watcher _ = _ |- _ => rewrite H in * end.
    all: repeat match goal with H : keyChan _ = _ |- _ => rewrite H in * end.
    all: simpl in *; rewrite ?app_nil_r, ?length_app in *; simpl in *.
    all: try (split; [|lia]).
    all: simplify_eq; try done.
    all: by rewrite <- ?app_assoc. }
  split; [done|]. split; [done|].
  rewrite Heq, !length_app. unfold in_flight. destruct (watcher s); simpl; lia.
Qed.

(** X10. After the context is cancelled the watcher reads one key at most:
    the one it is waiting for inside [getUserInput], since it looks at the
    context at its [select] only. From variables where the context is
    cancelled, whatever happens next, [getUserInput] returns at most one
    more key, and none when the watcher is not inside it. *)
Theorem one_key_after_cancel (trace : list Event) (s s' : t) :
  ctxDone s = true → run trace s = Some s' →
  ctxDone s' = true ∧
  (length (read s') + reads_left s' ≤ length (read s) + reads_left s)%nat.
Proof.
  revert s. induction trace as [|ev trace IH]; intros s Hc; simpl.
  - intros [= <-]. split; [done|lia].
  - destruct (step ev s) as [s1|] eqn:Hstep; [|done]. simpl. intros Hrun.
    assert (ctxDone s1 = true ∧
            (length (read s1) + reads_left s1 ≤ length (read s) + reads_left s)%nat)
      as [Hc1 Hle].
    { unfold reads_left. step_cases Hstep; simpl; rewrite ?length_app; simpl;
        repeat match goal with H : watcher _ = _ |- _ => rewrite H in * end;
        split; try done; try lia. }
    destruct (IH s1 Hc1 Hrun) as [Hc' Hle']. split; [done|lia].
Qed.

(** X11. What [Propose] returns from its loop. Once it has returned, the
    context of the watcher is cancelled; it returns nil only when [done] is
    closed; and an error it returns is one that [getUserInput] or
    [handleKeyPress] returned. *)
Theorem Propose_returns_after_cancel (cancelled closed : bool) (trace : list Event)
    (s : t) (r : option error) :
  run trace (start cancelled closed) = Some s →
  result s = Some r →
  ctxDone s = true ∧
  (r = None → done s = true) ∧
  (∀ e, r = Some e → Some e ∈ raised <$> trace).
Proof.
  intros Hrun.
  pose (Inv := fun (trace : list Event) (s : t) =>
    (∀ e, e ∈ errChn s → Some e ∈ raised <$> trace) ∧
    (∀ e, watcher s = SendingErr e → Some e ∈ raised <$> trace) ∧
    (∀ r, result s = Some r →
       ctxDone s = true ∧ (r = None → done s = true) ∧
       (∀ e, r = Some e → Some e ∈ raised <$> trace))).
  assert (Inv trace s) as (_ & _ & Hres); [|by apply Hres].
  revert trace s Hrun. apply (run_ind Inv).
  { split; [by intros e ?%elem_of_nil|]. split; [done|]. done. }
  intros trace ev s s' _ (Hch & Hw & Hres) Hstep.
  assert (∀ x, x ∈ raised <$> trace → x ∈ raised <$> trace ++ [ev]) as Hmono.
  { intros x Hx. rewrite fmap_app. apply elem_of_app. by left. }
  assert (∀ x, raised ev = x → x ∈ raised <$> trace ++ [ev]) as Hlast.
  { intros x <-. rewrite fmap_app. apply elem_of_app. right. simpl. by left. }
  unfold Inv.
  step_cases Hstep; simpl in *.
  all: repeat match goal with H : keyChan _ = _ |- _ => rewrite H in * end.
  all: repeat match goal with H : errChn _ = _ |- _ => rewrite H in * end.
  all: repeat match goal with H : result _ = _ |- _ => rewrite H in * end.
  all: split; [|split].
  all: try (intros e0 He0; apply Hmono; by eauto).
  all: try (intros r0 Hr0; destruct (Hres r0 Hr0) as (? & ? & Hraised);
            split; [done|]; split; [done|]; intros e0 He0; apply Hmono; by eauto).
  all: try done.
  - intros e0 [= <-]. by apply Hlast.
  - intros e0 [He0| ->%list_elem_of_singleton]%elem_of_app; apply Hmono; eauto.
  - intros r0 [= <-]. split; [done|]. split; [done|].
    intros e0 [= <-]. by apply Hlast.
  - intros r0 [= <-]. by repeat split.
  - intros e0 He0. apply Hmono, Hch. by right.
  - intros r0 [= <-]. split; [done|]. split; [done|].
    intros e0 [= <-]. apply Hmono, Hch. by left.
Qed.

(** X12. The watcher can be left blocked for ever. Once [Propose] has
    returned nobody receives from [keyChan]; a watcher that is at its send
    while the channel is full stays there, holding its key, whatever happens
    next. *)
Theorem watcher_stays_blocked (trace : list Event) (s s' : t) (k : Z) :
  result s ≠ None → watcher s = SendingKey k → keyChan s ≠ [] →
  run trace s = Some s' →
  watcher s' = SendingKey k ∧ keyChan s' = keyChan s ∧ read s' = read s ∧
  handled s' = handled s.
Proof.
  revert s. induction trace as [|ev trace IH]; intros s Hres Hw Hk; simpl.
  - by intros [= <-].
  - destruct (step ev s) as [s1|] eqn:Hstep; [|done]. simpl. intros Hrun.
    assert (result s1 ≠ None ∧ watcher s1 = SendingKey k ∧ keyChan s1 = keyChan s ∧
            read s1 = read s ∧ handled s1 = handled s) as (Hres1 & Hw1 & Hk1 & Hr1 & Hh1).
    { step_cases Hstep; simpl in *; try done; try congruence.
      destruct (keyChan s); simpl in *; [done|lia]. }
    destruct (IH s1) as (? & ? & ? & ?); try done; [congruence|].
    repeat split; congruence.
Qed.

(** *** The theorems at example runs *)

Lemma errChn_send_never_blocks_witness :
  ∃ s, run Scenarios.input_fails (start false false) = Some s ∧
       watcher s = SendingErr "EOF" ∧ errChn s = [] ∧ is_Some (step SendErr s).
Proof.
  destruct (run Scenarios.input_fails (start false false)) as [s|] eqn:Hrun;
    [|vm_compute in Hrun; discriminate Hrun].
  assert (watcher s = SendingErr "EOF") as Hw.
  { vm_compute in Hrun. injection Hrun as <-. reflexivity. }
  exists s. split; [reflexivity|]. split; [exact Hw|].
  exact (errChn_send_never_blocks false false Scenarios.input_fails s "EOF" Hrun Hw).
Defined.

Lemma keys_are_handled_in_order_witness :
  ∃ s, run Scenarios.three_keys (start false false) = Some s ∧
       read s = [97; 98; 99]%Z ∧ handled s = [97%Z] ∧
       read s = handled s ++ keyChan s ++ in_flight s.
Proof.
  destruct (run Scenarios.three_keys (start false false)) as [s|] eqn:Hrun;
    [|vm_compute in Hrun; discriminate Hrun].
  assert (read s = [97; 98; 99]%Z ∧ handled s = [97%Z]) as [Hread Hhandled].
  { vm_compute in Hrun. injection Hrun as <-. split; reflexivity. }
  exists s. split; [reflexivity|]. split; [exact Hread|]. split; [exact Hhandled|].
  exact (proj1 (keys_are_handled_in_order false false Scenarios.three_keys s Hrun)).
Defined.

Lemma one_key_after_cancel_witness :
  ∃ s', run Scenarios.late_key Scenarios.keys_cancelled = Some s' ∧
        read s' = [97%Z] ∧ watcher s' = Returned ∧
        (length (read s') + reads_left s'
         ≤ length (read Scenarios.keys_cancelled) + reads_left Scenarios.keys_cancelled)%nat.
Proof.
  destruct (run Scenarios.late_key Scenarios.keys_cancelled) as [s'|] eqn:Hrun;
    [|vm_compute in Hrun; discriminate Hrun].
  assert (read s' = [97%Z] ∧ watcher s' = Returned) as [Hread Hw].
  { vm_compute in Hrun. injection Hrun as <-. split; reflexivity. }
  exists s'. split; [reflexivity|]. split; [exact Hread|]. split; [exact Hw|].
  exact (proj2 (one_key_after_cancel Scenarios.late_key Scenarios.keys_cancelled s'
                  eq_refl Hrun)).
Defined.

Lemma Propose_returns_after_cancel_witness :
  ∃ s, run Scenarios.input_error_returned (start false false) = Some s ∧
       result s = Some (Some "EOF") ∧ ctxDone s = true ∧
       Some "EOF" ∈ raised <$> Scenarios.input_error_returned.
Proof.
  destruct (run Scenarios.input_error_returned (start false false)) as [s|] eqn:Hrun;
    [|vm_compute in Hrun; discriminate Hrun].
  assert (result s = Some (Some "EOF")) as Hres.
  { vm_compute in Hrun. injection Hrun as <-. reflexivity. }
  exists s. split; [reflexivity|]. split; [exact Hres|].
  destruct (Propose_returns_after_cancel false false Scenarios.input_error_returned s
              (Some "EOF") Hrun Hres) as (Hc & _ & Hraised).
  split; [exact Hc|]. apply Hraised. reflexivity.
Defined.

Lemma watcher_stays_blocked_witness :
  ∃ s', run [CancelKeywatch; CloseDone] (set_done false Scenarios.keys_abandoned) = Some s' ∧
        watcher s' = SendingKey 98 ∧ keyChan s' = [97%Z].
Proof.
  destruct (run [CancelKeywatch; CloseDone] (set_done false Scenarios.keys_abandoned))
    as [s'|] eqn:Hrun; [|vm_compute in Hrun; discriminate Hrun].
  exists s'. split; [reflexivity|].
  destruct (watcher_stays_blocked [CancelKeywatch; CloseDone]
              (set_done false Scenarios.keys_abandoned) s' 98)
    as (Hw & Hk & _); [discriminate | reflexivity | discriminate | exact Hrun |].
  split; [exact Hw | exact Hk].
Defined.

End KeysFacts.

(** ** What the goroutines leave behind *)

Module OutcomeFacts.

Import Go Server Outcome Strings.

(** The mutation of a step. *)
Lemma worker_step_mutation (ev : Event) (w : Worker) (sv sv' : Server) (st : Status) :
  worker_step ev w sv = Some (sv', st) →
  ∃ f, Mutation w f ∧ plans sv' = alter f (wProposalId w) (plans sv).
Proof.
  intros H.
  assert (plans sv = alter id (wProposalId w) (plans sv)) as Hid by (by rewrite alter_id).
  unfold worker_step in H.
  destruct (wStatus w) as [| | |msg continue|], ev as [err| |[]|r|];
    try done; simpl in H.
  - unfold starting in H.
    pose proof (ServerFacts.prints_frame (fun msg => Role msg ++ ": " ++ Text msg ++ nl)
                  (Messages (modelReq (wProposal w) (wFilePath w)))
                  (print ("Calling model for file: " ++ wFilePath w ++ nl)
                     (print ("Getting file from model: " ++ wFilePath w ++ nl) sv)))
      as (_ & Hp & _ & _ & _).
    cbv zeta in Hp.
    match type of Hp with plans ?x = _ => set (sv3 := x) in * end.
    change (plans sv3 = plans sv) in Hp.
    destruct err as [e|]; injection H as <- <-.
    + eexists. split; [apply (MutError w e)|].
      unfold onError, Update. cbn [fst plans set_plans print set_stdout].
      by rewrite Hp.
    + exists id. split; [constructor|]. by rewrite Hp.
  - destruct (wTimer w); [done|]. injection H as <- <-. exists id. split; [constructor|done].
  - destruct (cancelled w sv); [|done]. injection H as <- <-.
    exists id. split; [constructor|done].
  - destruct (wTimer w); [|done]. injection H as <- <-.
    eexists. split; [apply (MutError w "stream timeout due to inactivity")|done].
  - destruct (cancelled w sv || wTimer w); [done|]. injection H as <- <-.
    exists id. split; [constructor|done].
  - destruct (wTimer w); [done|]. injection H as <- <-. exists id. split; [constructor|done].
  - unfold received in H.
    destruct r as [e|response].
    { injection H as <- <-. eexists. split; [apply (MutError w ("Stream error: " ++ e))|done]. }
    destruct (Choices response) as [|choice rest].
    { injection H as <- <-. eexists. split; [apply (MutError w "Stream error: no choices")|done]. }
    destruct (decide (FinishReason choice = "")).
    + destruct (DeltaFunctionCall choice) as [call|]; injection H as <- <-.
      * eexists. split; [apply (MutAppend w (Arguments call))|done].
      * exists id. split; [constructor|done].
    + destruct (decide (FinishReason choice = FinishReasonFunctionCall)).
      * destruct (did_finish_with _ _ _); injection H as <- <-.
        all: eexists; split; [apply (MutFinished w)|done].
      * injection H as <- <-. eexists.
        split; [apply (MutError w ("Stream finished without 'write' function call. Reason: "
                                   ++ FinishReason choice))|done].
  - destruct (wTimer w); [done|]. injection H as <- <-. exists id. split; [constructor|done].
  - injection H as <- <-. exists id. split; [constructor|done].
Qed.

(** What a mutation leaves alone: the identity of the plan, the number of
    files, the cancel function, and every entry of the contents and of the
    finished map at the path of another file. *)
Lemma mutation_frame (w : Worker) (f : Plan.t → Plan.t) (p : Plan.t) :
  Mutation w f →
  Plan.ProposalId (f p) = Plan.ProposalId p ∧ Plan.NumFiles (f p) = Plan.NumFiles p ∧
  Plan.CancelFn (f p) = Plan.CancelFn p ∧
  (∀ path, path ≠ wFilePath w →
     Plan.Files (f p) !! path = Plan.Files p !! path ∧
     Plan.FilesFinished (f p) !! path = Plan.FilesFinished p !! path) ∧
  (∀ path, path ≠ wErrPath w → Plan.FileErrs (f p) !! path = Plan.FileErrs p !! path).
Proof.
  intros [|content| |err]; unfold guarded; simpl; try done.
  all: destruct (Plan.IsTerminal p); [done|]; simpl.
  - repeat split; try done. by rewrite lookup_insert_ne.
  - unfold mark_finished. case_match; simpl; repeat split; try done.
    all: by rewrite lookup_insert_ne.
  - repeat split; try done. intros path Hne. by rewrite lookup_insert_ne.
Qed.

(** X13. A goroutine works on its own file. A step of the goroutine of a
    file changes neither the registry of proposals nor any context (no
    failure cancels the others), nor any other goroutine, nor the plan of
    another proposal; it registers and removes no plan; in the plan of its
    proposal it leaves the identity, the number of files and the cancel
    function as they were, and the content and the finished mark of every
    other file; and it calls [onStream] once at most. *)
Theorem goroutine_step_is_local (sv sv' : Server) (i : nat) (ev : Event) (w : Worker) :
  workers sv !! i = Some w → step (At i ev) sv = Some sv' →
  proposals sv' = proposals sv ∧ contexts sv' = contexts sv ∧
  length (workers sv') = length (workers sv) ∧
  (∀ j, j ≠ i → workers sv' !! j = workers sv !! j) ∧
  (∀ pid, pid ≠ wProposalId w → plans sv' !! pid = plans sv !! pid) ∧
  (∀ pid, is_Some (plans sv' !! pid) ↔ is_Some (plans sv !! pid)) ∧
  (∀ p, plans sv !! wProposalId w = Some p →
     ∃ p', plans sv' !! wProposalId w = Some p' ∧
       Plan.ProposalId p' = Plan.ProposalId p ∧ Plan.NumFiles p' = Plan.NumFiles p ∧
       Plan.CancelFn p' = Plan.CancelFn p ∧
       ∀ path, path ≠ wFilePath w →
         Plan.Files p' !! path = Plan.Files p !! path ∧
         Plan.FilesFinished p' !! path = Plan.FilesFinished p !! path) ∧
  (stream sv' = stream sv ∨ ∃ msg, stream sv' = (stream sv ++ [msg])%list).
Proof.
  intros Hi Hstep. unfold step in Hstep. rewrite Hi in Hstep. simpl in Hstep.
  destruct (worker_step ev w sv) as [[sv1 st]|] eqn:Hws; [|done]. simpl in Hstep.
  injection Hstep as <-. simpl.
  destruct (ServerFacts.worker_step_frame ev w sv sv1 st Hws) as (Hp & Hc & Hw).
  destruct (worker_step_mutation ev w sv sv1 st Hws) as (f & Hf & Hplans).
  rewrite Hw, Hplans.
  split; [done|]. split; [done|]. split; [by rewrite length_insert|].
  split; [intros j Hne; by rewrite list_lookup_insert_ne|].
  split; [intros pid Hne; by rewrite lookup_alter_ne|].
  split.
  { intros pid. destruct (decide (wProposalId w = pid)) as [<-|Hne].
    - rewrite lookup_alter_eq. by rewrite fmap_is_Some.
    - by rewrite lookup_alter_ne. }
  split.
  { intros p Hpl. exists (f p). rewrite lookup_alter_eq, Hpl. split; [done|].
    destruct (mutation_frame w f p Hf) as (? & ? & ? & Hpaths & _).
    split; [done|]. split; [done|]. split; [done|]. exact Hpaths. }
  pose proof (ServerFacts.worker_step_bearing ev w sv sv1 st Hws) as Hb.
  destruct Hb as [content _ _ Hs _|msg k _ _ Hs _|g _ _ _ _ Hs _|_ Hs _].
  - by left.
  - right. by exists msg.
  - by left.
  - by left.
Qed.

(** *** A proposal without files *)

Lemma idle_run (trace : list Action) (sv sv' : Server) :
  workers sv = [] → run trace sv = Some sv' →
  workers sv' = [] ∧ stream sv' = stream sv ∧ stdout sv' = stdout sv ∧
  plans sv' = plans sv ∧ proposals sv' = proposals sv.
Proof.
  revert sv. induction trace as [|a trace IH]; intros sv Hw; simpl.
  - by intros [= <-].
  - destruct (step a sv) as [sv1|] eqn:Hstep; [|done]. simpl. intros Hrun.
    destruct a as [i ev|ctx]; simpl in Hstep.
    + by rewrite Hw, lookup_nil in Hstep.
    + case_decide; [|done]. injection Hstep as <-.
      change (workers (set_contexts (<[ctx:=true]> (contexts sv)) sv) = []) in Hw.
      by destruct (IH _ Hw Hrun) as (? & ? & ? & ? & ?).
Qed.

(** X14. A finished proposal whose description lists no file is confirmed
    without error: its plan is registered, for zero files, and no goroutine
    is started. Nothing ever happens to it afterwards: whatever the process
    does next, [onStream] is not called, not even with the marker
    [shared.STREAM_FINISHED], nothing is printed, and the plan is never
    marked finished. *)
Theorem no_files_nothing_sent (E : Env) (pid : string) (sv0 sv : Server)
    (proposal : Proposal.t) (trace : list Action) :
  GOENV E ≠ "test" → workers sv0 = [] →
  proposals sv0 !! pid = Some proposal → Proposal.IsFinished proposal = true →
  PlanDescription.Files (Proposal.Description proposal) = [] →
  run trace (confirmProposal E pid sv0).2 = Some sv →
  (confirmProposal E pid sv0).1 = None ∧
  workers sv = [] ∧ stream sv = stream sv0 ∧ stdout sv = stdout sv0 ∧
  ∃ plan, plans sv !! pid = Some plan ∧ Plan.NumFiles plan = 0 ∧
          Plan.Finished plan = false ∧ Plan.Err plan = None.
Proof.
  intros Henv Hw Hp Hfin Hfiles.
  rewrite (ServerFacts.confirmProposal_starts E pid sv0 proposal) by done.
  rewrite Hfiles, Hw. simpl. intros Hrun.
  apply idle_run in Hrun as (Hw' & Hs & Ho & Hpl & _); [|done]. simpl in *.
  split; [done|]. split; [done|]. split; [done|]. split; [done|].
  eexists. rewrite Hpl, lookup_insert_eq. by repeat split.
Qed.

(** *** One last message for each goroutine *)

Lemma count_insert {A} (f : A → bool) (l : list A) (i : nat) (x y : A) :
  l !! i = Some x →
  (length (List.filter f (<[i := y]> l)) + (if f x then 1 else 0)
   = length (List.filter f l) + (if f y then 1 else 0))%nat.
Proof.
  revert i. induction l as [|a l IH]; intros i Hi; [done|].
  destruct i as [|i]; simpl in *.
  - injection Hi as ->. destruct (f x), (f y); simpl; lia.
  - specialize (IH i Hi). destruct (f a); simpl; lia.
Qed.

Lemma filter_snoc {A} (f : A → bool) (l : list A) (x : A) :
  List.filter f (l ++ [x]) = (List.filter f l ++ if f x then [x] else [])%list.
Proof.
  induction l as [|a l IH]; simpl.
  - by destruct (f x).
  - rewrite IH. by destruct (f a).
Qed.

(** Where a step takes a goroutine. A goroutine that has returned takes no
    step. A step either is the firing of the timer, which leaves the
    goroutine where it is; or the pending call of [onStream], after which
    the goroutine is at its [select] or has returned; or it calls [onStream]
    not, and a call it leaves pending is followed by another round exactly
    when it passes a chunk. *)
Lemma worker_step_status (ev : Event) (w : Worker) (sv sv' : Server) (st : Status) :
  worker_step ev w sv = Some (sv', st) →
  returned w = false ∧
  ((st = wStatus w ∧ stream sv' = stream sv) ∨
   (∃ msg k, wStatus w = Sending msg k ∧ stream sv' = (stream sv ++ [msg])%list ∧
             st = if k then Selecting else Stopped) ∨
   (stream sv' = stream sv ∧
    ∀ msg k, st = Sending msg k → k = negb (terminal msg))).
Proof.
  intros H.
  pose proof (ServerFacts.worker_step_bearing ev w sv sv' st H) as Hb.
  assert (returned w = false) as Hret.
  { unfold worker_step in H. unfold returned.
    by destruct (wStatus w). }
  split; [done|].
  assert (stream sv' = stream sv →
          ∀ msg k, st = Sending msg k → st = wStatus w ∨ k = negb (terminal msg)) as Hk.
  { intros _ msg k ->. unfold worker_step in H.
    destruct (wStatus w) as [| | |msg0 k0|], ev as [err| |[]|r|];
      try done; simpl in H.
    - unfold starting, onError in H. destruct err; by simplify_eq/=; right.
    - by case_match.
    - by case_match.
    - case_match; [|done]. unfold onError in H. by simplify_eq/=; right.
    - by case_match.
    - by case_match.
    - unfold received, onError in H.
      repeat (case_match; simplify_eq/=); by right.
    - case_match; [done|]. simplify_eq/=. by left.
    - by case_match. }
  destruct Hb as [content _ -> Hs _|msg k Hst -> Hs _|g _ _ _ _ Hs _| -> Hs _].
  - right; right. split; [done|]. by intros msg k [= <- <-].
  - right; left. by exists msg, k.
  - destruct st as [| | |msg k|]; try (right; right; by split).
    destruct (Hk Hs msg k eq_refl) as [Heq|Heq].
    + left. by split.
    + right; right. split; [done|]. by intros msg' k' [= <- <-].
  - left. by split.
Qed.

Lemma orderly_step (a : Action) (sv sv' : Server) :
  Orderly sv →
  (length (List.filter terminal (stream sv))
   ≤ length (List.filter returned (workers sv)))%nat →
  step a sv = Some sv' →
  Orderly sv' ∧
  (length (List.filter terminal (stream sv'))
   ≤ length (List.filter returned (workers sv')))%nat.
Proof.
  intros Hord Hle Hstep.
  destruct a as [i ev|ctx]; simpl in Hstep.
  2:{ case_decide; [|done]. by injection Hstep as <-. }
  destruct (workers sv !! i) as [w|] eqn:Hi; [|done]. simpl in Hstep.
  destruct (worker_step ev w sv) as [[sv1 st]|] eqn:Hws; [|done]. simpl in Hstep.
  injection Hstep as <-.
  destruct (ServerFacts.worker_step_frame ev w sv sv1 st Hws) as (_ & _ & Hw1).
  destruct (worker_step_status ev w sv sv1 st Hws) as [Hret Hcases].
  pose proof (proj1 (Forall_lookup _ _) Hord i w Hi) as Hw. simpl in Hw.
  unfold Orderly. simpl. rewrite Hw1.
  pose proof (count_insert returned (workers sv) i w
                (set_wTimer (timer_after ev w) (set_wStatus st w)) Hi) as Hcount.
  rewrite Hret in Hcount.
  change (returned (set_wTimer (timer_after ev w) (set_wStatus st w)))
    with (match st with Stopped => true | _ => false end) in Hcount.
  destruct Hcases as [[-> Hs]|[(msg & k & Hst & Hs & ->)|[Hs Hk]]].
  - split; [apply Forall_insert; [done|]; simpl; exact Hw|].
    rewrite Hs. destruct (wStatus w); lia.
  - split; [apply Forall_insert; [done|]; simpl; by destruct k|].
    rewrite Hs, filter_snoc, length_app.
    specialize (Hw msg k Hst). subst k.
    destruct (terminal msg); simpl in *; lia.
  - split; [apply Forall_insert; [done|]; simpl; exact Hk|].
    rewrite Hs. destruct st; lia.
Qed.

(** X15. Each goroutine ends its calls of [onStream] with one error or one
    marker at most. After [confirmProposal] of a finished proposal, in a
    process that runs no other goroutine, and after any steps: there is one
    goroutine per file of the description; the errors and markers passed to
    [onStream] are no more than the goroutines that have returned, hence no
    more than the files; and a goroutine that has returned takes no further
    step. *)
Theorem one_last_message_per_goroutine (E : Env) (pid : string) (sv0 sv : Server)
    (proposal : Proposal.t) (trace : list Action) :
  GOENV E ≠ "test" → workers sv0 = [] → stream sv0 = [] →
  proposals sv0 !! pid = Some proposal → Proposal.IsFinished proposal = true →
  run trace (confirmProposal E pid sv0).2 = Some sv →
  length (workers sv) = length (PlanDescription.Files (Proposal.Description proposal)) ∧
  (length (List.filter terminal (stream sv))
   ≤ length (List.filter returned (workers sv)))%nat ∧
  (length (List.filter returned (workers sv)) ≤ length (workers sv))%nat ∧
  (∀ i w ev, workers sv !! i = Some w → returned w = true → step (At i ev) sv = None).
Proof.
  intros Henv Hw Hs Hp Hfin.
  rewrite (ServerFacts.confirmProposal_starts E pid sv0 proposal) by done.
  rewrite Hw, Hs. simpl.
  set (files := PlanDescription.Files (Proposal.Description proposal)).
  match goal with |- run trace ?x = _ → _ => set (sv1 := x) end.
  assert (Orderly sv1) as Hord1.
  { unfold Orderly, sv1. simpl. apply Forall_map, Forall_true. by intros f msg k. }
  assert (length (List.filter terminal (stream sv1))
          ≤ length (List.filter returned (workers sv1)))%nat as Hle1.
  { simpl. lia. }
  assert (length (workers sv1) = length files) as Hlen1.
  { simpl. by rewrite length_map. }
  clearbody sv1. revert sv1 Hord1 Hle1 Hlen1.
  induction trace as [|a trace IH]; intros sv1 Hord1 Hle1 Hlen1; simpl.
  - intros [= <-]. split; [done|]. split; [done|].
    split; [apply List.filter_length_le|].
    intros i w ev Hi Hret. unfold step. rewrite Hi. simpl.
    destruct (worker_step ev w sv1) as [[sv2 st]|] eqn:Hws; [|done].
    apply worker_step_status in Hws as [Hret' _]. congruence.
  - destruct (step a sv1) as [sv2|] eqn:Hstep; [|done]. simpl.
    destruct (orderly_step a sv1 sv2 Hord1 Hle1 Hstep) as [Hord2 Hle2].
    apply IH; try done.
    destruct a as [i ev|ctx].
    + unfold step in Hstep.
      destruct (workers sv1 !! i) as [w|] eqn:Hi; [|done]. simpl in Hstep.
      destruct (worker_step ev w sv1) as [[sv3 st]|] eqn:Hws; [|done].
      destruct (ServerFacts.worker_step_frame ev w sv1 sv3 st Hws) as (_ & _ & Hw3).
      simpl in Hstep. injection Hstep as <-. simpl. by rewrite length_insert, Hw3.
    + simpl in Hstep. case_decide; [|done]. by injection Hstep as <-.
Qed.

(** *** The plan stays within the files of the description *)

(** The entries a mutation adds are at the path of the goroutine, or at the
    path its closure [onError] reads. *)
Lemma mutation_entries (w : Worker) (f : Plan.t → Plan.t) (p : Plan.t) (path : string) :
  Mutation w f →
  (is_Some (Plan.Files (f p) !! path) →
   is_Some (Plan.Files p !! path) ∨ path = wFilePath w) ∧
  (is_Some (Plan.FilesFinished (f p) !! path) →
   is_Some (Plan.FilesFinished p !! path) ∨ path = wFilePath w) ∧
  (is_Some (Plan.FileErrs (f p) !! path) →
   is_Some (Plan.FileErrs p !! path) ∨ path = wErrPath w).
Proof.
  intros [|content| |err]; unfold guarded; simpl.
  all: try (destruct (Plan.IsTerminal p); [by repeat split; left|]; simpl).
  - by repeat split; left.
  - split; [|by split; left].
    destruct (decide (wFilePath w = path)) as [->|Hne]; [by right|].
    rewrite lookup_insert_ne by done. by left.
  - unfold mark_finished. case_match; simpl.
    all: split; [by left|]; split; [|by left].
    all: destruct (decide (wFilePath w = path)) as [->|Hne]; [by right|].
    all: rewrite lookup_insert_ne by done; by left.
  - split; [by left|]. split; [by left|].
    destruct (decide (wErrPath w = path)) as [->|Hne]; [by right|].
    rewrite lookup_insert_ne by done. by left.
Qed.

Lemma within_step (pid : string) (files : list string) (a : Action) (sv sv' : Server) :
  Within pid files sv → step a sv = Some sv' → Within pid files sv'.
Proof.
  intros [[plan Hplan] Hmaps Hws] Hstep.
  destruct a as [i ev|ctx]; simpl in Hstep.
  2:{ case_decide; [|done]. injection Hstep as <-. split; eauto. }
  destruct (workers sv !! i) as [w|] eqn:Hi; [|done]. simpl in Hstep.
  destruct (worker_step ev w sv) as [[sv1 st]|] eqn:Hstp; [|done]. simpl in Hstep.
  injection Hstep as <-.
  destruct (ServerFacts.worker_step_frame ev w sv sv1 st Hstp) as (_ & _ & Hw1).
  destruct (worker_step_mutation ev w sv sv1 st Hstp) as (f & Hf & Hplans).
  destruct (proj1 (Forall_lookup _ _) Hws i w Hi) as (Hpid & Hpath & Herr).
  split; simpl.
  - exists (f plan). by rewrite Hplans, Hpid, lookup_alter_eq, Hplan.
  - intros plan'. rewrite Hplans, Hpid, lookup_alter_eq, Hplan. intros [= <-].
    destruct (Hmaps plan Hplan) as (Hid & Hnum & HF & HFF & HFE).
    destruct (mutation_frame w f plan Hf) as (Hid' & Hnum' & _).
    split; [congruence|]. split; [congruence|].
    split; [|split]; intros path Hsome.
    all: destruct (mutation_entries w f plan path Hf) as (H1 & H2 & H3).
    + destruct (H1 Hsome) as [?| ->]; auto.
    + destruct (H2 Hsome) as [?| ->]; auto.
    + destruct (H3 Hsome) as [?| ->]; auto.
  - rewrite Hw1. apply Forall_insert; [done|]. by simpl.
Qed.

Lemma last_in (files : list string) (d : string) : d ∈ files → List.last files d ∈ files.
Proof.
  induction files as [|f files IH]; [by intros ?%elem_of_nil|].
  intros _. destruct files as [|g files]; [by left|].
  right. change (List.last (g :: files) d ∈ g :: files).
  destruct (decide (d ∈ g :: files)) as [Hin|Hout]; [by apply IH|].
  clear IH. revert g Hout. induction files as [|h files IH]; intros g Hout; [by left|].
  right. apply IH. intros Hin. apply Hout. by right.
Qed.

Lemma within_confirmed (E : Env) (pid : string) (sv : Server) (proposal : Proposal.t) :
  GOENV E ≠ "test" → workers sv = [] →
  proposals sv !! pid = Some proposal → Proposal.IsFinished proposal = true →
  Within pid (PlanDescription.Files (Proposal.Description proposal))
    (confirmProposal E pid sv).2.
Proof.
  intros Henv Hw Hp Hfin.
  rewrite (ServerFacts.confirmProposal_starts E pid sv proposal) by done.
  rewrite Hw. set (files := PlanDescription.Files (Proposal.Description proposal)).
  split; simpl.
  - rewrite lookup_insert_eq. by eexists.
  - intros plan. rewrite lookup_insert_eq. intros [= <-]. simpl.
    split; [done|]. split; [done|].
    by repeat split; intros path [x Hx]; rewrite lookup_empty in Hx.
  - apply Forall_forall. intros w [f [-> Hf]]%list_elem_of_fmap. simpl.
    split; [done|]. split; [done|].
    unfold captured. fold files. destruct (loopvar E); [done|]. by apply last_in.
Qed.

(** X16. Whatever the goroutines do, and whichever variable their closures
    [onError] read, the plan holds entries for files of the description
    only. After [confirmProposal] of a finished proposal, in a process that
    runs no other goroutine, and after any steps: the plan of the proposal
    is registered under its id with the number of files of the description,
    and its contents, its finished map and its error map have entries at
    paths of the description only. *)
Theorem plan_holds_described_paths_only (E : Env) (pid : string) (sv0 sv : Server)
    (proposal : Proposal.t) (trace : list Action) :
  GOENV E ≠ "test" → workers sv0 = [] →
  proposals sv0 !! pid = Some proposal → Proposal.IsFinished proposal = true →
  run trace (confirmProposal E pid sv0).2 = Some sv →
  let files := PlanDescription.Files (Proposal.Description proposal) in
  ∃ plan, plans sv !! pid = Some plan ∧
    Plan.ProposalId plan = pid ∧ Plan.NumFiles plan = length files ∧
    (∀ path, is_Some (Plan.Files plan !! path) → path ∈ files) ∧
    (∀ path, is_Some (Plan.FilesFinished plan !! path) → path ∈ files) ∧
    (∀ path, is_Some (Plan.FileErrs plan !! path) → path ∈ files).
Proof.
  intros Henv Hw Hp Hfin Hrun files.
  pose proof (within_confirmed E pid sv0 proposal Henv Hw Hp Hfin) as Hin.
  fold files in Hin.
  revert Hin Hrun. generalize (confirmProposal E pid sv0).2.
  induction trace as [|a trace IH]; intros sv1 Hin; simpl.
  - intros [= <-]. destruct Hin as [[plan Hplan] Hmaps _].
    exists plan. split; [done|]. by apply Hmaps.
  - destruct (step a sv1) as [sv2|] eqn:Hstep; [|done]. simpl.
    apply IH. by eapply within_step.
Qed.

(** *** Confirming again *)

Lemma worker_step_enabled_cancelled (ev : Event) (w : Worker) (sv sv' : Server) :
  cancelled w sv' = cancelled w sv →
  is_Some (worker_step ev w sv') ↔ is_Some (worker_step ev w sv).
Proof.
  intros Hc. unfold worker_step. rewrite Hc.
  destruct (wStatus w), ev as [err| |[]|r|]; try done.
  all: repeat case_match; try done.
  all: split; intros _; by eexists.
Qed.

Lemma cancelled_new_context (w : Worker) (l : list bool) :
  bool_decide ((l ++ [false])%list !! wCtx w = Some true)
  = bool_decide (l !! wCtx w = Some true).
Proof.
  apply bool_decide_ext.
  destruct (decide (wCtx w < length l)) as [Hlt|Hge].
  - by rewrite lookup_app_l.
  - rewrite lookup_app_r by lia. rewrite (lookup_ge_None_2 l) by lia.
    destruct (wCtx w - length l) as [|n]; simpl; [done|]. by rewrite lookup_nil.
Qed.

(** X17. [confirmProposal] does not look for a plan of the same proposal.
    When the proposal was confirmed before, the plan registered then is
    replaced by a fresh one, so that the contents, finished marks and errors
    gathered so far are dropped; no context is cancelled; the goroutines of
    the first confirmation are all still there, where they were, and can
    take the steps they could take; and since they find the plan by the id
    of the proposal, the next delta one of them receives starts the content
    of its file in the new plan. *)
Theorem reconfirmation_restarts (E : Env) (pid : string) (sv : Server)
    (proposal : Proposal.t) (old : Plan.t) :
  GOENV E ≠ "test" → proposals sv !! pid = Some proposal →
  Proposal.IsFinished proposal = true → plans sv !! pid = Some old →
  let sv' := (confirmProposal E pid sv).2 in
  let files := PlanDescription.Files (Proposal.Description proposal) in
  (confirmProposal E pid sv).1 = None ∧
  plans sv' !! pid
  = Some {| Plan.ProposalId := pid; Plan.NumFiles := length files;
            Plan.Files := ∅; Plan.FileErrs := ∅; Plan.FilesFinished := ∅;
            Plan.CancelFn := length (contexts sv); Plan.Finished := false;
            Plan.Err := None |} ∧
  contexts sv' = (contexts sv ++ [false])%list ∧
  length (workers sv') = (length (workers sv) + length files)%nat ∧
  (∀ i w, workers sv !! i = Some w →
     workers sv' !! i = Some w ∧
     (∀ ev, is_Some (step (At i ev) sv') ↔ is_Some (step (At i ev) sv)) ∧
     (∀ response choice rest call,
        wProposalId w = pid → wStatus w = Receiving →
        Choices response = choice :: rest → FinishReason choice = "" →
        DeltaFunctionCall choice = Some call →
        ∃ sv'' plan,
          step (At i (Recv (RecvOk response))) sv' = Some sv'' ∧
          plans sv'' !! pid = Some plan ∧
          Plan.Files plan = {[ wFilePath w := Arguments call ]})).
Proof.
  intros Henv Hp Hfin Hold sv' files. subst sv'.
  rewrite (ServerFacts.confirmProposal_starts E pid sv proposal) by done.
  fold files. cbn [fst snd].
  match goal with |- _ ∧ plans ?x !! _ = _ ∧ _ => set (sv' := x) end.
  split; [done|]. split; [by simpl; rewrite lookup_insert_eq|]. split; [done|].
  split; [by simpl; rewrite length_app, length_map|].
  intros i w Hi.
  assert (workers sv' !! i = Some w) as Hi'.
  { simpl. rewrite lookup_app_l; [done|]. by eapply lookup_lt_Some. }
  split; [done|]. split.
  - intros ev. rewrite !ServerFacts.step_enabled. rewrite Hi, Hi'.
    split; intros (w0 & [= <-] & Hen); exists w; (split; [done|]).
    all: eapply worker_step_enabled_cancelled; [|exact Hen].
    all: unfold cancelled; simpl; by rewrite cancelled_new_context.
  - intros response choice rest call Hpid Hst Hch Hfr Hcall.
    eexists _, _. split.
    { eapply ServerFacts.step_at; [exact Hi'|].
      unfold worker_step, received. rewrite Hst, Hch.
      rewrite decide_True by done. rewrite Hcall. reflexivity. }
    simpl. rewrite Hpid, lookup_alter_eq, lookup_insert_eq. simpl.
    split; [reflexivity|]. simpl. rewrite lookup_empty. simpl.
    by rewrite insert_empty.
Qed.

(** *** Cancellation *)

(** The context of a confirmed proposal: the plan holds its cancel
    function, every goroutine watches it, and it is among the contexts
    made. *)
Lemma context_step (pid : string) (ctx : nat) (a : Action) (sv sv' : Server) :
  (∃ plan, plans sv !! pid = Some plan ∧ Plan.CancelFn plan = ctx) ∧
  Forall (fun w => wProposalId w = pid ∧ wCtx w = ctx) (workers sv) ∧
  ctx < length (contexts sv) →
  step a sv = Some sv' →
  (∃ plan, plans sv' !! pid = Some plan ∧ Plan.CancelFn plan = ctx) ∧
  Forall (fun w => wProposalId w = pid ∧ wCtx w = ctx) (workers sv') ∧
  ctx < length (contexts sv').
Proof.
  intros ((plan & Hplan & Hcancel) & Hws & Hlt) Hstep.
  destruct a as [i ev|c]; simpl in Hstep.
  2:{ case_decide; [|done]. injection Hstep as <-. simpl.
      rewrite length_insert. eauto. }
  destruct (workers sv !! i) as [w|] eqn:Hi; [|done]. simpl in Hstep.
  destruct (worker_step ev w sv) as [[sv1 st]|] eqn:Hstp; [|done]. simpl in Hstep.
  injection Hstep as <-.
  destruct (ServerFacts.worker_step_frame ev w sv sv1 st Hstp) as (_ & Hc1 & Hw1).
  destruct (worker_step_mutation ev w sv sv1 st Hstp) as (f & Hf & Hplans).
  destruct (proj1 (Forall_lookup _ _) Hws i w Hi) as (Hpid & Hctx).
  destruct (mutation_frame w f plan Hf) as (_ & _ & Hcancel' & _).
  simpl. rewrite Hw1, Hc1, Hplans, Hpid, lookup_alter_eq, Hplan. simpl.
  split; [exists (f plan); split; [done|congruence]|].
  split; [|done]. apply Forall_insert; [done|]. by simpl.
Qed.

(** X18. What the cancel function of a plan does. After [confirmProposal] of
    a finished proposal, in a process that runs no other goroutine, and
    after any steps, the cancel function the plan holds is that of the
    context every goroutine of the proposal watches, and it can be called.
    Once it is called, a goroutine at its [select] starts no other
    [stream.Recv()]; it can return, and does so in silence: the plan, the
    stream and the standard output are as before. *)
Theorem cancellation_is_seen_at_select (E : Env) (pid : string) (sv0 sv : Server)
    (proposal : Proposal.t) (trace : list Action) :
  GOENV E ≠ "test" → workers sv0 = [] →
  proposals sv0 !! pid = Some proposal → Proposal.IsFinished proposal = true →
  run trace (confirmProposal E pid sv0).2 = Some sv →
  ∃ plan sv1,
    plans sv !! pid = Some plan ∧
    step (Cancel (Plan.CancelFn plan)) sv = Some sv1 ∧
    plans sv1 = plans sv ∧ stream sv1 = stream sv ∧ workers sv1 = workers sv ∧
    ∀ i w, workers sv !! i = Some w →
      wCtx w = Plan.CancelFn plan ∧
      (wStatus w = Selecting →
       step (At i (Select CaseDefault)) sv1 = None ∧
       ∃ sv2, step (At i (Select CaseDone)) sv1 = Some sv2 ∧
         plans sv2 = plans sv ∧ stream sv2 = stream sv ∧ stdout sv2 = stdout sv ∧
         wStatus <$> workers sv2 !! i = Some Stopped).
Proof.
  intros Henv Hw Hp Hfin Hrun.
  set (ctx := length (contexts sv0)).
  assert ((∃ plan, plans sv !! pid = Some plan ∧ Plan.CancelFn plan = ctx) ∧
          Forall (fun w => wProposalId w = pid ∧ wCtx w = ctx) (workers sv) ∧
          ctx < length (contexts sv)) as ((plan & Hplan & Hcancel) & Hws & Hlt).
  { revert Hrun.
    rewrite (ServerFacts.confirmProposal_starts E pid sv0 proposal) by done.
    rewrite Hw. simpl. fold ctx.
    match goal with |- run trace ?x = _ → _ => set (sv1 := x) end.
    assert ((∃ plan, plans sv1 !! pid = Some plan ∧ Plan.CancelFn plan = ctx) ∧
            Forall (fun w => wProposalId w = pid ∧ wCtx w = ctx) (workers sv1) ∧
            ctx < length (contexts sv1)) as Hinv.
    { unfold sv1. simpl. split; [|split].
      - eexists. by rewrite lookup_insert_eq.
      - by apply Forall_map, Forall_true.
      - rewrite length_app. simpl. unfold ctx. lia. }
    clearbody sv1. revert sv1 Hinv.
    induction trace as [|a trace IH]; intros sv1 Hinv; simpl.
    - by intros [= <-].
    - destruct (step a sv1) as [sv2|] eqn:Hstep; [|done]. simpl.
      apply IH. by eapply context_step. }
  exists plan. eexists. split; [done|]. split.
  { simpl. rewrite Hcancel. by rewrite decide_True. }
  split; [done|]. split; [done|]. split; [done|].
  intros i w Hi.
  destruct (proj1 (Forall_lookup _ _) Hws i w Hi) as (Hpid & Hctx).
  split; [congruence|].
  set (sv1 := set_contexts (<[ctx := true]> (contexts sv)) sv).
  assert (cancelled w sv1 = true) as Hc.
  { unfold cancelled, sv1. simpl. rewrite Hctx.
    apply bool_decide_eq_true. by apply list_lookup_insert_eq. }
  intros Hst. split.
  - unfold step. simpl. rewrite Hi. simpl. unfold worker_step. by rewrite Hst, Hc.
  - eexists. split.
    { eapply ServerFacts.step_at; [exact Hi|].
      unfold worker_step. rewrite Hst, Hc. reflexivity. }
    simpl. split; [done|]. split; [done|]. split; [done|].
    rewrite list_lookup_insert_eq; [done|]. by eapply lookup_lt_Some.
Qed.

(** *** A stream that stays silent *)

(** X21. The inactivity timer cannot end a wait in [stream.Recv()]: the
    timer is looked at only in the [select] before [Recv]. A goroutine that
    is inside [Recv] stays there, for the same file, without failing or
    returning, until [Recv] itself returns to it, whether or not its timer
    fires meanwhile and whatever the other goroutines do. *)
Theorem silent_stream_never_times_out (sv sv' : Server) (i : nat) (w : Worker)
    (trace : list Action) :
  workers sv !! i = Some w → wStatus w = Receiving →
  (∀ r, At i (Recv r) ∉ trace) →
  run trace sv = Some sv' →
  ∃ w', workers sv' !! i = Some w' ∧ wStatus w' = Receiving ∧
        wFilePath w' = wFilePath w ∧ wProposalId w' = wProposalId w.
Proof.
  revert sv w. induction trace as [|a trace IH]; intros sv w Hi Hst Hsilent; simpl.
  - intros [= <-]. by exists w.
  - destruct (step a sv) as [sv1|] eqn:Hstep; [|done]. simpl. intros Hrun.
    assert (∃ w1, workers sv1 !! i = Some w1 ∧ wStatus w1 = Receiving ∧
                  wFilePath w1 = wFilePath w ∧ wProposalId w1 = wProposalId w)
      as (w1 & Hi1 & Hst1 & Hpath1 & Hpid1).
    { destruct a as [j ev|ctx]; simpl in Hstep.
      2:{ case_decide; [|done]. injection Hstep as <-. by exists w. }
      destruct (workers sv !! j) as [wj|] eqn:Hj; [|done]. simpl in Hstep.
      destruct (worker_step ev wj sv) as [[sv2 st]|] eqn:Hws; [|done]. simpl in Hstep.
      injection Hstep as <-.
      destruct (ServerFacts.worker_step_frame ev wj sv sv2 st Hws) as (_ & _ & Hw2).
      simpl. rewrite Hw2.
      destruct (decide (j = i)) as [->|Hne].
      - rewrite Hi in Hj. injection Hj as <-.
        assert (is_Some (worker_step ev w sv)) as Hsome by (by rewrite Hws; eexists).
        destruct (ServerFacts.waits_for_Recv ev w sv Hst Hsome) as [->|[r ->]].
        + unfold worker_step in Hws. rewrite Hst in Hws.
          destruct (wTimer w); [done|]. injection Hws as <- <-.
          eexists. split; [apply list_lookup_insert_eq; by eapply lookup_lt_Some|].
          done.
        + exfalso. apply (Hsilent r). by left.
      - exists w. by rewrite list_lookup_insert_ne. }
    destruct (IH sv1 w1 Hi1 Hst1) as (w' & Hi' & Hst' & Hpath' & Hpid'); [|done|].
    { intros r Hin. apply (Hsilent r). by right. }
    exists w'. repeat split; congruence.
Qed.

(** *** The request for a file *)

Lemma find_context (filePath : string) (parts : list ModelContextPart.t) :
  is_Some (List.find (fun part => bool_decide (ModelContextPart.FilePath part = filePath))
             parts)
  ↔ ∃ part, part ∈ parts ∧ ModelContextPart.FilePath part = filePath.
Proof.
  induction parts as [|part parts IH]; simpl.
  - split; [by intros [? [=]]|]. by intros (? & ?%elem_of_nil & _).
  - case_bool_decide as Hpart.
    + split; [|by eexists]. intros _. exists part. split; [by left|done].
    + rewrite IH. split.
      * intros (x & Hx & Hpath). exists x. split; [by right|done].
      * intros (x & [->|Hx]%elem_of_cons & Hpath); [done|]. by exists x.
Qed.

(** X19. What is sent to the model for a file. The request ends with the
    reply of the proposal, as the assistant, and the instruction that names
    the file, as the user. Before them comes one system message when the
    file is known, that is when the context of the request has a part for
    the path or the current plan holds a state of the file that is not
    empty, and nothing otherwise: a file the plan holds with an empty state
    counts as unknown. *)
Theorem request_shape (proposal : Proposal.t) (filePath : string) :
  let request := Proposal.Request proposal in
  let known :=
    (∃ part, part ∈ PromptRequest.ModelContext request ∧
             ModelContextPart.FilePath part = filePath) ∨
    (∃ state, PromptRequest.CurrentPlanFiles request !! filePath = Some state ∧
              state ≠ "") in
  let tail :=
    [{| Role := ChatMessageRoleAssistant; Text := Proposal.Content proposal |};
     {| Role := ChatMessageRoleUser; Text := instruction filePath |}] in
  (known → ∃ text, fileMessages proposal filePath
                   = {| Role := ChatMessageRoleSystem; Text := text |} :: tail) ∧
  (¬ known → fileMessages proposal filePath = tail) ∧
  Messages (modelReq proposal filePath) = fileMessages proposal filePath.
Proof.
  intros request known tail. unfold fileMessages. fold request.
  pose proof (find_context filePath (PromptRequest.ModelContext request)) as Hfind.
  set (fileContext := List.find _ _) in *.
  set (currentState := default "" (PromptRequest.CurrentPlanFiles request !! filePath)).
  assert (bool_decide (is_Some fileContext) || bool_decide (currentState ≠ "") = true
          ↔ known) as Hknown.
  { rewrite orb_true_iff, !bool_decide_eq_true, Hfind. unfold known, currentState.
    split; (intros [Hctx|Hstate]; [by left|right]).
    - destruct (PromptRequest.CurrentPlanFiles request !! filePath) as [state|];
        [by exists state|done].
    - by destruct Hstate as (state & -> & Hne). }
  split; [|split; [|done]].
  - intros Hk. apply Hknown in Hk. rewrite Hk. by eexists.
  - intros Hk. destruct (_ || _); [|done]. exfalso. by apply Hk, Hknown.
Qed.

End OutcomeFacts.

(** ** The marker of completion *)

Module MarkerFacts.

Import Go Server Outcome Strings.

Lemma worker_step_turn (ev : Event) (w : Worker) (sv sv' : Server) (st : Status) :
  worker_step ev w sv = Some (sv', st) → Turn w sv sv' st.
Proof.
  unfold worker_step. intros H.
  assert (plans sv = alter id (wProposalId w) (plans sv)) as Hid by (by rewrite alter_id).
  destruct (wStatus w) as [| | |msg continue|] eqn:Hst, ev as [err| |[]|r|];
    try done; simpl in H.
  - (* the stream is opened *)
    unfold starting in H.
    pose proof (ServerFacts.prints_frame (fun msg => Role msg ++ ": " ++ Text msg ++ nl)
                  (Messages (modelReq (wProposal w) (wFilePath w)))
                  (print ("Calling model for file: " ++ wFilePath w ++ nl)
                     (print ("Getting file from model: " ++ wFilePath w ++ nl) sv)))
      as (_ & Hp & _ & _ & Hs).
    cbv zeta in Hp, Hs.
    match type of Hp with plans ?x = _ => set (sv3 := x) in * end.
    change (plans sv3 = plans sv) in Hp. change (stream sv3 = stream sv) in Hs.
    destruct err as [e|]; injection H as <- <-.
    + apply (TurnFails _ _ _ _ e); [by left|done|exact Hs|].
      unfold onError, Update. cbn [fst plans set_plans print set_stdout].
      by rewrite Hp.
    + apply (TurnWorks _ _ _ _ id); [by left|done|by left|exact Hs|by rewrite Hp].
  - destruct (wTimer w); [done|]. injection H as <- <-. by apply TurnStays.
  - destruct (cancelled w sv); [|done]. injection H as <- <-.
    apply (TurnWorks _ _ _ _ id); [by right; left|done|by right; right; left|done|done].
  - destruct (wTimer w); [|done]. injection H as <- <-.
    by apply (TurnFails _ _ _ _ "stream timeout due to inactivity"); [right; left|..].
  - destruct (cancelled w sv || wTimer w); [done|]. injection H as <- <-.
    apply (TurnWorks _ _ _ _ id); [by right; left|done|by right; left|done|done].
  - destruct (wTimer w); [done|]. injection H as <- <-. by apply TurnStays.
  - unfold received in H.
    destruct r as [e|response].
    { injection H as <- <-.
      by apply (TurnFails _ _ _ _ ("Stream error: " ++ e)); [right; right|..]. }
    destruct (Choices response) as [|choice rest].
    { injection H as <- <-.
      by apply (TurnFails _ _ _ _ "Stream error: no choices"); [right; right|..]. }
    destruct (decide (FinishReason choice = "")).
    + destruct (DeltaFunctionCall choice) as [call|]; injection H as <- <-.
      * apply (TurnWorks _ _ _ _ (guarded (append_content (wFilePath w) (Arguments call))));
          [by right; right|by apply ServerFacts.guarded_keeps| |done|done].
        right; right; right. by eexists.
      * apply (TurnWorks _ _ _ _ id); [by right; right|done|by left|done|done].
    + destruct (decide (FinishReason choice = FinishReasonFunctionCall)).
      * destruct (did_finish_with _ _ _) eqn:Hdid; injection H as <- <-.
        all: apply TurnFinishes; try done; by rewrite Hdid.
      * injection H as <- <-.
        by apply (TurnFails _ _ _ _
                    ("Stream finished without 'write' function call. Reason: "
                     ++ FinishReason choice)); [right; right|..].
  - destruct (wTimer w); [done|]. injection H as <- <-. by apply TurnStays.
  - injection H as <- <-. by apply (TurnSends _ _ _ _ msg continue).
Qed.

(** A map with entries at distinct expected paths only has no more entries
    than there are paths, and as many only when every path has one. *)
Lemma size_within {A} (files : list string) (m : gmap string A) :
  NoDup files → (∀ path, is_Some (m !! path) → path ∈ files) →
  (size m ≤ length files)%nat ∧
  (size m = length files → ∀ path, path ∈ files → is_Some (m !! path)).
Proof.
  intros Hnd Hsub.
  rewrite <- (size_dom (D := gset string)), <- (size_list_to_set (C := gset string)) by done.
  assert (dom m ⊆ (list_to_set files : gset string)) as Hincl.
  { intros path Hin. apply elem_of_list_to_set, Hsub. by apply elem_of_dom. }
  split; [by apply subseteq_size|].
  intros Hsize path Hin. apply elem_of_dom.
  rewrite (set_subseteq_size_eq _ _ Hincl) by lia.
  by apply elem_of_list_to_set.
Qed.

Lemma mark_finished_FilesFinished (path : string) (p : Plan.t) :
  Plan.FilesFinished (mark_finished path p) = <[path := true]> (Plan.FilesFinished p).
Proof. unfold mark_finished. by case_match. Qed.

Lemma marker_in_stream (msgs : list StreamMsg) :
  MsgFinished ∈ msgs → (0 < length (List.filter is_marker msgs))%nat.
Proof.
  induction msgs as [|msg msgs IH]; [by intros ?%elem_of_nil|].
  intros [<-|Hin]%elem_of_cons; simpl; [lia|].
  specialize (IH Hin). destruct (is_marker msg); simpl; lia.
Qed.

Lemma marker_pending (ws : list Worker) (i : nat) (w : Worker) :
  ws !! i = Some w → sends_marker w = true →
  (0 < length (List.filter sends_marker ws))%nat.
Proof.
  revert i. induction ws as [|x ws IH]; intros i; [done|].
  destruct i as [|i]; simpl.
  - intros [= ->] ->. simpl. lia.
  - intros Hi Hw. specialize (IH i Hi Hw). destruct (sends_marker x); simpl; lia.
Qed.

(** Goroutines at different places are those of different files. *)
Lemma paths_differ (files : list string) (ws : list Worker) (i j : nat) (w w' : Worker) :
  NoDup files → wFilePath <$> ws = files →
  ws !! i = Some w → ws !! j = Some w' → i ≠ j → wFilePath w ≠ wFilePath w'.
Proof.
  intros Hnd <- Hi Hj Hne Heq. apply Hne.
  eapply (NoDup_lookup _ i j (wFilePath w) Hnd).
  - by rewrite list_lookup_fmap, Hi.
  - by rewrite list_lookup_fmap, Hj, Heq.
Qed.

Lemma settled_step (pid : string) (files : list string) (a : Action) (sv sv' : Server) :
  NoDup files → Settled pid files sv → step a sv = Some sv' → Settled pid files sv'.
Proof.
  intros Hnd HS Hstep.
  pose proof (OutcomeFacts.within_step pid files a sv sv' (settled_within _ _ _ HS) Hstep)
    as Hin'.
  destruct HS as [Hin Hpaths Hfin Hmark Honce Hfailing Hfailed].
  destruct a as [i ev|ctx]; simpl in Hstep.
  2:{ case_decide; [|done]. injection Hstep as <-. by split. }
  destruct (workers sv !! i) as [w|] eqn:Hi; [|done]. simpl in Hstep.
  destruct (worker_step ev w sv) as [[sv1 st]|] eqn:Hws; [|done]. simpl in Hstep.
  destruct (ServerFacts.worker_step_frame ev w sv sv1 st Hws) as (_ & _ & Hw1).
  destruct (OutcomeFacts.worker_step_status ev w sv sv1 st Hws) as [Hret _].
  pose proof (worker_step_turn ev w sv sv1 st Hws) as Hturn.
  destruct Hin as [[plan Hplan] Hmaps Hws_in].
  destruct (proj1 (Forall_lookup _ _) Hws_in i w Hi) as (Hpid & Hpath & _).
  destruct (Hmaps plan Hplan) as (_ & Hnum & _ & Hffin & _).
  set (w' := set_wTimer (timer_after ev w) (set_wStatus st w)) in *.
  assert (∀ j wj, (<[i := w']> (workers sv)) !! j = Some wj →
          (j = i ∧ wj = w') ∨ (j ≠ i ∧ workers sv !! j = Some wj)) as Hlook.
  { intros j wj Hj.
    apply list_lookup_insert_Some in Hj as [(-> & <- & _)|[Hne Hj]]; [by left|].
    right. by split. }
  assert (∀ j wj, j ≠ i → workers sv !! j = Some wj → wFilePath wj ≠ wFilePath w)
    as Hdiff.
  { intros j wj Hne Hj. by eapply paths_differ. }
  pose proof (OutcomeFacts.count_insert sends_marker (workers sv) i w w' Hi) as Hcount.
  assert (wStatus w ≠ Stopped) as Hgo.
  { unfold returned in Hret. by destruct (wStatus w). }
  assert (∀ plan0, plans sv !! pid = Some plan0 → plan0 = plan) as Hsame.
  { intros plan0 H0. congruence. }
  assert (working w → Plan.FilesFinished plan !! wFilePath w = None) as Hopen.
  { intros Hwork. destruct (Plan.FilesFinished plan !! wFilePath w) eqn:Hff; [|done].
    destruct (Hfin plan i w Hplan Hi) as [Hx|Hx]; [by eexists|..].
    all: destruct Hwork as [?|[?|?]]; congruence. }
  injection Hstep as <-.
  assert (wFilePath <$> <[i := w']> (workers sv) = files) as Hpaths'.
  { unfold w'. by rewrite ServerFacts.paths_insert. }
  (* the turns that leave the stream and the finished map alone *)
  assert (∀ g, (∀ p, Plan.FilesFinished (g p) = Plan.FilesFinished p) →
          plans sv1 = alter g pid (plans sv) → stream sv1 = stream sv →
          sends_marker w' = sends_marker w →
          (is_Some (Plan.FilesFinished plan !! wFilePath w) →
           st = Stopped ∨ st = Sending MsgFinished false) →
          (∀ err k, st = Sending (MsgErr err) k →
             k = false ∧ Plan.FilesFinished plan !! wFilePath w = None) →
          Settled pid files
            (set_workers (<[i := w']> (workers sv1)) sv1)) as Hquiet.
  { intros g Hg Hp Hs Hm Hc Hf.
    assert (plans sv1 !! pid = Some (g plan)) as Hplan1.
    { by rewrite Hp, lookup_alter_eq, Hplan. }
    split; [exact Hin'|..]; simpl; rewrite ?Hw1, ?Hs; unfold markers; simpl;
      rewrite ?Hw1, ?Hs.
    - exact Hpaths'.
    - intros plan0 j wj Hplan0 Hj. rewrite Hplan1 in Hplan0. injection Hplan0 as <-.
      rewrite Hg. destruct (Hlook j wj Hj) as [[-> ->]|[Hne Hj']].
      + exact Hc.
      + by apply (Hfin plan j wj).
    - intros plan0 Hplan0. rewrite Hplan1 in Hplan0. injection Hplan0 as <-.
      rewrite Hg. intros Hpos. apply (Hmark plan Hplan). unfold markers.
      rewrite Hm in Hcount. destruct (sends_marker w); lia.
    - unfold markers in Honce. rewrite Hm in Hcount. destruct (sends_marker w); lia.
    - intros plan0 j wj err k Hplan0 Hj. rewrite Hplan1 in Hplan0. injection Hplan0 as <-.
      rewrite Hg. destruct (Hlook j wj Hj) as [[-> ->]|[Hne Hj']].
      + apply Hf.
      + by apply (Hfailing plan j wj err k).
    - intros plan0 err Hplan0 Herr. rewrite Hplan1 in Hplan0. injection Hplan0 as <-.
      rewrite Hg. destruct (Hfailed plan err Hplan Herr) as (i0 & w0 & Hi0 & Hst0 & Hff0).
      exists i0, w0. split; [|done]. rewrite list_lookup_insert_ne; [done|].
      intros ->. congruence. }
  destruct Hturn as [-> Hs Hp|msg k Hst -> Hs Hp|Hst -> Hs Hp|err Hwork -> Hs Hp
                    |g Hwork Hg Hto Hs Hp].
  - (* the timer fires *)
    apply (Hquiet id); try done.
    + by rewrite Hp, alter_id.
    + intros Hsome. by apply (Hfin plan i w).
    + intros err k Hst. by apply (Hfailing plan i w err k).
  - (* the pending call of [onStream] *)
    assert (sends_marker w = is_marker msg) as Hb.
    { unfold sends_marker. rewrite Hst. by destruct msg. }
    assert (sends_marker w' = false) as Hb' by (by destruct k).
    rewrite Hb, Hb' in Hcount.
    split; [exact Hin'|..]; simpl; rewrite ?Hw1, ?Hs, ?Hp; unfold markers; simpl;
      rewrite ?Hw1, ?Hs, ?OutcomeFacts.filter_snoc, ?length_app.
    + exact Hpaths'.
    + intros plan0 j wj Hplan0 Hj Hsome. apply Hsame in Hplan0 as ->.
      destruct (Hlook j wj Hj) as [[-> ->]|[Hne Hj']].
      * destruct (Hfin plan i w Hplan Hi Hsome) as [Hx|Hx]; [done|].
        rewrite Hst in Hx. injection Hx as -> ->. by left.
      * by apply (Hfin plan j wj).
    + intros plan0 Hplan0 Hpos. apply (Hmark plan0 Hplan0). unfold markers.
      destruct (is_marker msg); simpl in *; lia.
    + unfold markers in Honce. destruct (is_marker msg); simpl in *; lia.
    + intros plan0 j wj err k' Hplan0 Hj Hstj. apply Hsame in Hplan0 as ->.
      destruct (Hlook j wj Hj) as [[-> ->]|[Hne Hj']].
      * by destruct k.
      * by apply (Hfailing plan j wj err k').
    + intros plan0 err Hplan0 Herr. apply Hsame in Hplan0 as ->.
      apply elem_of_app in Herr as [Herr|Hmsg%list_elem_of_singleton].
      * destruct (Hfailed plan err Hplan Herr) as (i0 & w0 & Hi0 & Hst0 & Hff0).
        exists i0, w0. split; [|done]. rewrite list_lookup_insert_ne; [done|].
        intros ->. congruence.
      * subst msg. destruct (Hfailing plan i w err k Hplan Hi Hst) as [-> Hff].
        exists i, w'. split; [|done].
        apply list_lookup_insert_eq. by eapply lookup_lt_Some.
  - (* the file is marked finished *)
    destruct (Plan.IsTerminal plan) eqn:Hterm.
    { (* the plan is terminal and stays as it is *)
      assert (did_finish_with (wFilePath w) (plans sv) (wProposalId w) = false) as Hno.
      { unfold did_finish_with. by rewrite Hpid, Hplan, Hterm. }
      rewrite Hno in *.
      apply (Hquiet id); try done.
      - rewrite Hp, Hpid. apply map_eq. intros k.
        destruct (decide (pid = k)) as [<-|Hne].
        + rewrite !lookup_alter_eq, Hplan. simpl.
          by rewrite ServerFacts.guarded_terminal.
        + by rewrite !lookup_alter_ne.
      - unfold sends_marker, w'. simpl. by rewrite Hst, ?Hno.
      - intros _. by left. }
    assert (plans sv1 !! pid = Some (mark_finished (wFilePath w) plan)) as Hplan1.
    { rewrite Hp, Hpid, lookup_alter_eq, Hplan. simpl.
      by rewrite ServerFacts.guarded_live. }
    assert (Plan.FilesFinished plan !! wFilePath w = None) as Hnone.
    { apply Hopen. by right; right. }
    destruct (within_maps _ _ _ Hin' _ Hplan1) as (_ & _ & _ & Hffin' & _).
    rewrite mark_finished_FilesFinished in Hffin'.
    destruct (size_within files _ Hnd Hffin') as [Hle _].
    rewrite map_size_insert_None in Hle by done.
    assert (markers sv = 0)%nat as Hzero.
    { destruct (decide (0 < markers sv)%nat) as [Hpos|Hno]; [|lia].
      specialize (Hmark plan Hplan Hpos). lia. }
    unfold markers in Hzero.
    assert (sends_marker w = false) as Hb by (unfold sends_marker; by rewrite Hst).
    rewrite Hb in Hcount.
    assert (did_finish_with (wFilePath w) (plans sv) (wProposalId w) = true →
            size (<[wFilePath w := true]> (Plan.FilesFinished plan)) = length files)
      as Hdid.
    { unfold did_finish_with. rewrite Hpid, Hplan, Hterm. unfold Plan.DidFinish. simpl.
      rewrite bool_decide_eq_true. by rewrite Hnum. }
    split; [exact Hin'|..]; simpl; rewrite ?Hw1, ?Hs; unfold markers; simpl;
      rewrite ?Hw1, ?Hs.
    + exact Hpaths'.
    + intros plan0 j wj Hplan0 Hj. rewrite Hplan1 in Hplan0. injection Hplan0 as <-.
      rewrite mark_finished_FilesFinished.
      destruct (Hlook j wj Hj) as [[-> ->]|[Hne Hj']].
      * intros _. simpl. destruct (did_finish_with _ _ _); [by right|by left].
      * rewrite lookup_insert_ne by (by eapply not_eq_sym, Hdiff).
        by apply (Hfin plan j wj).
    + intros plan0 Hplan0. rewrite Hplan1 in Hplan0. injection Hplan0 as <-.
      rewrite mark_finished_FilesFinished. intros Hpos. apply Hdid.
      destruct (did_finish_with _ _ _); [done|].
      change (sends_marker w') with false in Hcount. simpl in Hcount. lia.
    + simpl in Hcount. destruct (sends_marker w'); lia.
    + intros plan0 j wj err k Hplan0 Hj. rewrite Hplan1 in Hplan0. injection Hplan0 as <-.
      rewrite mark_finished_FilesFinished.
      destruct (Hlook j wj Hj) as [[-> ->]|[Hne Hj']].
      * simpl. by destruct (did_finish_with _ _ _).
      * rewrite lookup_insert_ne by (by eapply not_eq_sym, Hdiff).
        by apply (Hfailing plan j wj err k).
    + intros plan0 err Hplan0 Herr. rewrite Hplan1 in Hplan0. injection Hplan0 as <-.
      rewrite mark_finished_FilesFinished.
      destruct (Hfailed plan err Hplan Herr) as (i0 & w0 & Hi0 & Hst0 & Hff0).
      assert (i0 ≠ i) as Hne by (intros ->; congruence).
      exists i0, w0. split; [by rewrite list_lookup_insert_ne|]. split; [done|].
      rewrite lookup_insert_ne by (by eapply not_eq_sym, Hdiff). done.
  - (* the goroutine fails *)
    apply (Hquiet (guarded (record_error w err))); try done.
    + by apply ServerFacts.guarded_keeps.
    + by rewrite Hp, Hpid.
    + unfold sends_marker. simpl. destruct Hwork as [->|[->| ->]]; done.
    + intros Hsome. rewrite Hopen in Hsome by done. by destruct Hsome.
    + intros err' k [= <- <-]. split; [done|]. by apply Hopen.
  - (* the goroutine works on *)
    apply (Hquiet g); try done.
    + by rewrite Hp, Hpid.
    + unfold sends_marker. simpl.
      destruct Hwork as [->|[->| ->]], Hto as [->|[->|[->|[c ->]]]]; done.
    + intros Hsome. rewrite Hopen in Hsome by done. by destruct Hsome.
    + intros err' k Hst. by destruct Hto as [->|[->|[->|[c ->]]]].
Qed.

Lemma none_sends_marker (E : Env) (pid : string) (proposal : Proposal.t) (ctx : nat)
    (files : list string) :
  List.filter sends_marker (map (spawn E pid proposal ctx) files) = [].
Proof. by induction files. Qed.

Lemma settled_confirmed (E : Env) (pid : string) (sv : Server) (proposal : Proposal.t) :
  GOENV E ≠ "test" → workers sv = [] → stream sv = [] →
  proposals sv !! pid = Some proposal → Proposal.IsFinished proposal = true →
  Settled pid (PlanDescription.Files (Proposal.Description proposal))
    (confirmProposal E pid sv).2.
Proof.
  intros Henv Hw Hs Hp Hfin.
  pose proof (OutcomeFacts.within_confirmed E pid sv proposal Henv Hw Hp Hfin) as Hin.
  revert Hin.
  rewrite (ServerFacts.confirmProposal_starts E pid sv proposal) by done.
  rewrite Hw, Hs. set (files := PlanDescription.Files (Proposal.Description proposal)).
  intros Hin.
  assert (∀ i w, map (spawn E pid proposal (length (contexts sv))) files !! i = Some w →
                 wStatus w = Starting) as Hstart.
  { intros i w Hi. apply list_elem_of_lookup_2, list_elem_of_fmap in Hi as [f [-> _]].
    done. }
  split; [exact Hin|..]; unfold markers; simpl.
  - by rewrite ServerFacts.paths_spawned.
  - intros plan i w. rewrite lookup_insert_eq. intros [= <-] _ [x Hx]. simpl in Hx.
    by rewrite lookup_empty in Hx.
  - rewrite none_sends_marker. simpl. lia.
  - rewrite none_sends_marker. simpl. lia.
  - intros plan i w err k _ Hi Hst. apply Hstart in Hi. congruence.
  - by intros plan err _ ?%elem_of_nil.
Qed.

(** X20. The marker [shared.STREAM_FINISHED] is passed once at most, and
    never on a stream that carries an error. After [confirmProposal] of a
    finished proposal whose files are distinct, in a process that runs no
    other goroutine, and after any steps: the marker has been passed to
    [onStream] once at most; and when it has been passed, no error has been
    passed, every goroutine has returned, and the finished map of the plan
    has an entry for every file of the description. [DidFinish] is taken to
    compare the number of entries of the finished map with [NumFiles]. *)
Theorem marker_is_passed_once_and_alone (E : Env) (pid : string) (sv0 sv : Server)
    (proposal : Proposal.t) (trace : list Action) :
  GOENV E ≠ "test" → workers sv0 = [] → stream sv0 = [] →
  proposals sv0 !! pid = Some proposal → Proposal.IsFinished proposal = true →
  let files := PlanDescription.Files (Proposal.Description proposal) in
  NoDup files →
  run trace (confirmProposal E pid sv0).2 = Some sv →
  (length (List.filter is_marker (stream sv)) ≤ 1)%nat ∧
  (MsgFinished ∈ stream sv →
   (∀ err, MsgErr err ∉ stream sv) ∧
   Forall (fun w => wStatus w = Stopped) (workers sv) ∧
   ∃ plan, plans sv !! pid = Some plan ∧ Plan.all_expected_finished files plan).
Proof.
  intros Henv Hw Hs Hp Hfin files Hnd Hrun.
  assert (Settled pid files sv) as HS.
  { pose proof (settled_confirmed E pid sv0 proposal Henv Hw Hs Hp Hfin) as HS0.
    fold files in HS0. revert HS0 Hrun. generalize (confirmProposal E pid sv0).2.
    induction trace as [|a trace IH]; intros sv1 HS1; simpl.
    - by intros [= <-].
    - destruct (step a sv1) as [sv2|] eqn:Hstep; [|done]. simpl.
      apply IH. by eapply settled_step. }
  destruct HS as [[[plan Hplan] Hmaps Hws] Hpaths Hfinished Hmark Honce Hfailing Hfailed].
  unfold markers in *.
  split; [lia|]. intros Hin.
  pose proof (marker_in_stream _ Hin) as Hpos.
  destruct (Hmaps plan Hplan) as (_ & _ & _ & Hffin & _).
  assert (∀ path, path ∈ files → is_Some (Plan.FilesFinished plan !! path)) as Hall.
  { apply (size_within files _ Hnd Hffin). apply (Hmark plan Hplan). lia. }
  split; [|split].
  - intros err Herr.
    destruct (Hfailed plan err Hplan Herr) as (i & w & Hi & _ & Hnone).
    destruct (Hall (wFilePath w)) as [x Hx]; [|congruence].
    by destruct (proj1 (Forall_lookup _ _) Hws i w Hi) as (_ & ? & _).
  - apply Forall_lookup. intros i w Hi.
    destruct (proj1 (Forall_lookup _ _) Hws i w Hi) as (_ & Hpath & _).
    destruct (Hfinished plan i w Hplan Hi (Hall _ Hpath)) as [Hst|Hst]; [done|].
    assert (sends_marker w = true) as Hsm by (unfold sends_marker; by rewrite Hst).
    pose proof (marker_pending _ i w Hi Hsm). lia.
  - by exists plan.
Qed.

End MarkerFacts.

(** ** The content of a file and what was sent for it *)

Module ContentFacts.

Import Go Server Outcome Strings.

(** Once the finished map is complete, every goroutine has returned or is
    about to pass the marker. *)
Lemma complete_rests (pid : string) (files : list string) (sv : Server) (plan : Plan.t)
    (i : nat) (w : Worker) :
  NoDup files → Settled pid files sv →
  plans sv !! pid = Some plan →
  size (Plan.FilesFinished plan) = Plan.NumFiles plan →
  workers sv !! i = Some w →
  wStatus w = Stopped ∨ wStatus w = Sending MsgFinished false.
Proof.
  intros Hnd [[_ Hmaps Hws] _ Hfin _ _ _ _] Hplan Hsize Hi.
  destruct (Hmaps plan Hplan) as (_ & Hnum & _ & Hffin & _).
  destruct (proj1 (Forall_lookup _ _) Hws i w Hi) as (_ & Hpath & _).
  apply (Hfin plan i w Hplan Hi).
  apply (MarkerFacts.size_within files _ Hnd Hffin); [congruence|done].
Qed.

(** A mutation marks the plan finished only with a complete finished map. *)
Lemma mutation_whole (w : Worker) (f : Plan.t → Plan.t) (p : Plan.t) :
  Mutation w f →
  (Plan.Finished p = true → size (Plan.FilesFinished p) = Plan.NumFiles p) →
  Plan.Finished (f p) = true → size (Plan.FilesFinished (f p)) = Plan.NumFiles (f p).
Proof.
  intros [|content| |err] Hwhole; unfold guarded; simpl; try done.
  all: destruct (Plan.IsTerminal p) eqn:Hterm; [done|].
  all: apply ServerFacts.terminal_fields in Hterm as [Hfin _]; simpl.
  - by rewrite Hfin.
  - unfold mark_finished.
    destruct (Plan.DidFinish _) eqn:Hdid; simpl; [|by rewrite Hfin].
    intros _. unfold Plan.DidFinish in Hdid. by apply bool_decide_eq_true in Hdid.
  - by rewrite Hfin.
Qed.

Lemma coherent_step (pid : string) (files : list string) (a : Action) (sv sv' : Server) :
  NoDup files → Settled pid files sv →
  Coherent pid sv → step a sv = Some sv' → Coherent pid sv'.
Proof.
  intros Hnd HS [[plan Hpl] Hids Hchunks Hpaths Hwhole Hcontent Hprefix] Hstep.
  destruct a as [i ev|ctx]; simpl in Hstep.
  2:{ case_decide; [|done]. injection Hstep as <-. split; eauto. }
  destruct (workers sv !! i) as [w|] eqn:Hi; [|done]. simpl in Hstep.
  destruct (worker_step ev w sv) as [[sv1 st]|] eqn:Hws; [|done]. simpl in Hstep.
  injection Hstep as <-.
  destruct (ServerFacts.worker_step_frame ev w sv sv1 st Hws) as (_ & _ & Hw1).
  pose proof (ServerFacts.worker_step_bearing ev w sv sv1 st Hws) as Hb.
  destruct (OutcomeFacts.worker_step_mutation ev w sv sv1 st Hws) as (f & Hf & Hplans).
  assert (wProposalId w = pid) as Hpid.
  { by eapply (proj1 (Forall_lookup _ _) Hids). }
  pose proof (proj1 (Forall_lookup _ _) Hchunks i w Hi) as Hchunk.
  assert (plans sv1 !! pid = Some (f plan)) as Hpl1.
  { by rewrite Hplans, Hpid, lookup_alter_eq, Hpl. }
  assert (∀ plan' path, plans sv1 !! pid = Some plan' →
            (Plan.Err plan' = None →
             default "" (Plan.Files plan' !! path)
             = (sent path (stream sv1)
                ++ pending path
                     (<[i := set_wTimer (timer_after ev w) (set_wStatus st w)]>
                        (workers sv)))%string) ∧
            ∃ more,
              (sent path (stream sv1)
               ++ pending path
                    (<[i := set_wTimer (timer_after ev w) (set_wStatus st w)]>
                       (workers sv)))%string
              = (default "" (Plan.Files plan' !! path) ++ more)%string) as Hboth.
  { intros plan' path Hplan'. rewrite ServerFacts.pending_insert by done.
    pose proof (Hcontent plan path Hpl) as Heq.
    destruct (Hprefix plan path Hpl) as [more Hmore].
    destruct Hb as [content Hst -> Hs Hp|msg k Hst -> Hs Hp|g Hun Hno Hg Herr Hs Hp
                   | -> Hs Hp].
    - (* a delta is accepted *)
      rewrite Hp, Hpid, lookup_alter_eq, Hpl in Hplan'. injection Hplan' as <-.
      rewrite Hs. simpl.
      assert (unsent w = "") as Hun by (by unfold unsent; rewrite Hst).
      destruct (Plan.IsTerminal plan) eqn:Hterm.
      + rewrite ServerFacts.guarded_terminal by done. split.
        * intros Herr. exfalso.
          assert (Plan.Finished plan = true) as Hfin.
          { unfold Plan.IsTerminal in Hterm. rewrite Herr in Hterm.
            by rewrite orb_false_r in Hterm. }
          destruct (complete_rests pid files sv plan i w Hnd HS Hpl (Hwhole plan Hpl Hfin) Hi);
            congruence.
        * case_decide as Hpath; [|by exists more].
          subst path. rewrite (ServerFacts.pending_at _ i w), Hun, append_nil_r in Hmore by done.
          exists (more ++ content)%string. by rewrite Hmore, append_assoc.
      + rewrite ServerFacts.guarded_live by done.
        apply ServerFacts.terminal_fields in Hterm as [_ Herr].
        specialize (Heq Herr).
        assert (default "" (Plan.Files (append_content (wFilePath w) content plan) !! path)
                = (sent path (stream sv)
                   ++ (if decide (wFilePath w = path) then content
                       else pending path (workers sv)))%string) as Heq'.
        { simpl. case_decide as Hpath.
          - subst path. rewrite lookup_insert_eq. simpl.
            rewrite Heq, (ServerFacts.pending_at _ i w), Hun by done.
            by rewrite append_nil_r.
          - by rewrite lookup_insert_ne. }
        split; [done|]. exists "". by rewrite Heq', append_nil_r.
    - (* a message is sent *)
      rewrite Hp, Hpl in Hplan'. injection Hplan' as <-.
      assert ((sent path (stream sv1)
               ++ (if decide (wFilePath w = path)
                   then unsent (set_wStatus (if k then Selecting else Stopped) w)
                   else pending path (workers sv)))%string
              = (sent path (stream sv) ++ pending path (workers sv))%string) as ->;
        [|split; [done|by exists more]].
      rewrite Hs, ServerFacts.sent_app.
      case_decide as Hpath.
      + subst path. rewrite (ServerFacts.pending_at _ i w) by done.
        unfold unsent at 2. rewrite Hst.
        assert (unsent (set_wStatus (if k then Selecting else Stopped) w) = "") as ->.
        { by destruct k. }
        rewrite append_nil_r.
        destruct msg as [c| |e]; simpl; rewrite ?append_nil_r; try done.
        rewrite decide_True by (by eapply Hchunk). by rewrite ?append_nil_r.
      + destruct msg as [c| |e]; simpl; rewrite ?append_nil_r; try done.
        rewrite decide_False; [by rewrite append_nil_r|].
        by rewrite (Hchunk c k Hst).
    - (* neither *)
      rewrite Hp, Hpid, lookup_alter_eq, Hpl in Hplan'. injection Hplan' as <-.
      rewrite Hs, Hg.
      assert ((if decide (wFilePath w = path) then unsent (set_wStatus st w)
               else pending path (workers sv))
              = pending path (workers sv)) as ->.
      { case_decide as Hpath; [|done].
        subst path. rewrite (ServerFacts.pending_at _ i w), Hun by done.
        unfold unsent. simpl. destruct st as [| | |[c| |e] k|]; try done.
        by destruct (Hno c k). }
      split; [|by exists more]. intros Herr'. by apply Heq, Herr.
    - (* the timer fires *)
      rewrite Hp, Hpl in Hplan'. injection Hplan' as <-. rewrite Hs.
      assert ((if decide (wFilePath w = path) then unsent (set_wStatus (wStatus w) w)
               else pending path (workers sv))
              = pending path (workers sv)) as ->.
      { case_decide as Hpath; [|done].
        subst path. by rewrite (ServerFacts.pending_at _ i w), ServerFacts.set_wStatus_same. }
      split; [done|by exists more]. }
  rewrite Hw1. split; simpl.
  - by eexists.
  - apply Forall_insert; [done|]. by simpl.
  - apply Forall_insert; [done|]. simpl. intros c k Hc.
    destruct Hb as [content _ -> _ _|msg k' _ -> _ _|g _ Hno _ _ _ _| -> _ _].
    + by injection Hc as <- <-.
    + by destruct k'.
    + by destruct (Hno c k).
    + by eapply Hchunk.
  - by rewrite ServerFacts.paths_insert.
  - intros plan'. rewrite Hpl1. intros [= <-].
    apply (mutation_whole w f plan Hf). by apply Hwhole.
  - intros plan' path Hplan'. by apply Hboth.
  - intros plan' path Hplan'. by apply Hboth.
Qed.

Lemma coherent_confirmed (E : Env) (pid : string) (sv : Server) (proposal : Proposal.t) :
  GOENV E ≠ "test" → workers sv = [] → stream sv = [] →
  proposals sv !! pid = Some proposal →
  Proposal.IsFinished proposal = true →
  NoDup (PlanDescription.Files (Proposal.Description proposal)) →
  Coherent pid (confirmProposal E pid sv).2.
Proof.
  intros Henv Hw Hs Hp Hfin Hnd.
  rewrite (ServerFacts.confirmProposal_starts E pid sv proposal) by done.
  rewrite Hw, Hs. split; simpl.
  - rewrite lookup_insert_eq. by eexists.
  - by apply Forall_map, Forall_true.
  - by apply Forall_map, Forall_true.
  - by rewrite ServerFacts.paths_spawned.
  - intros plan. rewrite lookup_insert_eq. by intros [= <-].
  - intros plan path. rewrite lookup_insert_eq. intros [= <-] _. simpl.
    by rewrite lookup_empty, ServerFacts.pending_spawned.
  - intros plan path. rewrite lookup_insert_eq. intros [= <-]. simpl.
    exists "". by rewrite lookup_empty, ServerFacts.pending_spawned.
Qed.

(** C5, as amended. After [confirmProposal] of a finished proposal whose
    files are distinct, in a process that runs no other goroutine, and after
    any steps of the goroutines: as long as the plan holds no error, the
    content accumulated in the plan for a path is the concatenation of the
    contents of the chunks sent for that path, in the order they were sent,
    followed by the content of the chunk its goroutine is about to send, if
    any. Once the plan holds an error it is terminal and accumulates no
    more, while chunks are still sent: the content is then the beginning of
    that concatenation. *)
Theorem content_is_concatenation (E : Env) (pid : string) (sv0 sv : Server)
    (proposal : Proposal.t) (trace : list Action) :
  GOENV E ≠ "test" → workers sv0 = [] → stream sv0 = [] →
  proposals sv0 !! pid = Some proposal →
  Proposal.IsFinished proposal = true →
  NoDup (PlanDescription.Files (Proposal.Description proposal)) →
  run trace (confirmProposal E pid sv0).2 = Some sv →
  ∃ plan, plans sv !! pid = Some plan ∧
    (Plan.Err plan = None →
     ∀ path, default "" (Plan.Files plan !! path)
             = (sent path (stream sv) ++ pending path (workers sv))%string) ∧
    (∀ path, ∃ more,
       (sent path (stream sv) ++ pending path (workers sv))%string
       = (default "" (Plan.Files plan !! path) ++ more)%string).
Proof.
  intros Henv Hw Hs Hp Hfin Hnd Hrun.
  pose proof (coherent_confirmed E pid sv0 proposal Henv Hw Hs Hp Hfin Hnd) as HC.
  pose proof (MarkerFacts.settled_confirmed E pid sv0 proposal Henv Hw Hs Hp Hfin) as HS.
  revert HC HS Hrun. generalize (confirmProposal E pid sv0).2.
  induction trace as [|a trace IH]; intros sv1 HC HS; simpl.
  - intros [= <-]. destruct HC as [[plan Hplan] _ _ _ _ Hcontent Hprefix].
    exists plan. split; [done|]. split.
    + intros Herr path. by apply Hcontent.
    + intros path. by apply Hprefix.
  - destruct (step a sv1) as [sv2|] eqn:Hstep; [|done]. simpl.
    apply IH.
    + by eapply coherent_step.
    + by eapply MarkerFacts.settled_step.
Qed.

End ContentFacts.

(** ** The theorem of the contents at example runs *)

Module ContentExamples.

Import Go Server Examples Scenarios.

Lemma content_is_concatenation_witness :
  ∃ sv plan,
    run abc_trace server1 = Some sv ∧ plans sv !! "p1" = Some plan ∧
    Plan.Err plan = None ∧
    ∀ path, default "" (Plan.Files plan !! path)
            = (sent path (stream sv) ++ pending path (workers sv))%string.
Proof.
  destruct (run abc_trace server1) as [sv|] eqn:Hrun; [|by vm_compute in Hrun].
  destruct (ContentFacts.content_is_concatenation server_env "p1" server0 sv two_files
              abc_trace)
    as (plan & Hplan & Hcontent & _);
    [discriminate | reflexivity | reflexivity | vm_compute; reflexivity
    | reflexivity
    | apply NoDup_cons; split;
        [by intros [=]%list_elem_of_singleton | apply NoDup_singleton]
    | exact Hrun |].
  assert (Plan.Err plan = None) as Herr.
  { vm_compute in Hrun. injection Hrun as <-. vm_compute in Hplan.
    injection Hplan as <-. reflexivity. }
  exists sv, plan. split; [reflexivity|]. split; [exact Hplan|].
  split; [exact Herr|]. exact (Hcontent Herr).
Defined.

(** The example of the spec (8): the chunks a, b, c, in that order, give the
    content abc, whatever is sent for the other file in between. *)
Example abc_accumulates :
  ∃ sv plan,
    run abc_trace server1 = Some sv ∧ plans sv !! "p1" = Some plan ∧
    Plan.Files plan !! "a.txt" = Some "abc" ∧
    sent "a.txt" (stream sv) = "abc" ∧ pending "a.txt" (workers sv) = "".
Proof.
  destruct (run abc_trace server1) as [sv|] eqn:Hrun; [|by vm_compute in Hrun].
  vm_compute in Hrun. injection Hrun as <-.
  eexists _, _. split; [reflexivity|]. split; [vm_compute; reflexivity|].
  by vm_compute.
Qed.

(** C5 as stated fails in two ways. When a goroutine has failed, the plan is
    terminal: the stream of [b.txt] cannot be opened, and the chunk [a.txt]
    receives afterwards is passed to [onStream] but not accumulated. And
    when the description lists a file twice, its two goroutines append to
    one content: the plan holds the chunks in the order they were received,
    ab, and [onStream] was called with them in the other order, ba. *)
Lemma content_differs_from_sent :
  (∃ sv plan,
     run after_error_trace server1 = Some sv ∧ plans sv !! "p1" = Some plan ∧
     Plan.Files plan !! "a.txt" = None ∧
     sent "a.txt" (stream sv) = "a" ∧ pending "a.txt" (workers sv) = "") ∧
  (∃ sv plan,
     run crossed_trace (confirmProposal server_env "p4" server_twice).2 = Some sv ∧
     plans sv !! "p4" = Some plan ∧
     Plan.Err plan = None ∧
     Plan.Files plan !! "a.txt" = Some "ab" ∧
     sent "a.txt" (stream sv) = "ba" ∧ pending "a.txt" (workers sv) = "").
Proof.
  split.
  - destruct (run after_error_trace server1) as [sv|] eqn:Hrun; [|by vm_compute in Hrun].
    vm_compute in Hrun. injection Hrun as <-.
    eexists _, _. split; [reflexivity|]. split; [vm_compute; reflexivity|].
    by vm_compute.
  - destruct (run crossed_trace _) as [sv|] eqn:Hrun; [|by vm_compute in Hrun].
    vm_compute in Hrun. injection Hrun as <-.
    eexists _, _. split; [reflexivity|]. split; [vm_compute; reflexivity|].
    by vm_compute.
Qed.

End ContentExamples.

(** ** The theorems at example runs of the server *)

Module OutcomeExamples.

Import Go Server Outcome Examples Scenarios.

Lemma goroutine_step_is_local_witness :
  ∃ sv', step (At 1 (Recv (delta "x"))) server2 = Some sv' ∧
         contexts sv' = contexts server2 ∧
         workers sv' !! 0 = workers server2 !! 0 ∧
         (stream sv' = stream server2 ∨ ∃ msg, stream sv' = (stream server2 ++ [msg])%list).
Proof.
  destruct (step (At 1 (Recv (delta "x"))) server2) as [sv'|] eqn:Hstep;
    [|vm_compute in Hstep; discriminate Hstep].
  exists sv'. split; [reflexivity|].
  destruct (OutcomeFacts.goroutine_step_is_local server2 sv' 1 (Recv (delta "x")) worker_b)
    as (_ & Hc & _ & Hother & _ & _ & _ & Hs);
    [vm_compute; reflexivity | exact Hstep |].
  split; [exact Hc|]. split; [apply Hother; discriminate | exact Hs].
Defined.

Lemma no_files_nothing_sent_witness :
  ∃ sv, run [Cancel 0] (confirmProposal server_env "p3" server_idle).2 = Some sv ∧
        (confirmProposal server_env "p3" server_idle).1 = None ∧
        workers sv = [] ∧ stream sv = [] ∧
        ∃ plan, plans sv !! "p3" = Some plan ∧ Plan.Finished plan = false.
Proof.
  destruct (run [Cancel 0] (confirmProposal server_env "p3" server_idle).2)
    as [sv|] eqn:Hrun; [|vm_compute in Hrun; discriminate Hrun].
  exists sv. split; [reflexivity|].
  destruct (OutcomeFacts.no_files_nothing_sent server_env "p3" server_idle sv
              nothing_to_write [Cancel 0])
    as (Hret & Hw & Hs & _ & plan & Hplan & _ & Hfin & _);
    [discriminate | reflexivity | vm_compute; reflexivity | reflexivity | reflexivity
    | exact Hrun |].
  split; [exact Hret|]. split; [exact Hw|]. split; [exact Hs|].
  exists plan. split; [exact Hplan | exact Hfin].
Defined.

Lemma one_last_message_per_goroutine_witness :
  ∃ sv, run partial_trace server1 = Some sv ∧
        length (workers sv) = 2 ∧
        (length (List.filter terminal (stream sv))
         ≤ length (List.filter returned (workers sv)))%nat.
Proof.
  destruct (run partial_trace server1) as [sv|] eqn:Hrun;
    [|vm_compute in Hrun; discriminate Hrun].
  exists sv. split; [reflexivity|].
  destruct (OutcomeFacts.one_last_message_per_goroutine server_env "p1" server0 sv
              two_files partial_trace)
    as (Hlen & Hle & _);
    [discriminate | reflexivity | reflexivity | vm_compute; reflexivity | reflexivity
    | exact Hrun |].
  split; [exact Hlen | exact Hle].
Defined.

Lemma plan_holds_described_paths_only_witness :
  ∃ sv plan,
    run [At 0 (CreateStream None); At 0 Expire; At 0 (Select CaseTimer); At 0 Send]
      (confirmProposal old_env "p1" server0).2 = Some sv ∧
    plans sv !! "p1" = Some plan ∧ Plan.NumFiles plan = 2 ∧
    ∀ path, is_Some (Plan.FileErrs plan !! path) → path ∈ ["a.txt"; "b.txt"].
Proof.
  destruct (run [At 0 (CreateStream None); At 0 Expire; At 0 (Select CaseTimer); At 0 Send]
              (confirmProposal old_env "p1" server0).2) as [sv|] eqn:Hrun;
    [|vm_compute in Hrun; discriminate Hrun].
  destruct (OutcomeFacts.plan_holds_described_paths_only old_env "p1" server0 sv two_files
              [At 0 (CreateStream None); At 0 Expire; At 0 (Select CaseTimer); At 0 Send])
    as (plan & Hplan & _ & Hnum & _ & _ & Herrs);
    [discriminate | reflexivity | vm_compute; reflexivity | reflexivity | exact Hrun |].
  exists sv, plan. split; [reflexivity|]. split; [exact Hplan|].
  split; [exact Hnum | exact Herrs].
Defined.

Lemma reconfirmation_restarts_witness :
  Plan.Files <$> plans server3 !! "p1" = Some (<["b.txt" := "x"]> ∅) ∧
  Plan.Files <$> plans (confirmProposal server_env "p1" server3).2 !! "p1" = Some ∅ ∧
  length (workers (confirmProposal server_env "p1" server3).2) = 4 ∧
  contexts (confirmProposal server_env "p1" server3).2 = [false; false].
Proof.
  destruct (OutcomeFacts.reconfirmation_restarts server_env "p1" server3 two_files plan_x)
    as (_ & Hplan & Hctx & Hlen & _);
    [discriminate | vm_compute; reflexivity | reflexivity | vm_compute; reflexivity |].
  split; [vm_compute; reflexivity|].
  split; [by rewrite Hplan|]. split; [exact Hlen | exact Hctx].
Defined.

Lemma cancellation_is_seen_at_select_witness :
  ∃ sv sv1,
    run [At 0 (CreateStream None)] server1 = Some sv ∧
    step (Cancel 0) sv = Some sv1 ∧
    step (At 0 (Select CaseDefault)) sv1 = None ∧
    is_Some (step (At 0 (Select CaseDone)) sv1).
Proof.
  destruct (run [At 0 (CreateStream None)] server1) as [sv|] eqn:Hrun;
    [|vm_compute in Hrun; discriminate Hrun].
  destruct (OutcomeFacts.cancellation_is_seen_at_select server_env "p1" server0 sv two_files
              [At 0 (CreateStream None)])
    as (plan & sv1 & Hplan & Hcancel & _ & _ & _ & Hws);
    [discriminate | reflexivity | vm_compute; reflexivity | reflexivity | exact Hrun |].
  assert (Plan.CancelFn plan = 0) as Hzero.
  { vm_compute in Hrun. injection Hrun as <-. vm_compute in Hplan.
    injection Hplan as <-. reflexivity. }
  rewrite Hzero in Hcancel.
  assert (∃ w, workers sv !! 0 = Some w ∧ wStatus w = Selecting) as (w & Hw & Hst).
  { vm_compute in Hrun. injection Hrun as <-. eexists. split; reflexivity. }
  destruct (Hws 0 w Hw) as (_ & Hsel).
  destruct (Hsel Hst) as (Hno & sv2 & Hdone & _).
  exists sv, sv1. split; [reflexivity|]. split; [exact Hcancel|].
  split; [exact Hno|]. rewrite Hdone. by eexists.
Defined.

Lemma silent_stream_never_times_out_witness :
  ∃ sv w',
    run [At 1 Expire; At 0 (Select CaseDefault); Cancel 0] server2 = Some sv ∧
    workers sv !! 1 = Some w' ∧ wStatus w' = Receiving ∧ wTimer w' = true.
Proof.
  destruct (run [At 1 Expire; At 0 (Select CaseDefault); Cancel 0] server2)
    as [sv|] eqn:Hrun; [|vm_compute in Hrun; discriminate Hrun].
  destruct (OutcomeFacts.silent_stream_never_times_out server2 sv 1 worker_b
              [At 1 Expire; At 0 (Select CaseDefault); Cancel 0])
    as (w' & Hw' & Hst & _);
    [vm_compute; reflexivity | reflexivity | | exact Hrun |].
  { intros r [Hin|[Hin|[Hin|Hin%elem_of_nil]%elem_of_cons]%elem_of_cons]%elem_of_cons;
      [discriminate Hin..|done]. }
  exists sv, w'. split; [reflexivity|]. split; [exact Hw'|]. split; [exact Hst|].
  vm_compute in Hrun. injection Hrun as <-. vm_compute in Hw'.
  injection Hw' as <-. reflexivity.
Defined.

Lemma request_shape_witness :
  (∃ text, fileMessages with_context "main.go"
           = [{| Role := ChatMessageRoleSystem; Text := text |};
              {| Role := ChatMessageRoleAssistant;
                 Text := "I will change main.go and add util.go." |};
              {| Role := ChatMessageRoleUser; Text := instruction "main.go" |}]) ∧
  fileMessages with_context "new.go"
  = [{| Role := ChatMessageRoleAssistant;
        Text := "I will change main.go and add util.go." |};
     {| Role := ChatMessageRoleUser; Text := instruction "new.go" |}].
Proof.
  split.
  - destruct (OutcomeFacts.request_shape with_context "main.go") as (Hknown & _ & _).
    apply Hknown. left. eexists. split; [by left|reflexivity].
  - destruct (OutcomeFacts.request_shape with_context "new.go") as (_ & Hunknown & _).
    apply Hunknown. intros [(part & Hin & Hpath)|(state & Hstate & _)].
    + apply list_elem_of_singleton in Hin. subst part. discriminate Hpath.
    + vm_compute in Hstate. discriminate Hstate.
Defined.

Lemma marker_is_passed_once_and_alone_witness :
  ∃ sv, run complete_trace server1 = Some sv ∧
        MsgFinished ∈ stream sv ∧
        (length (List.filter is_marker (stream sv)) ≤ 1)%nat ∧
        Forall (fun w => wStatus w = Stopped) (workers sv).
Proof.
  destruct (run complete_trace server1) as [sv|] eqn:Hrun;
    [|vm_compute in Hrun; discriminate Hrun].
  assert (MsgFinished ∈ stream sv) as Hin.
  { vm_compute in Hrun. injection Hrun as <-. simpl. right. by left. }
  exists sv. split; [reflexivity|]. split; [exact Hin|].
  destruct (MarkerFacts.marker_is_passed_once_and_alone server_env "p1" server0 sv two_files
              complete_trace)
    as (Hle & Hall);
    [discriminate | reflexivity | reflexivity | vm_compute; reflexivity | reflexivity
    | apply NoDup_cons; split;
        [by intros [=]%list_elem_of_singleton | apply NoDup_singleton]
    | exact Hrun |].
  split; [exact Hle|]. by destruct (Hall Hin) as (_ & Hstopped & _).
Defined.

End OutcomeExamples.
